(** * Conversational RAG with memory: the memory store and the knowledge index

    A shallow embedding of [advanced_memory_manager.py] (class
    [AdvancedMemoryManager]) and [advanced_knowledge_base.py] (class
    [AdvancedKnowledgeBase]).

    Conventions of the embedding.
    - A Python [str] is a [string]; a character is read as the code point
      of the same number (U+0000 .. U+00FF), which covers ASCII and Latin-1
      text.  [lower], [split], [strip] follow CPython on those code points.
    - A [dict] used as a map is a [gmap]; a [list] is a [list].
    - An exception is a value of [exn]; a method that may raise returns a
      [result].  State that survives a raise is threaded explicitly.
    - [datetime.now()] in the memory manager reads an oracle
      [clock : nat -> Z] (microseconds); each call consumes one reading.
      The two readings of [add_document] are parameters.  A stored
      timestamp is the reading itself ([isoformat] and [fromisoformat] are
      inverse on it).
    - An entry that is read back has the keys that [add_session_memory]
      writes.
    - The memory manager only uses correctly rounded scalar operations on
      Python floats, so its scores are IEEE-754 binary64 values
      ([PrimFloat]).  The knowledge base reduces vectors with numpy
      ([np.dot], [np.linalg.norm]), whose summation order is not fixed by
      the source.  Its scorer is given twice: over the reals
      ([Knowledge]), for what does not depend on rounding (order,
      thresholds, lengths, the shape of the index), and on binary64
      floats ([Binary64]), for the values that the code returns.
    - Persistence ([_save_memories], [_save_knowledge]) writes files and
      changes no field of the object; it is the identity on the state, and
      so is loading what was saved.  What does change from one process
      to the next is the interpreter's string hash, a parameter of the
      embedding. *)

From Stdlib Require Import Floats Uint63 ZArith Reals Lra String Ascii List.
From Stdlib Require Import DecimalString DecimalNat.
From stdpp Require Import gmap strings list fin_maps sorting.

Local Open Scope string_scope.

(** ** Python exceptions and results *)

Inductive exn : Type :=
  | ZeroDivisionError
  | IndexError
  | KeyError.

Inductive result (A : Type) : Type :=
  | Ok (a : A)
  | Raise (e : exn).
Arguments Ok {A} a.
Arguments Raise {A} e.

Definition result_bind {A B} (r : result A) (k : A -> result B) : result B :=
  match r with
  | Ok a => k a
  | Raise e => Raise e
  end.

Fixpoint result_map {A B} (f : A -> result B) (l : list A) : result (list B) :=
  match l with
  | [] => Ok []
  | x :: l' =>
      result_bind (f x) (λ y, result_bind (result_map f l') (λ ys, Ok (y :: ys)))
  end.

(** [l[:limit]] for a list and any integer [limit] *)
Definition slice_to {A} (l : list A) (limit : Z) : list A :=
  if (limit <? 0)%Z then take (length l - Z.to_nat (- limit)) l
  else take (Z.to_nat limit) l.

(** ** Python string primitives *)

Module PyStr.

Definition code (c : ascii) : N := N_of_ascii c.

(** [str.isspace] on one character: U+0009..U+000D, U+001C..U+0020,
    U+0085 and U+00A0 are the white-space code points below U+0100. *)
Definition isspace (c : ascii) : bool :=
  let n := code c in
  ((9 <=? n) && (n <=? 13) || (28 <=? n) && (n <=? 32)
   || (n =? 133) || (n =? 160))%N.

(** [str.lower] on one character: A..Z, and U+00C0..U+00DE except the
    multiplication sign U+00D7. *)
Definition lower_char (c : ascii) : ascii :=
  let n := code c in
  if ((65 <=? n) && (n <=? 90)
      || (192 <=? n) && (n <=? 222) && negb (n =? 215))%N
  then ascii_of_N (n + 32) else c.

Fixpoint lower (s : string) : string :=
  match s with
  | EmptyString => EmptyString
  | String c s' => String (lower_char c) (lower s')
  end.

Definition len (s : string) : nat := String.length s.

(** [s.split()]: maximal runs of non-space characters, in order. *)
Fixpoint split_from (cur : string) (s : string) : list string :=
  match s with
  | EmptyString => match cur with EmptyString => [] | _ => [cur] end
  | String c s' =>
      if isspace c then
        match cur with
        | EmptyString => split_from EmptyString s'
        | _ => cur :: split_from EmptyString s'
        end
      else split_from (cur ++ String c EmptyString) s'
  end.

Definition split (s : string) : list string := split_from EmptyString s.

Fixpoint lstrip (s : string) : string :=
  match s with
  | EmptyString => EmptyString
  | String c s' => if isspace c then lstrip s' else s
  end.

Definition rev_string (s : string) : string :=
  string_of_list_ascii (rev (list_ascii_of_string s)).

(** [s.strip()] *)
Definition strip (s : string) : string :=
  rev_string (lstrip (rev_string (lstrip s))).

(** [s.split('\n\n')]: split at each non-overlapping occurrence of two
    newlines, scanning from the left; empty pieces are kept. *)
Definition is_newline (c : ascii) : bool := (code c =? 10)%N.

Fixpoint split_paragraphs_from (cur : string) (s : string) : list string :=
  match s with
  | EmptyString => [cur]
  | String a rest =>
      match rest with
      | String b s' =>
          if is_newline a && is_newline b
          then cur :: split_paragraphs_from EmptyString s'
          else split_paragraphs_from (cur ++ String a EmptyString) rest
      | EmptyString => [cur ++ String a EmptyString]
      end
  end.

Definition split_paragraphs (s : string) : list string :=
  split_paragraphs_from EmptyString s.

(** the characters of ['.!?'] *)
Definition is_terminal (c : ascii) : bool :=
  let n := code c in ((n =? 46) || (n =? 33) || (n =? 63))%N.

(** [re.split(r'[.!?]+', s)]: split at each maximal run of terminal
    punctuation; empty pieces are kept. *)
Fixpoint re_split_from (in_run : bool) (cur : string) (s : string)
  : list string :=
  match s with
  | EmptyString => [cur]
  | String c s' =>
      if is_terminal c then
        if in_run then re_split_from true EmptyString s'
        else cur :: re_split_from true EmptyString s'
      else re_split_from false (cur ++ String c EmptyString) s'
  end.

Definition re_split_terminal (s : string) : list string :=
  re_split_from false EmptyString s.

(** [t in s] for strings: [t] occurs in [s] as a substring. *)
Fixpoint contains (t s : string) : bool :=
  String.prefix t s
  || match s with
     | EmptyString => false
     | String _ s' => contains t s'
     end.

(** A slice index as CPython normalises it: a negative index counts from
    the end, and the result is clipped to [0 .. len]. *)
Definition clip_index (n i : Z) : Z :=
  let j := if (i <? 0)%Z then (i + n)%Z else i in
  Z.max 0 (Z.min n j).

(** [s[a:b]] *)
Definition slice (s : string) (a b : Z) : string :=
  let n := Z.of_nat (len s) in
  let a' := clip_index n a in
  let b' := clip_index n b in
  String.substring (Z.to_nat a') (Z.to_nat (b' - a')) s.

(** [s[:k]] for a non-negative [k] *)
Definition take (k : nat) (s : string) : string := String.substring 0 k s.

(** [s[i]]: raises [IndexError] outside [-len .. len-1]. *)
Definition index (s : string) (i : Z) : result ascii :=
  let n := Z.of_nat (len s) in
  let j := if (i <? 0)%Z then (i + n)%Z else i in
  if (j <? 0)%Z then Raise IndexError
  else match String.get (Z.to_nat j) s with
       | Some c => Ok c
       | None => Raise IndexError
       end.

(** [str(i)] for a non-negative integer *)
Definition of_nat (i : nat) : string :=
  NilEmpty.string_of_uint (Nat.to_uint i).

(** [w in ws] for a list or set literal of strings *)
Definition mem (w : string) (ws : list string) : bool :=
  bool_decide (w ∈ ws).

End PyStr.

Local Open Scope list_scope.

(** ** The memory manager ([advanced_memory_manager.py]) *)

Set Warnings "-inexact-float".

Module Memory.

(** [float(n)] for a Python [int] that is a count (exact below 2^53, so
    that [a / b] on two counts is the correctly rounded quotient, as
    CPython's true division of integers is). *)
Definition float_of_nat (n : nat) : float :=
  PrimFloat.of_uint63 (Uint63.of_Z (Z.of_nat n)).

(** [min(a, b)] on floats: the first argument unless the second is
    smaller. *)
Definition py_min (a b : float) : float :=
  if (b <? a)%float then b else a.

Inductive MemoryType : Type := Session | LongTerm.

Inductive Sentiment : Type := Positive | Negative | Neutral.

Record MemoryEntry : Type := mkMemoryEntry {
  session_id : string;
  user_id : string;
  user_message : string;
  assistant_response : string;
  timestamp : Z;
  context : gmap string string;
  memory_type : MemoryType;
  relevance_score : float;
  keywords : list string;
  sentiment : Sentiment;
  promoted_at : option Z;
  similarity_score : option float
}.

Record FlowItem : Type := mkFlowItem {
  flow_timestamp : Z;
  flow_user_message : string;
  flow_sentiment : Sentiment
}.

Record ConversationContext : Type := mkConversationContext {
  current_topic : string;
  conversation_flow : list FlowItem;
  user_preferences : gset string;
  assistant_responses : list string
}.

Record SentimentDistribution : Type := mkSentimentDistribution {
  positive : nat;
  negative : nat;
  neutral : nat
}.

Record Preferences : Type := mkPreferences {
  response_length : string;
  technical_level : string;
  emotion_support : bool
}.

Record UserProfile : Type := mkUserProfile {
  profile_user_id : string;
  total_conversations : nat;
  total_messages : nat;
  health_interests : gmap string nat;
  sentiment_distribution : SentimentDistribution;
  personality_traits : gmap string string;
  conversation_style : string;
  last_interaction : Z;
  preferences : Preferences
}.

Record MemoryManager : Type := mkMemoryManager {
  session_memories : gmap string (list MemoryEntry);
  long_term_memories : list MemoryEntry;
  user_profiles : gmap string UserProfile;
  conversation_contexts : gmap string ConversationContext;
  max_context_window : nat;
  memory_retention_days : Z;
  relevance_threshold : float
}.

(** The object as [__init__] leaves it when nothing is stored on disk. *)
Definition init : MemoryManager :=
  {| session_memories := ∅;
     long_term_memories := [];
     user_profiles := ∅;
     conversation_contexts := ∅;
     max_context_window := 10;
     memory_retention_days := 30;
     relevance_threshold := 0.7%float |}.

Definition set_session_memories (m : MemoryManager) v : MemoryManager :=
  mkMemoryManager v (long_term_memories m) (user_profiles m)
    (conversation_contexts m) (max_context_window m)
    (memory_retention_days m) (relevance_threshold m).

Definition set_long_term_memories (m : MemoryManager) v : MemoryManager :=
  mkMemoryManager (session_memories m) v (user_profiles m)
    (conversation_contexts m) (max_context_window m)
    (memory_retention_days m) (relevance_threshold m).

Definition set_user_profiles (m : MemoryManager) v : MemoryManager :=
  mkMemoryManager (session_memories m) (long_term_memories m) v
    (conversation_contexts m) (max_context_window m)
    (memory_retention_days m) (relevance_threshold m).

Definition set_conversation_contexts (m : MemoryManager) v : MemoryManager :=
  mkMemoryManager (session_memories m) (long_term_memories m)
    (user_profiles m) v (max_context_window m)
    (memory_retention_days m) (relevance_threshold m).

(** *** Pure helpers *)

Definition health_keywords : list string :=
  ["health"; "medical"; "doctor"; "symptom"; "treatment";
   "medicine"; "pain"; "fever"; "cough"; "headache"].

Definition stop_words : list string :=
  ["the"; "a"; "an"; "and"; "or"; "but"; "in"; "on"; "at"; "to";
   "for"; "of"; "with"; "by"].

Definition positive_words : list string :=
  ["good"; "great"; "excellent"; "happy"; "better"; "improved"; "helpful"].

Definition negative_words : list string :=
  ["bad"; "terrible"; "pain"; "hurt"; "sick"; "worried"; "anxious";
   "depressed"].

Definition important_keywords : list string :=
  ["emergency"; "symptom"; "treatment"; "medication"; "diagnosis"].

Definition count_in (ws : list string) (words : list string) : nat :=
  length (filter (λ w, PyStr.mem w ws = true) words).

Definition _calculate_relevance_score (text : string) : result float :=
  let words := PyStr.split (PyStr.lower text) in
  let keyword_count := count_in health_keywords words in
  match length words with
  | O => Raise ZeroDivisionError
  | S _ =>
      Ok (py_min 1
            ((float_of_nat keyword_count / float_of_nat (length words)) * 2
             + float_of_nat (length words) / 50)%float)
  end.

Definition _extract_keywords (text : string) : list string :=
  let words := PyStr.split (PyStr.lower text) in
  take 10
    (filter (λ w, negb (PyStr.mem w stop_words) && (2 <? PyStr.len w)%nat = true)
       words).

Definition _analyze_sentiment (text : string) : Sentiment :=
  let words := PyStr.split (PyStr.lower text) in
  let positive_count := count_in positive_words words in
  let negative_count := count_in negative_words words in
  if (negative_count <? positive_count)%nat then Positive
  else if (positive_count <? negative_count)%nat then Negative
  else Neutral.

Definition _should_promote_to_long_term (memory_entry : MemoryEntry) : bool :=
  let has_important_keywords :=
    existsb (λ k, PyStr.mem k important_keywords) (keywords memory_entry) in
  (0.8 <? relevance_score memory_entry)%float || has_important_keywords.

(** [timedelta(days=d)] in microseconds *)
Definition timedelta_days (d : Z) : Z := (d * 86400000000)%Z.

(** the test of the retention sweep: [timestamp > cutoff_date] *)
Definition newer_than (cutoff_date : Z) (memory : MemoryEntry) : Prop :=
  (cutoff_date < timestamp memory)%Z.

Global Instance newer_than_dec c m : Decision (newer_than c m).
Proof. unfold newer_than. apply _. Defined.

(** One pass over [list(d.keys())] that stores the filtered list back
    or deletes the key when nothing is left. *)
Definition sweep_sessions (P : MemoryEntry -> Prop) `{∀ x, Decision (P x)}
    (sessions : gmap string (list MemoryEntry))
  : gmap string (list MemoryEntry) :=
  omap (λ memories,
          match filter P memories with
          | [] => None
          | filtered_memories => Some filtered_memories
          end) sessions.

Definition default_context : ConversationContext :=
  {| current_topic := "";
     conversation_flow := [];
     user_preferences := ∅;
     assistant_responses := [] |}.

Definition _create_default_profile (now : Z) : UserProfile :=
  {| profile_user_id := "anonymous";
     total_conversations := 0;
     total_messages := 0;
     health_interests := ∅;
     sentiment_distribution := mkSentimentDistribution 0 0 0;
     personality_traits := ∅;
     conversation_style := "formal";
     last_interaction := now;
     preferences := mkPreferences "medium" "general" true |}.

Definition bump_sentiment (s : Sentiment) (d : SentimentDistribution)
  : SentimentDistribution :=
  match s with
  | Positive => mkSentimentDistribution (S (positive d)) (negative d) (neutral d)
  | Negative => mkSentimentDistribution (positive d) (S (negative d)) (neutral d)
  | Neutral => mkSentimentDistribution (positive d) (negative d) (S (neutral d))
  end.

Definition bump_interest (interests : gmap string nat) (keyword : string)
  : gmap string nat :=
  match interests !! keyword with
  | Some n => <[keyword := S n]> interests
  | None => <[keyword := 1]> interests
  end.

(** the body of [_update_user_profile] once the profile is in hand *)
Definition record_turn (profile : UserProfile) (memory_entry : MemoryEntry)
  : UserProfile :=
  {| profile_user_id := profile_user_id profile;
     total_conversations := total_conversations profile + 1;
     total_messages := total_messages profile + 1;
     health_interests :=
       foldl bump_interest (health_interests profile) (keywords memory_entry);
     sentiment_distribution :=
       bump_sentiment (sentiment memory_entry) (sentiment_distribution profile);
     personality_traits := personality_traits profile;
     conversation_style := conversation_style profile;
     last_interaction := timestamp memory_entry;
     preferences := preferences profile |}.

Definition promoted_copy (memory_entry : MemoryEntry) (now : Z) : MemoryEntry :=
  {| session_id := session_id memory_entry;
     user_id := user_id memory_entry;
     user_message := user_message memory_entry;
     assistant_response := assistant_response memory_entry;
     timestamp := timestamp memory_entry;
     context := context memory_entry;
     memory_type := LongTerm;
     relevance_score := relevance_score memory_entry;
     keywords := keywords memory_entry;
     sentiment := sentiment memory_entry;
     promoted_at := Some now;
     similarity_score := similarity_score memory_entry |}.

Definition with_similarity (memory : MemoryEntry) (s : float) : MemoryEntry :=
  {| session_id := session_id memory;
     user_id := user_id memory;
     user_message := user_message memory;
     assistant_response := assistant_response memory;
     timestamp := timestamp memory;
     context := context memory;
     memory_type := memory_type memory;
     relevance_score := relevance_score memory;
     keywords := keywords memory;
     sentiment := sentiment memory;
     promoted_at := promoted_at memory;
     similarity_score := Some s |}.

(** [bool(user_id)] for an optional string *)
Definition truthy (user_id : option string) : bool :=
  match user_id with
  | Some (String _ _) => true
  | _ => false
  end.

(** [user_id or "anonymous"] *)
Definition or_anonymous (user_id : option string) : string :=
  match user_id with
  | Some (String c s) => String c s
  | _ => "anonymous"
  end.

(** the dictionary literal built at the top of [add_session_memory] *)
Definition make_entry (sid user_message assistant_response : string)
    (context : option (gmap string string)) (uid : option string)
    (timestamp : Z) (score : float) : MemoryEntry :=
  {| session_id := sid;
     user_id := or_anonymous uid;
     user_message := user_message;
     assistant_response := assistant_response;
     timestamp := timestamp;
     context := default ∅ context;
     memory_type := Session;
     relevance_score := score;
     keywords := _extract_keywords user_message;
     sentiment := _analyze_sentiment user_message;
     promoted_at := None;
     similarity_score := None |}.

(** *** The object and the clock as state *)

Record World : Type := mkWorld {
  mgr : MemoryManager;
  ticks : nat
}.

Definition M (A : Type) : Type := World -> result A * World.

Definition ret {A} (a : A) : M A := λ w, (Ok a, w).

Definition bind {A B} (c : M A) (k : A -> M B) : M B :=
  λ w, match c w with
       | (Ok a, w') => k a w'
       | (Raise e, w') => (Raise e, w')
       end.

Definition lift {A} (r : result A) : M A := λ w, (r, w).

Definition get : M MemoryManager := λ w, (Ok (mgr w), w).

Definition modify (f : MemoryManager -> MemoryManager) : M unit :=
  λ w, (Ok tt, mkWorld (f (mgr w)) (ticks w)).

Definition when (b : bool) (c : M unit) : M unit := if b then c else ret tt.

Notation "'let*' x ':=' c 'in' k" := (bind c (λ x, k))
  (at level 10, x name, c at level 100, k at level 200).
Notation "c ;;; k" := (bind c (λ _, k))
  (at level 100, right associativity).

Section Operations.

(** successive readings of [datetime.now()], in microseconds *)
Variable clock : nat -> Z.

Definition datetime_now : M Z :=
  λ w, (Ok (clock (ticks w)), mkWorld (mgr w) (S (ticks w))).

Definition _update_conversation_context (sid : string)
    (memory_entry : MemoryEntry) : M unit :=
  modify (λ m,
    let contexts := conversation_contexts m in
    let ctx := default default_context (contexts !! sid) in
    let topic := match keywords memory_entry with
                 | k :: _ => k
                 | [] => current_topic ctx
                 end in
    let flow := conversation_flow ctx ++
                [mkFlowItem (timestamp memory_entry)
                   (PyStr.take 50 (user_message memory_entry) ++ "...")%string
                   (sentiment memory_entry)] in
    let flow := if (20 <? length flow)%nat then drop (length flow - 20) flow
                else flow in
    set_conversation_contexts m
      (<[sid := mkConversationContext topic flow (user_preferences ctx)
                  (assistant_responses ctx)]> contexts)).

Definition _update_user_profile (uid : string) (memory_entry : MemoryEntry)
  : M unit :=
  let* m := get in
  let* profile :=
    match user_profiles m !! uid with
    | Some p => ret p
    | None => let* now := datetime_now in ret (_create_default_profile now)
    end in
  modify (λ m, set_user_profiles m
                 (<[uid := record_turn profile memory_entry]> (user_profiles m))).

Definition _promote_to_long_term (memory_entry : MemoryEntry) : M unit :=
  let* now := datetime_now in
  modify (λ m, set_long_term_memories m
                 (long_term_memories m ++ [promoted_copy memory_entry now])).

Definition _cleanup_old_memories : M unit :=
  let* now := datetime_now in
  modify (λ m,
    let cutoff_date := (now - timedelta_days (memory_retention_days m))%Z in
    set_long_term_memories
      (set_session_memories m
         (sweep_sessions (newer_than cutoff_date) (session_memories m)))
      (filter (newer_than cutoff_date) (long_term_memories m))).

Definition add_session_memory (sid user_message assistant_response : string)
    (context : option (gmap string string)) (uid : option string) : M unit :=
  let* timestamp := datetime_now in
  let* score := lift (_calculate_relevance_score user_message) in
  let memory_entry :=
    make_entry sid user_message assistant_response context uid
      timestamp score in
  modify (λ m, set_session_memories m
                 (<[sid := default [] (session_memories m !! sid)
                           ++ [memory_entry]]> (session_memories m))) ;;;
  _update_conversation_context sid memory_entry ;;;
  when (truthy uid) (_update_user_profile (or_anonymous uid) memory_entry) ;;;
  when (_should_promote_to_long_term memory_entry)
       (_promote_to_long_term memory_entry) ;;;
  _cleanup_old_memories.

End Operations.

(** [clear_user_data] reads no clock. *)
Definition clear_user_data (uid : string) (m : MemoryManager) : MemoryManager :=
  let m1 := set_user_profiles m (delete uid (user_profiles m)) in
  let m2 := set_long_term_memories m1
              (filter (λ memory, user_id memory ≠ uid) (long_term_memories m1)) in
  set_session_memories m2
    (sweep_sessions (λ memory, user_id memory ≠ uid) (session_memories m2)).

(** *** Long-term retrieval *)

(** [len(set(a) & set(b))] *)
Definition keyword_overlap (a b : list string) : nat :=
  size ((list_to_set a : gset string) ∩ list_to_set b).

(** [l.sort(key=similarity_score, reverse=True)]: descending, and
    entries with equal keys keep their order. *)
Definition key_of (memory : MemoryEntry) : float :=
  default 0%float (similarity_score memory).

Fixpoint insert_desc (x : MemoryEntry) (l : list MemoryEntry) : list MemoryEntry :=
  match l with
  | [] => [x]
  | y :: l' =>
      if (key_of x <? key_of y)%float then y :: insert_desc x l'
      else x :: y :: l'
  end.

Fixpoint sort_desc (l : list MemoryEntry) : list MemoryEntry :=
  match l with
  | [] => []
  | x :: l' => insert_desc x (sort_desc l')
  end.

(** [user_id and memory.get('user_id') != user_id]: the entry is skipped *)
Definition skips (uid : option string) (memory : MemoryEntry) : bool :=
  match uid with
  | Some (String c s) => negb (bool_decide (user_id memory = String c s))
  | _ => false
  end.

(** the loop body of [get_relevant_long_term_memories] for one entry *)
Definition match_memory (threshold : float) (uid : option string)
    (query_keywords : list string) (query_relevance : float)
    (memory : MemoryEntry) : option MemoryEntry :=
  if skips uid memory then None
  else
    let overlap := keyword_overlap query_keywords (keywords memory) in
    let relevance_similarity :=
      (1 - abs (query_relevance - relevance_score memory))%float in
    let similarity :=
      (float_of_nat overlap * 0.6 + relevance_similarity * 0.4)%float in
    if (threshold <=? similarity)%float
    then Some (with_similarity memory similarity)
    else None.

Definition get_relevant_long_term_memories (m : MemoryManager)
    (query : string) (uid : option string) (limit : Z)
  : result (list MemoryEntry) :=
  let query_keywords := _extract_keywords query in
  result_bind (_calculate_relevance_score query) (λ query_relevance,
    let relevant_memories :=
      omap (match_memory (relevance_threshold m) uid query_keywords
              query_relevance) (long_term_memories m) in
    Ok (slice_to (sort_desc relevant_memories) limit)).

(** *** Session context *)

(** [limit or self.max_context_window] *)
Definition limit_or_window (m : MemoryManager) (limit : option Z) : Z :=
  match limit with
  | None | Some 0%Z => Z.of_nat (max_context_window m)
  | Some l => l
  end.

(** [(score_a, timestamp_a) < (score_b, timestamp_b)] on the sort keys of
    [get_session_context]: the first components decide unless they are
    equal.  ISO timestamps of naive datetimes compare as the instants. *)
Definition context_key_lt (a b : MemoryEntry) : bool :=
  if (relevance_score a =? relevance_score b)%float
  then (timestamp a <? timestamp b)%Z
  else (relevance_score a <? relevance_score b)%float.

(** [sorted(memories, key=..., reverse=True)] *)
Fixpoint insert_context (x : MemoryEntry) (l : list MemoryEntry)
  : list MemoryEntry :=
  match l with
  | [] => [x]
  | y :: l' =>
      if context_key_lt x y then y :: insert_context x l'
      else x :: y :: l'
  end.

Fixpoint sort_context (l : list MemoryEntry) : list MemoryEntry :=
  match l with
  | [] => []
  | x :: l' => insert_context x (sort_context l')
  end.

Definition get_session_context (m : MemoryManager) (sid : string)
    (limit : option Z) : list MemoryEntry :=
  match session_memories m !! sid with
  | None => []
  | Some memories => slice_to (sort_context memories) (limit_or_window m limit)
  end.

End Memory.

(** ** The knowledge base ([advanced_knowledge_base.py])

    The embedding follows the fallback path, [self.embedding_model is None].

    In this module the scores are real numbers: [dot], [norm],
    [normalize], [_cosine_similarity], [_keyword_similarity],
    [_category_similarity] and the weighted sum are the source's
    formulas without rounding.  What is proved on them is about order,
    thresholds, lengths and the shape of the index, which rounding does
    not change, or it is marked as exact arithmetic.  The interpreter
    computes these formulas in binary64: [Binary64] below gives them on
    floats, and the values that the code returns are proved there. *)

Module Knowledge.

Record Document : Type := mkDocument {
  doc_id : string;
  doc_title : string;
  doc_content : string;
  doc_category : string;
  doc_source : string;
  doc_tags : list string;
  added_at : Z;
  word_count : nat;
  char_count : nat
}.

(** A chunk dictionary.  The chunkers set [content], [title],
    [chunk_type] and the fields of their strategy; [add_document] adds
    [id], [document_id] and [chunk_index].  A key that may be absent is
    an [option]. *)
Record Chunk : Type := mkChunk {
  chunk_content : string;
  chunk_title : string;
  chunk_type : string;
  sentence_count : option nat;
  paragraph_index : option nat;
  start_pos : option Z;
  end_pos : option Z;
  chunk_id : option string;
  chunk_document_id : option string;
  chunk_index : option nat;
  chunk_category : option string
}.

Record Metadata : Type := mkMetadata {
  num_chunks : nat;
  categories : list string;
  meta_tags : list string;
  processing_timestamp : Z
}.

Record Weights : Type := mkWeights {
  semantic : R;
  keyword : R;
  category : R
}.

Record KnowledgeBase : Type := mkKnowledgeBase {
  documents : list Document;
  chunks : list Chunk;
  embeddings : gmap string (list R);
  metadata : gmap string Metadata;
  embedding_dimension : nat;
  chunk_size : Z;
  chunk_overlap : Z;
  max_chunks_per_document : Z;
  relevance_threshold : R;
  similarity_weights : Weights
}.

Definition default_weights : Weights :=
  {| semantic := 0.7; keyword := 0.2; category := 0.1 |}.

(** The object as [__init__] leaves it when nothing is stored on disk. *)
Definition init : KnowledgeBase :=
  {| documents := [];
     chunks := [];
     embeddings := ∅;
     metadata := ∅;
     embedding_dimension := 384;
     chunk_size := 512;
     chunk_overlap := 50;
     max_chunks_per_document := 10;
     relevance_threshold := 0.6;
     similarity_weights := default_weights |}.

(** *** Chunking *)

Definition sentence_chunk (content title type : string) (count : nat) : Chunk :=
  mkChunk content title type (Some count) None None None None None None None.

Definition paragraph_chunk (content title : string) (para_idx : nat) : Chunk :=
  mkChunk content title "general_paragraph" None (Some para_idx) None None
    None None None None.

Definition window_chunk (content title : string) (start end_ : Z) : Chunk :=
  mkChunk content title "fixed_size" None None (Some start) (Some end_)
    None None None None.

(** [[s.strip() for s in re.split(r'[.!?]+', paragraph) if s.strip()]] *)
Definition sentences_of (paragraph : string) : list string :=
  filter (λ s, s ≠ EmptyString)
    (PyStr.strip <$> PyStr.re_split_terminal paragraph).

(** The sentence loop shared by [_chunk_medical_content] and
    [_split_long_paragraph]; they differ in the two type tags. *)
Definition sentence_step (size : Z) (title para_tag sent_tag : string)
    (st : list Chunk * string * nat) (sentence : string)
  : list Chunk * string * nat :=
  let '(acc, current_chunk, count) := st in
  if (size <? Z.of_nat (PyStr.len current_chunk) + Z.of_nat (PyStr.len sentence))%Z
  then
    match current_chunk with
    | EmptyString => (acc ++ [sentence_chunk sentence title sent_tag 1],
                      current_chunk, count)
    | _ => (acc ++ [sentence_chunk (PyStr.strip current_chunk) title para_tag count],
            sentence, 1)
    end
  else (acc, (current_chunk ++ " " ++ sentence)%string, count + 1).

Definition sentence_loop (size : Z) (title para_tag sent_tag : string)
    (sentences : list string) : list Chunk :=
  let '(acc, current_chunk, count) :=
    foldl (sentence_step size title para_tag sent_tag) ([], EmptyString, 0)
      sentences in
  match current_chunk with
  | EmptyString => acc
  | _ => acc ++ [sentence_chunk (PyStr.strip current_chunk) title para_tag count]
  end.

Definition _split_long_paragraph (size : Z) (paragraph title : string)
  : list Chunk :=
  sentence_loop size title "split_paragraph" "long_sentence"
    (sentences_of paragraph).

Definition _chunk_medical_content (size : Z) (content title : string)
  : list Chunk :=
  concat
    ((λ paragraph,
        match PyStr.strip paragraph with
        | EmptyString => []
        | _ => sentence_loop size title "medical_paragraph"
                 "medical_sentence" (sentences_of paragraph)
        end) <$> PyStr.split_paragraphs content).

Definition _chunk_general_content (size : Z) (content title : string)
  : list Chunk :=
  concat
    (imap (λ para_idx paragraph,
             match PyStr.strip paragraph with
             | EmptyString => []
             | _ =>
                 if (size <? Z.of_nat (PyStr.len paragraph))%Z
                 then _split_long_paragraph size paragraph title
                 else [paragraph_chunk (PyStr.strip paragraph) title para_idx]
             end)
       (PyStr.split_paragraphs content)).

(** [for i in range(end, stop, -1): if content[i] in '.!?': ...]: the
    first hit gives the new end; [n] indices remain to be visited. *)
Fixpoint scan_back (content : string) (i : Z) (n : nat) : result (option Z) :=
  match n with
  | O => Ok None
  | S n' =>
      result_bind (PyStr.index content i) (λ c,
        if PyStr.is_terminal c then Ok (Some (i + 1)%Z)
        else scan_back content (i - 1)%Z n')
  end.

(** the right edge of the window that starts at [start] *)
Definition window_end (size : Z) (content : string) (start : Z) : result Z :=
  let end_ := (start + size)%Z in
  if (end_ <? Z.of_nat (PyStr.len content))%Z then
    result_bind
      (scan_back content end_ (Z.to_nat (end_ - Z.max start (end_ - 100))))
      (λ hit, Ok (default end_ hit))
  else Ok end_.

(** The [while] loop of [_chunk_fixed_size], one iteration per unit of
    fuel; [None] when the fuel runs out before the loop exits. *)
Fixpoint fixed_size_loop (fuel : nat) (size overlap : Z)
    (content title : string) (start : Z) (acc : list Chunk)
  : option (result (list Chunk)) :=
  match fuel with
  | O => None
  | S fuel' =>
      if (start <? Z.of_nat (PyStr.len content))%Z then
        match window_end size content start with
        | Raise e => Some (Raise e)
        | Ok end_ =>
            let chunk_content := PyStr.strip (PyStr.slice content start end_) in
            let acc' := match chunk_content with
                        | EmptyString => acc
                        | _ => acc ++ [window_chunk chunk_content title start end_]
                        end in
            let start' := (end_ - overlap)%Z in
            if (Z.of_nat (PyStr.len content) <=? start')%Z then Some (Ok acc')
            else fixed_size_loop fuel' size overlap content title start' acc'
        end
      else Some (Ok acc)
  end.

Definition _chunk_fixed_size (fuel : nat) (size overlap : Z)
    (content title : string) : option (result (list Chunk)) :=
  fixed_size_loop fuel size overlap content title 0 [].

Definition _chunk_document (fuel : nat) (kb : KnowledgeBase) (document : Document)
  : option (result (list Chunk)) :=
  let content := doc_content document in
  let title := doc_title document in
  let cat := doc_category document in
  let chunked :=
    if PyStr.mem cat ["medical_condition"; "treatment"; "symptom"]
    then Some (Ok (_chunk_medical_content (chunk_size kb) content title))
    else if PyStr.mem cat ["general"; "wellness"; "prevention"]
    then Some (Ok (_chunk_general_content (chunk_size kb) content title))
    else _chunk_fixed_size fuel (chunk_size kb) (chunk_overlap kb) content title in
  match chunked with
  | Some (Ok cs) => Some (Ok (slice_to cs (max_chunks_per_document kb)))
  | other => other
  end.

(** *** Embedding and scoring *)

(** [word_freq[word] += 1] on a [defaultdict(int)], in insertion order *)
Fixpoint bump_freq (word : string) (freq : list (string * nat))
  : list (string * nat) :=
  match freq with
  | [] => [(word, 1)]
  | (w, n) :: freq' =>
      if bool_decide (w = word) then (w, S n) :: freq'
      else (w, n) :: bump_freq word freq'
  end.

Definition word_frequencies (words : list string) : list (string * nat) :=
  foldl (λ freq word,
           if (2 <? PyStr.len word)%nat then bump_freq word freq else freq)
    [] words.

Definition dot (u v : list R) : R :=
  foldr Rplus 0%R (zip_with Rmult u v).

Global Instance Rle_decision (x y : R) : Decision (x <= y)%R := Rle_dec x y.

(** [np.linalg.norm] of a vector *)
Definition norm (v : list R) : R := sqrt (dot v v).

Section Hashed.

(** the interpreter's [hash] on strings; one function for the life of
    a process *)
Variable hash : string -> Z.

(** [hashlib.md5(s.encode()).hexdigest()] *)
Variable md5_hexdigest : string -> string.

(** [vector[hash(word) % dimension] += freq] *)
Definition scatter (dimension : nat) (vector : list R) (item : string * nat)
  : result (list R) :=
  match dimension with
  | O => Raise ZeroDivisionError
  | S _ =>
      let hash_val := Z.to_nat (hash (fst item) mod Z.of_nat dimension) in
      Ok (alter (λ x, (x + INR (snd item))%R) hash_val vector)
  end.

Fixpoint scatter_all (dimension : nat) (vector : list R)
    (items : list (string * nat)) : result (list R) :=
  match items with
  | [] => Ok vector
  | item :: items' =>
      result_bind (scatter dimension vector item)
        (λ vector', scatter_all dimension vector' items')
  end.

Definition normalize (vector : list R) : list R :=
  if Rlt_dec 0 (norm vector) then (λ v, (v / norm vector)%R) <$> vector
  else vector.

Definition _simple_embedding (dimension : nat) (text : string)
  : result (list R) :=
  let words := PyStr.split (PyStr.lower text) in
  let word_freq := word_frequencies words in
  result_bind (scatter_all dimension (replicate dimension 0%R) word_freq)
    (λ vector, Ok (normalize vector)).

Definition _generate_chunk_embeddings (dimension : nat) (cs : list Chunk)
  : result (list (list R)) :=
  result_map (λ c, _simple_embedding dimension (chunk_content c)) cs.

(** [np.dot] raises on vectors of different lengths, and the handler
    of [_cosine_similarity] turns that into 0.0. *)
Definition _cosine_similarity (vec1 vec2 : list R) : R :=
  if bool_decide (length vec1 = length vec2) then
    if Req_dec_T (norm vec1) 0 then 0%R
    else if Req_dec_T (norm vec2) 0 then 0%R
    else (dot vec1 vec2 / (norm vec1 * norm vec2))%R
  else 0%R.

Definition stop_words : gset string :=
  list_to_set ["the"; "a"; "an"; "and"; "or"; "but"; "in"; "on"; "at";
               "to"; "for"; "of"; "with"; "by"].

Definition word_set (text : string) : gset string :=
  list_to_set (PyStr.split (PyStr.lower text)) ∖ stop_words.

Definition _keyword_similarity (query content : string) : R :=
  let query_words := word_set query in
  let content_words := word_set content in
  if bool_decide (query_words = ∅ ∨ content_words = ∅) then 0%R
  else (INR (size (query_words ∩ content_words))
        / INR (size (query_words ∪ content_words)))%R.

Definition category_terms : list (string * list string) :=
  [("medical_condition", ["condition"; "disease"; "illness"; "symptom"]);
   ("treatment", ["treatment"; "therapy"; "medication"; "cure"]);
   ("prevention", ["prevention"; "prevent"; "avoid"; "protection"]);
   ("wellness", ["wellness"; "health"; "fitness"; "lifestyle"])].

Fixpoint assoc (k : string) (table : list (string * list string))
  : option (list string) :=
  match table with
  | [] => None
  | (k', v) :: table' => if bool_decide (k' = k) then Some v else assoc k table'
  end.

Definition _category_similarity (query : string) (chunk : Chunk) : R :=
  let query_lower := PyStr.lower query in
  let chunk_category := PyStr.lower (default EmptyString (chunk_category chunk)) in
  match assoc chunk_category category_terms with
  | Some relevant_terms =>
      let matches :=
        length (filter (λ term, PyStr.contains term query_lower = true)
                  relevant_terms) in
      Rmin 1 (INR matches / INR (length relevant_terms))
  | None => 0%R
  end.

Record Similarity : Type := mkSimilarity {
  sim_chunk : Chunk;
  similarity_score : R;
  semantic_similarity : R;
  keyword_similarity : R;
  category_similarity : R
}.

(** [bool(category_filter)] *)
Definition supplied (category_filter : option string) : bool :=
  match category_filter with
  | Some (String _ _) => true
  | _ => false
  end.

(** [category_filter and chunk.get('category') != category_filter] *)
Definition penalized (category_filter : option string) (chunk : Chunk) : bool :=
  supplied category_filter
  && negb (bool_decide (chunk_category chunk = category_filter)).

(** the weighted sum, before the category filter is applied *)
Definition combined (w : Weights) (query : string) (query_embedding : list R)
    (chunk : Chunk) (chunk_embedding : list R) : R :=
  (_cosine_similarity query_embedding chunk_embedding * semantic w
   + _keyword_similarity query (chunk_content chunk) * keyword w
   + _category_similarity query chunk * category w)%R.

(** the loop body of [search_knowledge] for a chunk with an embedding *)
Definition score_chunk (w : Weights) (query : string)
    (query_embedding : list R) (category_filter : option string)
    (chunk : Chunk) (chunk_embedding : list R) : Similarity :=
  let combined_sim := combined w query query_embedding chunk chunk_embedding in
  {| sim_chunk := chunk;
     similarity_score :=
       if penalized category_filter chunk then (combined_sim * 0.5)%R
       else combined_sim;
     semantic_similarity := _cosine_similarity query_embedding chunk_embedding;
     keyword_similarity := _keyword_similarity query (chunk_content chunk);
     category_similarity := _category_similarity query chunk |}.

(** the loop of [search_knowledge]: [chunk['id']] raises [KeyError] on a
    chunk without an id; a chunk without an embedding is skipped *)
Fixpoint score_chunks (kb : KnowledgeBase) (query : string)
    (query_embedding : list R) (category_filter : option string)
    (cs : list Chunk) : result (list Similarity) :=
  match cs with
  | [] => Ok []
  | chunk :: cs' =>
      match chunk_id chunk with
      | None => Raise KeyError
      | Some id =>
          match embeddings kb !! id with
          | None =>
              score_chunks kb query query_embedding category_filter cs'
          | Some chunk_embedding =>
              result_bind
                (score_chunks kb query query_embedding category_filter cs')
                (λ rest,
                   Ok (score_chunk (similarity_weights kb) query
                         query_embedding category_filter chunk
                         chunk_embedding :: rest))
          end
      end
  end.

(** [similarities.sort(key=similarity_score, reverse=True)] *)
Fixpoint insert_desc (x : Similarity) (l : list Similarity) : list Similarity :=
  match l with
  | [] => [x]
  | y :: l' =>
      if Rlt_dec (similarity_score x) (similarity_score y)
      then y :: insert_desc x l'
      else x :: y :: l'
  end.

Fixpoint sort_desc (l : list Similarity) : list Similarity :=
  match l with
  | [] => []
  | x :: l' => insert_desc x (sort_desc l')
  end.

Record SearchResult : Type := mkSearchResult {
  res_content : string;
  res_title : string;
  res_category : string;
  res_chunk_type : string;
  relevance_score : R;
  semantic_score : R;
  keyword_score : R;
  category_score : R;
  res_document_id : option string;
  res_chunk_id : option string
}.

Definition format_result (result : Similarity) : SearchResult :=
  let chunk := sim_chunk result in
  {| res_content := chunk_content chunk;
     res_title := chunk_title chunk;
     res_category := default "general" (chunk_category chunk);
     res_chunk_type := chunk_type chunk;
     relevance_score := similarity_score result;
     semantic_score := semantic_similarity result;
     keyword_score := keyword_similarity result;
     category_score := category_similarity result;
     res_document_id := chunk_document_id chunk;
     res_chunk_id := chunk_id chunk |}.

(** [search_knowledge] reads the object and leaves it as it was; the
    object is returned next to the results. *)
Definition search_knowledge (query : string) (limit : Z)
    (category_filter : option string) (kb : KnowledgeBase)
  : result (list SearchResult) * KnowledgeBase :=
  (result_bind (_simple_embedding (embedding_dimension kb) query)
     (λ query_embedding,
        result_bind
          (score_chunks kb query query_embedding category_filter (chunks kb))
          (λ similarities,
             let relevant_results :=
               filter (λ r, (relevance_threshold kb <= similarity_score r)%R)
                 (sort_desc similarities) in
             Ok (format_result <$> slice_to relevant_results limit))),
   kb).

(** *** Ingest *)

Definition _generate_document_id (title content : string) : string :=
  PyStr.take 12 (md5_hexdigest (title ++ ":" ++ PyStr.take 100 content)%string).

(** the loop of [add_document] that stores chunk [i] and its embedding *)
Definition store_chunk (document_id : string) (i : nat) (chunk : Chunk) : Chunk :=
  mkChunk (chunk_content chunk) (chunk_title chunk) (chunk_type chunk)
    (sentence_count chunk) (paragraph_index chunk) (start_pos chunk)
    (end_pos chunk)
    (Some (document_id ++ "_chunk_" ++ PyStr.of_nat i)%string)
    (Some document_id) (Some i) (chunk_category chunk).

(** [self.embeddings[chunk_id] = chunk_embeddings[i]] for [i], [i+1], ... *)
Fixpoint store_embeddings (document_id : string) (i : nat)
    (chunk_embeddings : list (list R)) (embs : gmap string (list R))
  : gmap string (list R) :=
  match chunk_embeddings with
  | [] => embs
  | e :: rest =>
      store_embeddings document_id (S i) rest
        (<[(document_id ++ "_chunk_" ++ PyStr.of_nat i)%string := e]> embs)
  end.

(** the document dictionary built at the top of [add_document] *)
Definition make_document (title content cat source : string)
    (tags : option (list string)) (now_added : Z) : Document :=
  {| doc_id := _generate_document_id title content;
     doc_title := title;
     doc_content := content;
     doc_category := cat;
     doc_source := source;
     doc_tags := default [] tags;
     added_at := now_added;
     word_count := length (PyStr.split content);
     char_count := PyStr.len content |}.

(** [self.documents.append(document)] *)
Definition with_document (kb : KnowledgeBase) (document : Document)
  : KnowledgeBase :=
  mkKnowledgeBase (documents kb ++ [document]) (chunks kb) (embeddings kb)
    (metadata kb) (embedding_dimension kb) (chunk_size kb)
    (chunk_overlap kb) (max_chunks_per_document kb)
    (relevance_threshold kb) (similarity_weights kb).

(** [add_document]; [now_added] and [now_processed] are the two
    readings of [datetime.now()].  [None]: the chunker did not finish
    within [fuel] iterations. *)
Definition add_document (fuel : nat) (title content cat source : string)
    (tags : option (list string)) (now_added now_processed : Z)
    (kb : KnowledgeBase) : option (result string * KnowledgeBase) :=
  let document := make_document title content cat source tags now_added in
  let document_id := doc_id document in
  let kb1 := with_document kb document in
  match _chunk_document fuel kb1 document with
  | None => None
  | Some (Raise e) => Some (Raise e, kb1)
  | Some (Ok cs) =>
      match _generate_chunk_embeddings (embedding_dimension kb1) cs with
      | Raise e => Some (Raise e, kb1)
      | Ok chunk_embeddings =>
          Some (Ok document_id,
                mkKnowledgeBase (documents kb1)
                  (chunks kb1 ++ imap (store_chunk document_id) cs)
                  (store_embeddings document_id 0 chunk_embeddings
                     (embeddings kb1))
                  (<[document_id :=
                       mkMetadata (length cs) [cat] (default [] tags)
                         now_processed]> (metadata kb1))
                  (embedding_dimension kb1) (chunk_size kb1)
                  (chunk_overlap kb1) (max_chunks_per_document kb1)
                  (relevance_threshold kb1) (similarity_weights kb1))
      end
  end.

End Hashed.

End Knowledge.

(** ** The retrieval layer ([advanced_rag_system.py])

    The methods of [AdvancedRAGSystem] that call into the two stores. *)

Module Rag.

(** [_retrieve_memories]: the session context, then for a named user the
    long-term matches; any exception gives the empty list. *)
Definition _retrieve_memories (m : Memory.MemoryManager) (query sid : string)
    (uid : option string) : list Memory.MemoryEntry :=
  let session_memories := Memory.get_session_context m sid (Some 5%Z) in
  if Memory.truthy uid then
    match Memory.get_relevant_long_term_memories m query uid 3 with
    | Ok long_term_memories => session_memories ++ long_term_memories
    | Raise _ => []
    end
  else session_memories.

(** [_store_conversation_memory]: [add_session_memory] inside
    [try ... except Exception], which logs and goes on. *)
Definition _store_conversation_memory (clock : nat -> Z)
    (sid user_message response : string) (uid : option string)
  : Memory.M unit :=
  λ w, (Ok tt,
        snd (Memory.add_session_memory clock sid user_message response None
               uid w)).

Definition _get_category_terms (cat : string) : list string :=
  default []
    (Knowledge.assoc cat
       [("medical_condition",
         ["condition"; "disease"; "illness"; "symptom"; "diagnosis"]);
        ("treatment", ["treatment"; "therapy"; "medication"; "cure"; "remedy"]);
        ("prevention",
         ["prevention"; "prevent"; "avoid"; "protection"; "screening"]);
        ("wellness", ["wellness"; "health"; "fitness"; "lifestyle"; "nutrition"])]).

Section Hashed.

(** the interpreter's [hash] on strings *)
Variable hash : string -> Z.

(** the loop of [_deduplicate_results]; [seen] is [seen_contents] *)
Fixpoint deduplicate_from (seen : gset Z) (results : list Knowledge.SearchResult)
  : list Knowledge.SearchResult :=
  match results with
  | [] => []
  | r :: rest =>
      let content_hash := hash (Knowledge.res_content r) in
      if decide (content_hash ∈ seen) then deduplicate_from seen rest
      else r :: deduplicate_from ({[content_hash]} ∪ seen) rest
  end.

Definition _deduplicate_results (results : list Knowledge.SearchResult)
  : list Knowledge.SearchResult :=
  deduplicate_from ∅ results.

(** [unique_results.sort(key=relevance_score, reverse=True)] *)
Fixpoint insert_result (x : Knowledge.SearchResult)
    (l : list Knowledge.SearchResult) : list Knowledge.SearchResult :=
  match l with
  | [] => [x]
  | y :: l' =>
      if Rlt_dec (Knowledge.relevance_score x) (Knowledge.relevance_score y)
      then y :: insert_result x l'
      else x :: y :: l'
  end.

Fixpoint sort_results (l : list Knowledge.SearchResult)
  : list Knowledge.SearchResult :=
  match l with
  | [] => []
  | x :: l' => insert_result x (sort_results l')
  end.

(** the category-specific passes of [_retrieve_knowledge] over the given
    categories, appended to [results] *)
Fixpoint category_passes (kb : Knowledge.KnowledgeBase) (query : string)
    (cats : list string) (results : list Knowledge.SearchResult)
  : result (list Knowledge.SearchResult) :=
  match cats with
  | [] => Ok results
  | cat :: cats' =>
      if existsb (λ term, PyStr.contains term (PyStr.lower query))
           (_get_category_terms cat)
      then
        result_bind
          (fst (Knowledge.search_knowledge hash query 2 (Some cat) kb))
          (λ category_results,
             category_passes kb query cats' (results ++ category_results))
      else category_passes kb query cats' results
  end.

(** [_retrieve_knowledge]; any exception gives the empty list. *)
Definition _retrieve_knowledge (kb : Knowledge.KnowledgeBase) (query : string)
  : list Knowledge.SearchResult :=
  match
    result_bind (fst (Knowledge.search_knowledge hash query 3 None kb))
      (λ direct_results,
         category_passes kb query
           ["medical_condition"; "treatment"; "prevention"; "wellness"]
           direct_results)
  with
  | Ok results => slice_to (sort_results (_deduplicate_results results)) 5
  | Raise _ => []
  end.

End Hashed.

End Rag.

(** ** The scores as binary64 numbers

    [Knowledge] reads the arithmetic of the scorer over the reals: the
    statements proved there are about order, thresholds, lengths and
    the shape of the index.  The values themselves are binary64: this
    module gives the same functions on floats, operation by operation
    as the source writes them.  [np.dot] is the sum of the products
    taken from the first index up, and [np.linalg.norm] the square root
    of the dot product of the vector with itself; numpy fixes no
    summation order; the theorems on this module evaluate it on vectors
    with at most two non-zero components, where the sum of the products
    is one rounded addition of two products (adding zero is exact). *)

Module Binary64.
Import Knowledge.

Local Open Scope float_scope.

Record Weights : Type := mkWeights {
  semantic : float;
  keyword : float;
  category : float
}.

Record KnowledgeBase : Type := mkKnowledgeBase {
  documents : list Document;
  chunks : list Chunk;
  embeddings : gmap string (list float);
  metadata : gmap string Metadata;
  embedding_dimension : nat;
  chunk_size : Z;
  chunk_overlap : Z;
  max_chunks_per_document : Z;
  relevance_threshold : float;
  similarity_weights : Weights
}.

Definition default_weights : Weights :=
  {| semantic := 0.7; keyword := 0.2; category := 0.1 |}.

Definition init : KnowledgeBase :=
  {| documents := [];
     chunks := [];
     embeddings := ∅;
     metadata := ∅;
     embedding_dimension := 384;
     chunk_size := 512;
     chunk_overlap := 50;
     max_chunks_per_document := 10;
     relevance_threshold := 0.6;
     similarity_weights := default_weights |}.

(** [_chunk_document], on the configuration of this object *)
Definition _chunk_document (fuel : nat) (kb : KnowledgeBase) (document : Document)
  : option (result (list Chunk)) :=
  let content := doc_content document in
  let title := doc_title document in
  let cat := doc_category document in
  let chunked :=
    if PyStr.mem cat ["medical_condition"; "treatment"; "symptom"]
    then Some (Ok (_chunk_medical_content (chunk_size kb) content title))
    else if PyStr.mem cat ["general"; "wellness"; "prevention"]
    then Some (Ok (_chunk_general_content (chunk_size kb) content title))
    else _chunk_fixed_size fuel (chunk_size kb) (chunk_overlap kb) content title in
  match chunked with
  | Some (Ok cs) => Some (Ok (slice_to cs (max_chunks_per_document kb)))
  | other => other
  end.

(** [np.dot(u, v)] *)
Definition dot (u v : list float) : float :=
  foldl (λ acc p, acc + p) 0 (zip_with PrimFloat.mul u v).

(** [np.linalg.norm(v)] *)
Definition norm (v : list float) : float := PrimFloat.sqrt (dot v v).

Section Hashed.

(** the interpreter's [hash] on strings: one function for the life of a
    process, another one in the next process *)
Variable hash : string -> Z.

Variable md5_hexdigest : string -> string.

(** [vector[hash(word) % dimension] += freq] *)
Definition scatter (dimension : nat) (vector : list float) (item : string * nat)
  : result (list float) :=
  match dimension with
  | O => Raise ZeroDivisionError
  | S _ =>
      let hash_val := Z.to_nat (hash (fst item) mod Z.of_nat dimension) in
      Ok (alter (λ x, x + Memory.float_of_nat (snd item)) hash_val vector)
  end.

Fixpoint scatter_all (dimension : nat) (vector : list float)
    (items : list (string * nat)) : result (list float) :=
  match items with
  | [] => Ok vector
  | item :: items' =>
      result_bind (scatter dimension vector item)
        (λ vector', scatter_all dimension vector' items')
  end.

(** [if norm > 0: vector = [v / norm for v in vector]] *)
Definition normalize (vector : list float) : list float :=
  if 0 <? norm vector then (λ v, v / norm vector) <$> vector else vector.

Definition _simple_embedding (dimension : nat) (text : string)
  : result (list float) :=
  let words := PyStr.split (PyStr.lower text) in
  let word_freq := word_frequencies words in
  result_bind (scatter_all dimension (replicate dimension 0) word_freq)
    (λ vector, Ok (normalize vector)).

Definition _generate_chunk_embeddings (dimension : nat) (cs : list Chunk)
  : result (list (list float)) :=
  result_map (λ c, _simple_embedding dimension (chunk_content c)) cs.

(** [np.dot] raises on vectors of different lengths, and the handler
    of [_cosine_similarity] turns that into 0.0. *)
Definition _cosine_similarity (vec1 vec2 : list float) : float :=
  if bool_decide (length vec1 = length vec2) then
    let dot_product := dot vec1 vec2 in
    let norm1 := norm vec1 in
    let norm2 := norm vec2 in
    if (norm1 =? 0) || (norm2 =? 0) then 0
    else dot_product / (norm1 * norm2)
  else 0.

(** [len(intersection) / len(union)] is the quotient of two integers,
    correctly rounded *)
Definition _keyword_similarity (query content : string) : float :=
  let query_words := word_set query in
  let content_words := word_set content in
  if bool_decide (query_words = ∅ ∨ content_words = ∅) then 0
  else Memory.float_of_nat (size (query_words ∩ content_words))
       / Memory.float_of_nat (size (query_words ∪ content_words)).

Definition _category_similarity (query : string) (chunk : Chunk) : float :=
  let query_lower := PyStr.lower query in
  let chunk_category := PyStr.lower (default EmptyString (chunk_category chunk)) in
  match assoc chunk_category category_terms with
  | Some relevant_terms =>
      let matches :=
        length (filter (λ term, PyStr.contains term query_lower = true)
                  relevant_terms) in
      Memory.py_min 1
        (Memory.float_of_nat matches / Memory.float_of_nat (length relevant_terms))
  | None => 0
  end.

Record Similarity : Type := mkSimilarity {
  sim_chunk : Chunk;
  similarity_score : float;
  semantic_similarity : float;
  keyword_similarity : float;
  category_similarity : float
}.

(** the loop body of [search_knowledge] for a chunk with an embedding *)
Definition score_chunk (w : Weights) (query : string)
    (query_embedding : list float) (category_filter : option string)
    (chunk : Chunk) (chunk_embedding : list float) : Similarity :=
  let semantic_sim := _cosine_similarity query_embedding chunk_embedding in
  let keyword_sim := _keyword_similarity query (chunk_content chunk) in
  let category_sim := _category_similarity query chunk in
  let combined_sim :=
    semantic_sim * semantic w + keyword_sim * keyword w
    + category_sim * category w in
  {| sim_chunk := chunk;
     similarity_score :=
       if penalized category_filter chunk then combined_sim * 0.5
       else combined_sim;
     semantic_similarity := semantic_sim;
     keyword_similarity := keyword_sim;
     category_similarity := category_sim |}.

Fixpoint score_chunks (kb : KnowledgeBase) (query : string)
    (query_embedding : list float) (category_filter : option string)
    (cs : list Chunk) : result (list Similarity) :=
  match cs with
  | [] => Ok []
  | chunk :: cs' =>
      match chunk_id chunk with
      | None => Raise KeyError
      | Some id =>
          match embeddings kb !! id with
          | None =>
              score_chunks kb query query_embedding category_filter cs'
          | Some chunk_embedding =>
              result_bind
                (score_chunks kb query query_embedding category_filter cs')
                (λ rest,
                   Ok (score_chunk (similarity_weights kb) query
                         query_embedding category_filter chunk
                         chunk_embedding :: rest))
          end
      end
  end.

(** [similarities.sort(key=similarity_score, reverse=True)], for scores
    that are numbers *)
Fixpoint insert_desc (x : Similarity) (l : list Similarity) : list Similarity :=
  match l with
  | [] => [x]
  | y :: l' =>
      if similarity_score x <? similarity_score y
      then y :: insert_desc x l'
      else x :: y :: l'
  end.

Fixpoint sort_desc (l : list Similarity) : list Similarity :=
  match l with
  | [] => []
  | x :: l' => insert_desc x (sort_desc l')
  end.

Record SearchResult : Type := mkSearchResult {
  res_content : string;
  res_title : string;
  res_category : string;
  res_chunk_type : string;
  relevance_score : float;
  semantic_score : float;
  keyword_score : float;
  category_score : float;
  res_document_id : option string;
  res_chunk_id : option string
}.

Definition format_result (result : Similarity) : SearchResult :=
  let chunk := sim_chunk result in
  {| res_content := chunk_content chunk;
     res_title := chunk_title chunk;
     res_category := default "general"%string (chunk_category chunk);
     res_chunk_type := chunk_type chunk;
     relevance_score := similarity_score result;
     semantic_score := semantic_similarity result;
     keyword_score := keyword_similarity result;
     category_score := category_similarity result;
     res_document_id := chunk_document_id chunk;
     res_chunk_id := chunk_id chunk |}.

Definition search_knowledge (query : string) (limit : Z)
    (category_filter : option string) (kb : KnowledgeBase)
  : result (list SearchResult) * KnowledgeBase :=
  (result_bind (_simple_embedding (embedding_dimension kb) query)
     (λ query_embedding,
        result_bind
          (score_chunks kb query query_embedding category_filter (chunks kb))
          (λ similarities,
             let relevant_results :=
               filter (λ r, (relevance_threshold kb <=? similarity_score r) = true)
                 (sort_desc similarities) in
             Ok (format_result <$> slice_to relevant_results limit))),
   kb).

(** [self.embeddings[chunk_id] = chunk_embeddings[i]] for [i], [i+1], ... *)
Fixpoint store_embeddings (document_id : string) (i : nat)
    (chunk_embeddings : list (list float)) (embs : gmap string (list float))
  : gmap string (list float) :=
  match chunk_embeddings with
  | [] => embs
  | e :: rest =>
      store_embeddings document_id (S i) rest
        (<[(document_id ++ "_chunk_" ++ PyStr.of_nat i)%string := e]> embs)
  end.

Definition with_document (kb : KnowledgeBase) (document : Document)
  : KnowledgeBase :=
  mkKnowledgeBase (documents kb ++ [document]) (chunks kb) (embeddings kb)
    (metadata kb) (embedding_dimension kb) (chunk_size kb)
    (chunk_overlap kb) (max_chunks_per_document kb)
    (relevance_threshold kb) (similarity_weights kb).

Definition add_document (fuel : nat) (title content cat source : string)
    (tags : option (list string)) (now_added now_processed : Z)
    (kb : KnowledgeBase) : option (result string * KnowledgeBase) :=
  let document := make_document md5_hexdigest title content cat source tags
                    now_added in
  let document_id := doc_id document in
  let kb1 := with_document kb document in
  match _chunk_document fuel kb1 document with
  | None => None
  | Some (Raise e) => Some (Raise e, kb1)
  | Some (Ok cs) =>
      match _generate_chunk_embeddings (embedding_dimension kb1) cs with
      | Raise e => Some (Raise e, kb1)
      | Ok chunk_embeddings =>
          Some (Ok document_id,
                mkKnowledgeBase (documents kb1)
                  (chunks kb1 ++ imap (store_chunk document_id) cs)
                  (store_embeddings document_id 0 chunk_embeddings
                     (embeddings kb1))
                  (<[document_id :=
                       mkMetadata (length cs) [cat] (default [] tags)
                         now_processed]> (metadata kb1))
                  (embedding_dimension kb1) (chunk_size kb1)
                  (chunk_overlap kb1) (max_chunks_per_document kb1)
                  (relevance_threshold kb1) (similarity_weights kb1))
      end
  end.

End Hashed.

End Binary64.

(** * Properties *)

Example split_example :
  PyStr.split (PyStr.lower "I have a  mild Headache ") =
  ["i"; "have"; "a"; "mild"; "headache"].
Proof. reflexivity. Qed.

Example strip_example : PyStr.strip "  a b. " = "a b."%string.
Proof. reflexivity. Qed.

Example re_split_example :
  PyStr.re_split_terminal "Rest well. Drink!? ok." =
  ["Rest well"; " Drink"; " ok"; ""].
Proof. reflexivity. Qed.

Example slice_example : PyStr.slice "abcdef" 2 100 = "cdef"%string.
Proof. reflexivity. Qed.

Lemma slice_to_Forall {A} (P : A -> Prop) (l : list A) (limit : Z) :
  Forall P l -> Forall P (slice_to l limit).
Proof.
  intros Hl. unfold slice_to. destruct (limit <? 0)%Z; now apply Forall_take.
Qed.

(** ** The memory manager *)

Module MemoryFacts.
Import Memory.

Ltac project :=
  cbn [mgr ticks fst snd session_memories long_term_memories user_profiles
       conversation_contexts max_context_window memory_retention_days
       relevance_threshold] in *.

Ltac unfold_setters :=
  unfold set_session_memories, set_long_term_memories, set_user_profiles,
    set_conversation_contexts in *; project.

(** *** One call of [add_session_memory], in closed form *)

Section OneCall.

Variable clock : nat -> Z.
Variables (sid msg resp : string).
Variables (ctx : option (gmap string string)) (uid : option string).
Variable w : World.
Variable score : float.

Local Abbreviation m := (mgr w).
Local Abbreviation t0 := (ticks w).

Definition entry : MemoryEntry :=
  make_entry sid msg resp ctx uid (clock t0) score.

Definition sessions_appended : gmap string (list MemoryEntry) :=
  <[sid := default [] (session_memories m !! sid) ++ [entry]]>
    (session_memories m).

(** the profiles after the profile step, and the clock index after it *)
Definition profiles_step : gmap string UserProfile * nat :=
  if truthy uid then
    match user_profiles m !! or_anonymous uid with
    | Some p =>
        (<[or_anonymous uid := record_turn p entry]> (user_profiles m), S t0)
    | None =>
        (<[or_anonymous uid :=
             record_turn (_create_default_profile (clock (S t0))) entry]>
           (user_profiles m), S (S t0))
    end
  else (user_profiles m, S t0).

(** the long-term list after the promotion step, and the clock index *)
Definition promotion_step : list MemoryEntry * nat :=
  let t := snd profiles_step in
  if _should_promote_to_long_term entry
  then (long_term_memories m ++ [promoted_copy entry (clock t)], S t)
  else (long_term_memories m, t).

Definition cutoff : Z :=
  (clock (snd promotion_step) - timedelta_days (memory_retention_days m))%Z.

Definition world_after : World :=
  {| mgr :=
       {| session_memories := sweep_sessions (newer_than cutoff) sessions_appended;
          long_term_memories := filter (newer_than cutoff) (fst promotion_step);
          user_profiles := fst profiles_step;
          conversation_contexts :=
            conversation_contexts
              (mgr (snd (_update_conversation_context sid entry w)));
          max_context_window := max_context_window m;
          memory_retention_days := memory_retention_days m;
          relevance_threshold := relevance_threshold m |};
     ticks := S (snd promotion_step) |}.

Lemma add_session_memory_ok :
  _calculate_relevance_score msg = Ok score ->
  add_session_memory clock sid msg resp ctx uid w = (Ok tt, world_after).
Proof.
  intros Hscore.
  unfold add_session_memory, bind, lift, datetime_now. rewrite Hscore.
  unfold world_after, cutoff, promotion_step, profiles_step.
  fold entry.
  unfold when, _update_user_profile, _promote_to_long_term,
    _cleanup_old_memories, _update_conversation_context,
    bind, modify, get, ret, datetime_now.
  unfold_setters.
  destruct (truthy uid); project.
  - destruct (user_profiles (mgr w) !! or_anonymous uid) eqn:Hp; project;
      destruct (_should_promote_to_long_term entry); reflexivity.
  - destruct (_should_promote_to_long_term entry); reflexivity.
Qed.

Lemma add_session_memory_raises e :
  _calculate_relevance_score msg = Raise e ->
  add_session_memory clock sid msg resp ctx uid w
  = (Raise e, mkWorld (mgr w) (S (ticks w))).
Proof.
  intros Hscore.
  unfold add_session_memory, bind, lift, datetime_now. now rewrite Hscore.
Qed.

End OneCall.

(** *** Promotion *)

(** the priority set, as the specification lists it *)
Definition priority_set : list string :=
  ["emergency"; "symptom"; "treatment"; "medication"; "diagnosis"].

(** "relevance_score exceeds 0.8 or the keywords intersect the priority
    set" *)
Definition promotable (score : float) (kws : list string) : Prop :=
  (0.8 <? score)%float = true \/ exists k, k ∈ kws /\ k ∈ priority_set.

Lemma should_promote_iff (e : MemoryEntry) :
  _should_promote_to_long_term e = true
  <-> promotable (relevance_score e) (keywords e).
Proof.
  unfold _should_promote_to_long_term, promotable.
  rewrite orb_true_iff, existsb_exists.
  split.
  - intros [H | (k & Hin & Hk)]; [now left | right].
    exists k. split; [now apply list_elem_of_In |].
    unfold PyStr.mem in Hk. now apply bool_decide_eq_true in Hk.
  - intros [H | (k & Hin & Hk)]; [now left | right].
    exists k. split; [now apply list_elem_of_In |].
    unfold PyStr.mem. now apply bool_decide_eq_true.
Qed.

Lemma should_promote_make_entry sid msg resp ctx uid ts score :
  _should_promote_to_long_term (make_entry sid msg resp ctx uid ts score) = true
  <-> promotable score (_extract_keywords msg).
Proof. apply should_promote_iff. Qed.

(** the long-term store after a call that returns, by the gate *)
Lemma long_term_after clock sid msg resp ctx uid w score :
  let e := entry clock sid msg resp ctx uid w score in
  let c := cutoff clock sid msg resp ctx uid w score in
  let t := snd (profiles_step clock sid msg resp ctx uid w score) in
  (promotable score (_extract_keywords msg) ->
   long_term_memories (mgr (world_after clock sid msg resp ctx uid w score))
   = filter (newer_than c)
       (long_term_memories (mgr w) ++ [promoted_copy e (clock t)]))
  /\ (~ promotable score (_extract_keywords msg) ->
      long_term_memories (mgr (world_after clock sid msg resp ctx uid w score))
      = filter (newer_than c) (long_term_memories (mgr w))).
Proof.
  intros e c t. unfold world_after; project.
  unfold promotion_step. fold e. fold c.
  pose proof (should_promote_make_entry sid msg resp ctx uid
                (clock (ticks w)) score) as Hgate.
  fold (entry clock sid msg resp ctx uid w score) in Hgate. fold e in Hgate.
  destruct (_should_promote_to_long_term e); project; split; intros Hp.
  - reflexivity.
  - exfalso. apply Hp, Hgate. reflexivity.
  - apply Hgate in Hp. discriminate.
  - reflexivity.
Qed.

Example headache_score :
  _calculate_relevance_score "I have a mild headache" = Ok 0.5%float
  /\ _extract_keywords "I have a mild headache" = ["have"; "mild"; "headache"].
Proof. split; reflexivity. Qed.

Example diagnosis_score :
  _calculate_relevance_score "I need information about my diagnosis"
  = Ok 0.12%float
  /\ _extract_keywords "I need information about my diagnosis"
    = ["need"; "information"; "about"; "diagnosis"].
Proof. split; reflexivity. Qed.

(** C1. A turn is copied to the long-term store exactly when its
    relevance score exceeds 0.8 or one of its keywords is in the priority
    set: after a call that returns, the long-term store is the retention
    sweep of the old store extended by the promoted copy in that case,
    and the retention sweep of the old store alone otherwise (a call
    whose message has no token raises before anything is stored).  For
    "I have a mild headache" (score 0.5, no priority keyword) no copy is
    appended; for "I need information about my diagnosis" (score 0.12) a
    copy is appended although the score is below 0.8. *)
Theorem promotion_gate :
  (forall clock sid msg resp ctx uid w,
      match _calculate_relevance_score msg with
      | Ok score =>
          let e := entry clock sid msg resp ctx uid w score in
          let c := cutoff clock sid msg resp ctx uid w score in
          let t := snd (profiles_step clock sid msg resp ctx uid w score) in
          exists w',
            add_session_memory clock sid msg resp ctx uid w = (Ok tt, w')
            /\ (promotable score (_extract_keywords msg) ->
                long_term_memories (mgr w')
                = filter (newer_than c)
                    (long_term_memories (mgr w) ++ [promoted_copy e (clock t)]))
            /\ (~ promotable score (_extract_keywords msg) ->
                long_term_memories (mgr w')
                = filter (newer_than c) (long_term_memories (mgr w)))
      | Raise x =>
          add_session_memory clock sid msg resp ctx uid w
          = (Raise x, mkWorld (mgr w) (S (ticks w)))
      end)
  /\ (forall clock sid resp ctx uid w,
        let msg := "I have a mild headache"%string in
        let c := cutoff clock sid msg resp ctx uid w 0.5 in
        exists w',
          add_session_memory clock sid msg resp ctx uid w = (Ok tt, w')
          /\ long_term_memories (mgr w')
            = filter (newer_than c) (long_term_memories (mgr w)))
  /\ (forall clock sid resp ctx uid w,
        let msg := "I need information about my diagnosis"%string in
        let e := entry clock sid msg resp ctx uid w 0.12 in
        let c := cutoff clock sid msg resp ctx uid w 0.12 in
        let t := snd (profiles_step clock sid msg resp ctx uid w 0.12) in
        (0.8 <? relevance_score e)%float = false
        /\ exists w',
          add_session_memory clock sid msg resp ctx uid w = (Ok tt, w')
          /\ long_term_memories (mgr w')
            = filter (newer_than c)
                (long_term_memories (mgr w) ++ [promoted_copy e (clock t)])).
Proof.
  split; [| split].
  - intros clock sid msg resp ctx uid w.
    destruct (_calculate_relevance_score msg) as [score | x] eqn:Hscore.
    + intros e c t.
      exists (world_after clock sid msg resp ctx uid w score).
      split; [now apply add_session_memory_ok |].
      apply long_term_after.
    + now apply add_session_memory_raises.
  - intros clock sid resp ctx uid w msg c.
    exists (world_after clock sid msg resp ctx uid w 0.5).
    split; [apply add_session_memory_ok; reflexivity |].
    apply long_term_after.
    intros [H | (k & Hin & Hk)]; [discriminate H |].
    change (_extract_keywords msg) with ["have"; "mild"; "headache"] in Hin.
    unfold priority_set in Hk.
    apply list_elem_of_In in Hin. apply list_elem_of_In in Hk.
    destruct Hin as [<- | [<- | [<- | []]]];
      destruct Hk as [? | [? | [? | [? | [? | []]]]]]; discriminate.
  - intros clock sid resp ctx uid w msg e c t.
    split; [reflexivity |].
    exists (world_after clock sid msg resp ctx uid w 0.12).
    split; [apply add_session_memory_ok; reflexivity |].
    apply long_term_after.
    right. exists "diagnosis"%string.
    change (_extract_keywords msg)
      with ["need"; "information"; "about"; "diagnosis"].
    unfold priority_set. set_solver.
Qed.

Example headache_stays_in_session :
  let w := snd (add_session_memory (λ n, Z.of_nat n) "s1"
                  "I have a mild headache" "ok" None (Some "alice")
                  (mkWorld init 0)) in
  long_term_memories (mgr w) = []
  /\ length (default [] (session_memories (mgr w) !! "s1"%string)) = 1%nat.
Proof. vm_compute. split; reflexivity. Qed.

Example diagnosis_is_promoted :
  let w := snd (add_session_memory (λ n, Z.of_nat n) "s1"
                  "I need information about my diagnosis" "ok" None
                  (Some "alice") (mkWorld init 0)) in
  (memory_type <$> long_term_memories (mgr w)) = [LongTerm]
  /\ (user_message <$> long_term_memories (mgr w))
    = ["I need information about my diagnosis"%string]
  /\ length (default [] (session_memories (mgr w) !! "s1"%string)) = 1%nat.
Proof. vm_compute. repeat split. Qed.

(** *** Messages without a token *)

Lemma no_token_raises (text : string) :
  PyStr.split (PyStr.lower text) = [] ->
  _calculate_relevance_score text = Raise ZeroDivisionError.
Proof. unfold _calculate_relevance_score. now intros ->. Qed.

Lemma score_raises_inv (text : string) (x : exn) :
  _calculate_relevance_score text = Raise x ->
  x = ZeroDivisionError /\ PyStr.split (PyStr.lower text) = [].
Proof.
  unfold _calculate_relevance_score.
  destruct (PyStr.split (PyStr.lower text)) as [| word words]; cbn [length].
  - intros [= <-]. now split.
  - discriminate.
Qed.

Lemma token_scores (text : string) :
  PyStr.split (PyStr.lower text) <> [] ->
  exists score, _calculate_relevance_score text = Ok score.
Proof.
  unfold _calculate_relevance_score.
  destruct (PyStr.split (PyStr.lower text)) as [| word words]; cbn [length].
  - now intros [].
  - intros _. eexists. reflexivity.
Qed.

(** C2. The specification requires [add_session_memory] to return
    normally on an empty or white-space-only message and
    [get_relevant_long_term_memories] to return a list on an empty query.
    The code divides by [len(words)]: on the empty message, on a message
    of blanks and on the empty query both methods raise
    [ZeroDivisionError]. *)
Theorem empty_input_raises :
  (forall clock sid resp ctx uid w,
      add_session_memory clock sid "" resp ctx uid w
      = (Raise ZeroDivisionError, mkWorld (mgr w) (S (ticks w))))
  /\ (forall clock sid resp ctx uid w,
        add_session_memory clock sid "   " resp ctx uid w
        = (Raise ZeroDivisionError, mkWorld (mgr w) (S (ticks w))))
  /\ (forall m uid limit,
        get_relevant_long_term_memories m "" uid limit
        = Raise ZeroDivisionError).
Proof.
  split; [| split].
  - intros. now apply add_session_memory_raises.
  - intros. now apply add_session_memory_raises.
  - reflexivity.
Qed.

(** *** Retention *)

(** what [sweep_sessions] leaves under a session id *)
Definition kept (l : list MemoryEntry) : option (list MemoryEntry) :=
  match l with
  | [] => None
  | _ => Some l
  end.

Lemma sweep_sessions_lookup (P : MemoryEntry -> Prop) `{!forall x, Decision (P x)}
    (sessions : gmap string (list MemoryEntry)) (s : string) :
  sweep_sessions P sessions !! s
  = kept (filter P (default [] (sessions !! s))).
Proof.
  unfold sweep_sessions. rewrite lookup_omap.
  destruct (sessions !! s) as [l |]; cbn; [| reflexivity].
  now destruct (filter P l).
Qed.

Lemma kept_Some (l l' : list MemoryEntry) : kept l = Some l' -> l' = l /\ l <> [].
Proof. destruct l; cbn; [discriminate |]. intros [= <-]. now split. Qed.

Lemma kept_None (l : list MemoryEntry) : kept l = None <-> l = [].
Proof. destruct l; cbn; split; congruence. Qed.

Lemma Forall_filter_holds {A} (P : A -> Prop) `{!forall x, Decision (P x)}
    (l : list A) :
  Forall P (filter P l).
Proof. apply Forall_forall. intros x Hx. now apply list_elem_of_filter in Hx. Qed.

(** The calls that return do sweep.  After a call of
    [add_session_memory] that returns, with [c] the last clock reading
    of the call minus [memory_retention_days] days, every entry left in
    the long-term store and in every session has a timestamp above [c],
    no session is left with an empty list, and a session is absent
    exactly when none of its entries (the new turn included) has a
    timestamp above [c].  The call returns unless the message has no
    token; what the raising call leaves behind is C6 below. *)
Theorem retention_enforced clock sid msg resp ctx uid w :
  match _calculate_relevance_score msg with
  | Ok score =>
      exists w',
        add_session_memory clock sid msg resp ctx uid w = (Ok tt, w')
        /\ let c := (clock (pred (ticks w'))
                     - timedelta_days (memory_retention_days (mgr w)))%Z in
           let written := sessions_appended clock sid msg resp ctx uid w score in
           memory_retention_days (mgr w') = memory_retention_days (mgr w)
           /\ Forall (λ e, (c < timestamp e)%Z) (long_term_memories (mgr w'))
           /\ (forall s l, session_memories (mgr w') !! s = Some l ->
                           l <> [] /\ Forall (λ e, (c < timestamp e)%Z) l)
           /\ (forall s, session_memories (mgr w') !! s = None
                         <-> Forall (λ e, (timestamp e <= c)%Z)
                               (default [] (written !! s)))
  | Raise x => x = ZeroDivisionError /\ PyStr.split (PyStr.lower msg) = []
  end.
Proof.
  destruct (_calculate_relevance_score msg) as [score | x] eqn:Hscore.
  - exists (world_after clock sid msg resp ctx uid w score).
    split; [now apply add_session_memory_ok |].
    unfold world_after; project.
    fold (cutoff clock sid msg resp ctx uid w score).
    set (c := cutoff clock sid msg resp ctx uid w score).
    cbn zeta.
    split; [reflexivity |].
    split; [apply Forall_filter_holds |].
    split.
    + intros s l. rewrite sweep_sessions_lookup.
      intros [-> Hne]%kept_Some.
      split; [exact Hne | apply Forall_filter_holds].
    + intros s. rewrite sweep_sessions_lookup, kept_None.
      rewrite Forall_forall. split.
      * intros Hnil e He.
        change (timestamp e <= c)%Z. apply Z.le_ngt. intros Hnew.
        assert (e ∈ filter (newer_than c)
                  (default [] (sessions_appended clock sid msg resp ctx uid w score !! s)))
          as Hin by now apply list_elem_of_filter.
        rewrite Hnil in Hin. now apply elem_of_nil in Hin.
      * intros Hall. apply elem_of_nil_inv. intros e He.
        apply list_elem_of_filter in He as [Hnew He].
        specialize (Hall e He). change (timestamp e <= c)%Z in Hall.
        unfold newer_than in Hnew. lia.
  - now apply score_raises_inv.
Qed.

(** *** Privacy erase *)

(** the entries of [l] that user [v] owns, in order *)
Definition owned_by (v : string) (l : list MemoryEntry) : list MemoryEntry :=
  filter (λ memory, user_id memory = v) l.

Lemma owned_by_after_removal (u v : string) (l : list MemoryEntry) :
  v <> u ->
  owned_by v (filter (λ memory, user_id memory <> u) l) = owned_by v l.
Proof.
  intros Hvu. unfold owned_by. rewrite list_filter_filter.
  apply list_filter_iff. intros e. split; [tauto |].
  intros He. split; [exact He | congruence].
Qed.

(** C7. [clear_user_data u] removes the profile of [u], every long-term
    entry of [u] and every session entry of [u], and leaves no session
    with an empty list; for every other user the profile is the same,
    and the long-term entries and the entries of every session that the
    user owns are the same, in the same order. *)
Theorem clear_user_data_frame (u : string) (m : MemoryManager) :
  let m' := clear_user_data u m in
  user_profiles m' !! u = None
  /\ Forall (λ e, user_id e <> u) (long_term_memories m')
  /\ (forall s l, session_memories m' !! s = Some l ->
                  l <> [] /\ Forall (λ e, user_id e <> u) l)
  /\ (forall v, v <> u ->
                user_profiles m' !! v = user_profiles m !! v
                /\ owned_by v (long_term_memories m')
                  = owned_by v (long_term_memories m)
                /\ forall s,
                    owned_by v (default [] (session_memories m' !! s))
                    = owned_by v (default [] (session_memories m !! s))).
Proof.
  unfold clear_user_data; unfold_setters. cbn zeta.
  split; [apply lookup_delete_eq |].
  split; [apply Forall_filter_holds |].
  split.
  - intros s l. rewrite sweep_sessions_lookup.
    intros [-> Hne]%kept_Some.
    split; [exact Hne | apply Forall_filter_holds].
  - intros v Hvu.
    split; [now apply lookup_delete_ne |].
    split; [now apply owned_by_after_removal |].
    intros s. rewrite sweep_sessions_lookup.
    rewrite <- (owned_by_after_removal u v
                  (default [] (session_memories m !! s)) Hvu).
    now destruct (filter _ (default [] (session_memories m !! s))).
Qed.

(** *** Profile counters *)

Record Call : Type := mkCall {
  call_session : string;
  call_message : string;
  call_response : string;
  call_context : option (gmap string string);
  call_user : option string
}.

(** one call; a caller that catches the exception goes on with the
    object as the call left it *)
Definition step (clock : nat -> Z) (w : World) (c : Call) : World :=
  snd (add_session_memory clock (call_session c) (call_message c)
         (call_response c) (call_context c) (call_user c) w).

Definition run (clock : nat -> Z) (cs : list Call) (w : World) : World :=
  foldl (step clock) w cs.

(** the call records a turn for user [u]: it names [u] and its message
    has a token *)
Definition records_for (u : string) (c : Call) : bool :=
  truthy (call_user c)
  && bool_decide (or_anonymous (call_user c) = u)
  && negb (bool_decide (PyStr.split (PyStr.lower (call_message c)) = [])).

Definition turns_of (u : string) (cs : list Call) : nat :=
  length (filter (λ c, records_for u c = true) cs).

Definition conversations (w : World) (u : string) : option nat :=
  total_conversations <$> user_profiles (mgr w) !! u.

Definition messages (w : World) (u : string) : option nat :=
  total_messages <$> user_profiles (mgr w) !! u.

(** a counter after one more recorded turn *)
Definition bumped (n : option nat) : option nat := Some (default 0 n + 1).

Lemma step_counters clock w c u :
  let w' := step clock w c in
  if records_for u c
  then conversations w' u = bumped (conversations w u)
       /\ messages w' u = bumped (messages w u)
  else conversations w' u = conversations w u
       /\ messages w' u = messages w u.
Proof.
  unfold step, records_for, conversations, messages, bumped.
  destruct c as [s msg resp ctx cu]; cbn [call_session call_message
    call_response call_context call_user].
  destruct (_calculate_relevance_score msg) as [score | x] eqn:Hscore.
  - rewrite (add_session_memory_ok _ _ _ _ _ _ _ _ Hscore).
    assert (PyStr.split (PyStr.lower msg) <> []) as Htok.
    { intros Hnil. apply no_token_raises in Hnil. congruence. }
    rewrite (bool_decide_eq_false_2 _ Htok). cbn [negb].
    unfold world_after; project. unfold profiles_step.
    destruct (truthy cu); cbn [andb]; [| now split].
    rewrite andb_true_r.
    destruct (user_profiles (mgr w) !! or_anonymous cu) as [p |] eqn:Hp;
      project; case_bool_decide as Hu.
    + subst u. rewrite lookup_insert_eq, Hp. now split.
    + now rewrite lookup_insert_ne.
    + subst u. rewrite lookup_insert_eq, Hp. now split.
    + now rewrite lookup_insert_ne.
  - rewrite (add_session_memory_raises _ _ _ _ _ _ _ _ Hscore); project.
    apply score_raises_inv in Hscore as [_ Hnil].
    rewrite (bool_decide_eq_true_2 _ Hnil). cbn [negb].
    rewrite andb_false_r. now split.
Qed.

Lemma run_counters clock cs : forall w u,
  let w' := run clock cs w in
  match turns_of u cs with
  | O => conversations w' u = conversations w u
         /\ messages w' u = messages w u
  | S n => conversations w' u = Some (default 0 (conversations w u) + S n)
           /\ messages w' u = Some (default 0 (messages w u) + S n)
  end.
Proof.
  induction cs as [| c cs IH]; intros w u; cbn zeta.
  - now split.
  - unfold run in *. cbn [foldl]. unfold turns_of in *.
    rewrite filter_cons.
    pose proof (step_counters clock w c u) as Hstep. cbn zeta in Hstep.
    specialize (IH (step clock w c) u). cbn zeta in IH.
    destruct (records_for u c); cbn in Hstep.
    + rewrite decide_True by reflexivity. cbn [length].
      destruct Hstep as [Hc Hm].
      destruct (length (filter _ cs)) as [| n].
      * destruct IH as [-> ->]. rewrite Hc, Hm. unfold bumped. now split.
      * destruct IH as [-> ->]. rewrite Hc, Hm. unfold bumped.
        cbn [default from_option]. unfold Datatypes.id.
        split; f_equal; lia.
    + rewrite decide_False by discriminate.
      destruct Hstep as [Hc Hm]. rewrite Hc, Hm in IH. exact IH.
Qed.

(** C10. Starting from the object that [__init__] builds, after any
    sequence of [add_session_memory] calls (raising ones included), a
    user has a profile exactly when some call recorded a turn for that
    user, and then [total_conversations] and [total_messages] are equal,
    both being the number of recorded turns. *)
Theorem profile_counters_agree clock (cs : list Call) (t0 : nat) (u : string) :
  match user_profiles (mgr (run clock cs (mkWorld init t0))) !! u with
  | Some p => total_conversations p = total_messages p
              /\ total_messages p = turns_of u cs
              /\ 0 < turns_of u cs
  | None => turns_of u cs = 0
  end.
Proof.
  pose proof (run_counters clock cs (mkWorld init t0) u) as H.
  cbn zeta in H. unfold conversations, messages in H.
  change (user_profiles (mgr (mkWorld init t0)) !! u)
    with ((∅ : gmap string UserProfile) !! u) in H.
  rewrite lookup_empty in H. cbn [fmap option_fmap option_map default] in H.
  destruct (user_profiles (mgr (run clock cs (mkWorld init t0))) !! u) as [p |];
    destruct (turns_of u cs) as [| n]; cbn in H; destruct H as [Hc Hm];
    try discriminate; [| reflexivity].
  injection Hc as Hc. injection Hm as Hm. lia.
Qed.

(** the two counters agree in every profile *)
Definition counters_agree (w : World) : Prop :=
  forall u, conversations w u = messages w u.

Lemma counters_agree_step clock w c :
  counters_agree w -> counters_agree (step clock w c).
Proof.
  intros Hw u. pose proof (step_counters clock w c u) as H. cbn zeta in H.
  destruct (records_for u c); destruct H as [-> ->]; now rewrite (Hw u).
Qed.

Lemma counters_agree_run clock cs : forall w,
  counters_agree w -> counters_agree (run clock cs w).
Proof.
  induction cs as [| c cs IH]; intros w Hw; [exact Hw |].
  apply IH. now apply counters_agree_step.
Qed.

(** a run in which the second turn comes forty days after the first: the
    first turn, promoted when it was made, is gone from both stores and
    its session is deleted *)
Definition forty_days_later (n : nat) : Z :=
  if (n <? 4)%nat then Z.of_nat n
  else (timedelta_days 40 + Z.of_nat n)%Z.

Example stale_turn_is_swept :
  let m := mgr (run forty_days_later
                  [mkCall "s1" "I need information about my diagnosis" "ok" None
                     (Some "alice");
                   mkCall "s2" "hello there" "hi" None (Some "bob")]
                  (mkWorld init 0)) in
  long_term_memories m = []
  /\ session_memories m !! "s1"%string = None
  /\ length (default [] (session_memories m !! "s2"%string)) = 1%nat.
Proof. vm_compute. repeat split. Qed.

(** C6. The claim says that no entry older than the retention period
    is left after any call of [add_session_memory].  The sweep is the
    last statement of the method, and a message without a token raises
    [ZeroDivisionError] while the entry is built, before the sweep (the
    defect of C2): such a call leaves the whole object as it was.
    Below, a turn of "alice" is stored and promoted at time 0; forty
    days later a call with the empty message raises, and the entry and
    its long-term copy, both more than [memory_retention_days] = 30 days
    old at the time of the call, are still in the two stores.  The same
    call with a message that has a token sweeps them
    ([stale_turn_is_swept]). *)
Theorem stale_entries_survive_raising_call :
  (forall clock sid msg resp ctx uid w,
      PyStr.split (PyStr.lower msg) = [] ->
      fst (add_session_memory clock sid msg resp ctx uid w)
      = Raise ZeroDivisionError
      /\ mgr (snd (add_session_memory clock sid msg resp ctx uid w)) = mgr w)
  /\ let w1 := run forty_days_later
                 [mkCall "s1" "I need information about my diagnosis" "ok" None
                    (Some "alice")]
                 (mkWorld init 0) in
     let now_called := forty_days_later (ticks w1) in
     let result := add_session_memory forty_days_later "s1" "" "ok" None
                     (Some "alice") w1 in
     fst result = Raise ZeroDivisionError
     /\ exists e p,
         session_memories (mgr (snd result)) !! "s1"%string = Some [e]
         /\ long_term_memories (mgr (snd result)) = [p]
         /\ memory_retention_days (mgr (snd result)) = 30%Z
         /\ (timestamp e + 30 * 86400000000 < now_called)%Z
         /\ (timestamp p + 30 * 86400000000 < now_called)%Z.
Proof.
  split.
  - intros clock sid msg resp ctx uid w Hmsg.
    rewrite (add_session_memory_raises clock sid msg resp ctx uid w
               ZeroDivisionError (no_token_raises msg Hmsg)).
    now split.
  - cbv zeta. split; [vm_compute; reflexivity |].
    eexists. eexists.
    split; [vm_compute; reflexivity |]. split; [vm_compute; reflexivity |].
    split; [reflexivity |]. split; vm_compute; reflexivity.
Qed.

(** *** Long-term retrieval *)

Lemma insert_desc_Forall (P : MemoryEntry -> Prop) x l :
  P x -> Forall P l -> Forall P (insert_desc x l).
Proof.
  intros Hx. induction 1 as [| y l Hy Hl IH]; cbn.
  - now repeat constructor.
  - destruct (key_of x <? key_of y)%float; now repeat constructor.
Qed.

Lemma sort_desc_Forall (P : MemoryEntry -> Prop) l :
  Forall P l -> Forall P (sort_desc l).
Proof.
  induction 1 as [| x l Hx Hl IH]; cbn; [constructor |].
  now apply insert_desc_Forall.
Qed.

Section Owner.

(** a caller that names itself: a non-empty user id *)
Variables (c : ascii) (rest : string).
Local Abbreviation u := (String c rest).

Variables (threshold : float) (qk : list string) (qr : float).

Lemma match_memory_owner memory r :
  match_memory threshold (Some u) qk qr memory = Some r -> user_id r = u.
Proof.
  unfold match_memory, skips.
  case_bool_decide as Hu; cbn [negb]; [| discriminate].
  destruct (_ <=? _)%float; [| discriminate].
  now intros [= <-].
Qed.

Lemma match_memory_other memory :
  user_id memory <> u -> match_memory threshold (Some u) qk qr memory = None.
Proof.
  intros Hu. unfold match_memory, skips.
  now rewrite bool_decide_eq_false_2.
Qed.

Lemma matches_owned (l : list MemoryEntry) :
  omap (match_memory threshold (Some u) qk qr) l
  = omap (match_memory threshold (Some u) qk qr) (owned_by u l).
Proof.
  unfold owned_by.
  induction l as [| e l IH]; [reflexivity |].
  rewrite filter_cons. destruct (decide (user_id e = u)) as [He | He].
  - cbn [omap list_omap]. now rewrite IH.
  - cbn [omap list_omap]. now rewrite (match_memory_other e He), IH.
Qed.

Lemma matches_Forall (l : list MemoryEntry) :
  Forall (λ r, user_id r = u)
    (omap (match_memory threshold (Some u) qk qr) l).
Proof.
  apply Forall_forall. intros r Hr.
  apply list_elem_of_omap in Hr as (e & _ & He).
  now apply match_memory_owner in He.
Qed.

End Owner.

(** C5, as amended.  For a caller that names itself (a non-empty
    [user_id]): every entry that [get_relevant_long_term_memories]
    returns is owned by that user; the outcome is the same for any two
    stores with the same entries of that user (and the same threshold),
    so entries of others do not influence it; and the call returns a
    list whenever the query has a token. *)
Theorem own_memories_only (m : MemoryManager) (query u : string) (limit : Z) :
  u <> EmptyString ->
  (forall rs, get_relevant_long_term_memories m query (Some u) limit = Ok rs ->
              Forall (λ r, user_id r = u) rs)
  /\ (forall m',
        relevance_threshold m' = relevance_threshold m ->
        owned_by u (long_term_memories m') = owned_by u (long_term_memories m) ->
        get_relevant_long_term_memories m' query (Some u) limit
        = get_relevant_long_term_memories m query (Some u) limit)
  /\ (PyStr.split (PyStr.lower query) <> [] ->
      exists rs, get_relevant_long_term_memories m query (Some u) limit = Ok rs).
Proof.
  intros Hu. destruct u as [| c rest]; [now destruct Hu |].
  unfold get_relevant_long_term_memories.
  split; [| split].
  - destruct (_calculate_relevance_score query) as [qr | x]; cbn [result_bind];
      [| discriminate].
    intros rs [= <-].
    apply slice_to_Forall, sort_desc_Forall, matches_Forall.
  - intros m' Hth Hown.
    destruct (_calculate_relevance_score query) as [qr | x]; cbn [result_bind];
      [| reflexivity].
    rewrite Hth, (matches_owned _ _ _ _ _ (long_term_memories m')), Hown.
    now rewrite <- matches_owned.
  - intros Htok. apply token_scores in Htok as [qr ->]. cbn [result_bind].
    eexists. reflexivity.
Qed.

(** a store with one promoted entry of "alice" and one of "bob" *)
Definition two_users : MemoryManager :=
  mgr (run (λ n, Z.of_nat n)
         [mkCall "s1" "I need information about my diagnosis" "ok" None
            (Some "alice");
          mkCall "s2" "my diagnosis worries me" "ok" None (Some "bob")]
         (mkWorld init 0)).

Lemma own_memories_only_witness :
  "alice"%string <> EmptyString
  /\ exists rs,
      get_relevant_long_term_memories two_users "diagnosis" (Some "alice") 5
      = Ok rs
      /\ length rs = 1
      /\ Forall (λ r, user_id r = "alice"%string) rs.
Proof.
  split; [discriminate |].
  destruct (own_memories_only two_users "diagnosis" "alice" 5) as (Hown & _ & _);
    [discriminate |].
  eexists. split; [vm_compute; reflexivity |].
  split; [reflexivity |].
  apply Hown. vm_compute. reflexivity.
Defined.

(** C5 without the restriction to a named caller fails: for the empty
    user id (or none) the guard [if user_id and ...] skips nothing, and
    the entries of "alice" and "bob" are returned. *)
Lemma unnamed_caller_reads_all :
  exists r1 r2,
    get_relevant_long_term_memories two_users "diagnosis" (Some "") 5
    = Ok [r1; r2]
    /\ get_relevant_long_term_memories two_users "diagnosis" None 5
      = Ok [r1; r2]
    /\ user_id r1 = "bob"%string /\ user_id r2 = "alice"%string
    /\ ~ Forall (λ r, user_id r = ""%string) [r1; r2].
Proof.
  eexists. eexists. split; [vm_compute; reflexivity |].
  split; [vm_compute; reflexivity |].
  split; [reflexivity |]. split; [reflexivity |].
  intros H. apply Forall_cons in H as [H _]. discriminate H.
Qed.

End MemoryFacts.

(** ** The knowledge base *)

Module KnowledgeFacts.
Import Knowledge.

(** *** The fixed-window chunker *)

Lemma get_in_range (s : string) : forall n : nat,
  (n < String.length s)%nat -> exists c, String.get n s = Some c.
Proof.
  induction s as [| a s IH]; intros n Hn; cbn in Hn; [lia |].
  destruct n as [| n]; cbn; [now exists a |].
  apply IH. lia.
Qed.

Lemma index_in_range (content : string) (i : Z) :
  (0 <= i < Z.of_nat (PyStr.len content))%Z ->
  exists c, PyStr.index content i = Ok c.
Proof.
  intros Hi. unfold PyStr.index. cbv zeta.
  assert ((i <? 0)%Z = false) as Hneg by lia.
  rewrite !Hneg.
  destruct (get_in_range content (Z.to_nat i)) as [c Hc].
  { unfold PyStr.len in Hi. lia. }
  exists c. now rewrite Hc.
Qed.

(** a backward scan that stays inside the string does not raise, and a
    hit moves the edge to just after one of the visited positions *)
Lemma scan_back_in_range (content : string) (n : nat) : forall i : Z,
  (i < Z.of_nat (PyStr.len content))%Z ->
  (0 <= i - Z.of_nat n + 1)%Z ->
  exists hit, scan_back content i n = Ok hit
              /\ forall e, hit = Some e -> (i - Z.of_nat n + 2 <= e <= i + 1)%Z.
Proof.
  induction n as [| n IH]; intros i Hlt Hge; cbn [scan_back].
  - exists None. split; [reflexivity | discriminate].
  - destruct (index_in_range content i) as [c ->]; [lia |].
    cbn [result_bind].
    destruct (PyStr.is_terminal c).
    + exists (Some (i + 1)%Z). split; [reflexivity |].
      intros e [= <-]. lia.
    + destruct (IH (i - 1)%Z) as (hit & -> & Hhit); [lia | lia |].
      exists hit. split; [reflexivity |].
      intros e He. specialize (Hhit e He). lia.
Qed.

(** with a window of 512 the right edge is found without error, between
    414 and 513 characters after the start *)
Lemma window_end_default (content : string) (start : Z) :
  (0 <= start)%Z ->
  exists e, window_end 512 content start = Ok e
            /\ (start + 414 <= e <= start + 513)%Z.
Proof.
  intros Hstart. unfold window_end.
  destruct (Z.ltb_spec (start + 512) (Z.of_nat (PyStr.len content))) as [Hlt | Hge].
  - replace (Z.to_nat (start + 512 - Z.max start (start + 512 - 100)))
      with 100%nat by lia.
    destruct (scan_back_in_range content 100 (start + 512)%Z)
      as (hit & -> & Hhit); [lia | lia |].
    cbn [result_bind]. exists (default (start + 512)%Z hit).
    split; [reflexivity |].
    destruct hit as [e |]; cbn; [| lia].
    specialize (Hhit e eq_refl). lia.
  - exists (start + 512)%Z. split; [reflexivity | lia].
Qed.

Lemma fixed_size_loop_fuel (content title : string) (fuel : nat) :
  forall (start : Z) (acc : list Chunk),
    (0 <= start)%Z ->
    (Z.of_nat (PyStr.len content) - start < Z.of_nat fuel)%Z ->
    (0 < fuel)%nat ->
    exists cs, forall extra,
        fixed_size_loop (fuel + extra) 512 50 content title start acc
        = Some (Ok cs).
Proof.
  induction fuel as [| fuel IH]; intros start acc Hstart Hfuel Hpos; [lia |].
  cbn [Nat.add fixed_size_loop].
  destruct (Z.ltb_spec start (Z.of_nat (PyStr.len content))) as [Hlt | Hge].
  - destruct (window_end_default content start Hstart) as (e & -> & He).
    set (acc' := match PyStr.strip (PyStr.slice content start e) with
                 | EmptyString => acc
                 | _ => _
                 end).
    destruct (Z.leb_spec (Z.of_nat (PyStr.len content)) (e - 50)) as [Hout | Hin].
    + exists acc'. reflexivity.
    + apply IH; lia.
  - exists acc. reflexivity.
Qed.

(** C9. Under the default configuration (window 512, overlap 50, a
    backward scan of at most 100 characters) the fixed-window chunker
    returns a list of chunks for every content: any fuel above the
    length of the content is enough and gives the same list, no index
    is out of range, each iteration moves the window start forward, and
    the empty content gives no chunk. *)
Theorem fixed_size_chunker_total (content title : string) :
  (exists cs, forall fuel,
        (PyStr.len content < fuel)%nat ->
        _chunk_fixed_size fuel (chunk_size init) (chunk_overlap init)
          content title = Some (Ok cs))
  /\ (forall start, (0 <= start)%Z ->
        exists e, window_end (chunk_size init) content start = Ok e
                  /\ (start < e - chunk_overlap init)%Z)
  /\ _chunk_fixed_size 1 (chunk_size init) (chunk_overlap init)
       EmptyString title = Some (Ok []).
Proof.
  cbn [chunk_size chunk_overlap init].
  split; [| split].
  - destruct (fixed_size_loop_fuel content title (S (PyStr.len content)) 0 [])
      as [cs Hcs]; [lia | lia | lia |].
    exists cs. intros fuel Hfuel. unfold _chunk_fixed_size.
    replace fuel with (S (PyStr.len content) + (fuel - S (PyStr.len content)))%nat
      by lia.
    apply Hcs.
  - intros start Hstart.
    destruct (window_end_default content start Hstart) as (e & He & Hb).
    exists e. split; [exact He | lia].
  - reflexivity.
Qed.

(** *** Scores *)

Local Open Scope R_scope.

Definition nonneg (v : list R) : Prop := Forall (λ x, 0 <= x) v.

Definition in_unit (x : R) : Prop := 0 <= x <= 1.

Lemma dot_nonneg (u : list R) : forall v, nonneg u -> nonneg v -> 0 <= dot u v.
Proof.
  unfold dot. induction u as [| x u IH]; intros [| y v] Hu Hv; cbn; try lra.
  apply Forall_cons in Hu as [Hx Hu]. apply Forall_cons in Hv as [Hy Hv].
  specialize (IH v Hu Hv). nra.
Qed.

Lemma dot_self_nonneg (u : list R) : 0 <= dot u u.
Proof. unfold dot. induction u as [| x u IH]; cbn; [lra | nra]. Qed.

(** Cauchy-Schwarz on the common prefix of two lists *)
Lemma dot_cauchy_schwarz (u : list R) : forall v,
  length u = length v -> dot u v * dot u v <= dot u u * dot v v.
Proof.
  induction u as [| x u IH]; intros [| y v] Hlen; cbn in Hlen; try discriminate.
  - unfold dot; cbn. lra.
  - injection Hlen as Hlen. specialize (IH v Hlen).
    pose proof (dot_self_nonneg u) as Ha. pose proof (dot_self_nonneg v) as Hb.
    unfold dot in *; cbn [zip_with foldr].
    set (a := foldr Rplus 0 (zip_with Rmult u u)) in *.
    set (b := foldr Rplus 0 (zip_with Rmult v v)) in *.
    set (c := foldr Rplus 0 (zip_with Rmult u v)) in *.
    assert (2 * (x * y) * c <= x * x * b + a * (y * y)) as Hmid.
    { destruct (Req_dec b 0) as [Hb0 | Hb0].
      - assert (c = 0) by nra. subst c. nra.
      - assert (0 < b) by lra.
        assert (0 <= b * (x * x * b + a * (y * y) - 2 * (x * y) * c)) as Hq.
        { replace (b * (x * x * b + a * (y * y) - 2 * (x * y) * c))
            with ((b * x - y * c) * (b * x - y * c) + y * y * (a * b - c * c))
            by ring.
          pose proof (Rle_0_sqr (b * x - y * c)) as Hsq1. unfold Rsqr in Hsq1.
          pose proof (Rle_0_sqr y) as Hsq2. unfold Rsqr in Hsq2.
          assert (0 <= y * y * (a * b - c * c))
            by (apply Rmult_le_pos; lra).
          lra. }
        apply (Rmult_le_reg_l b); [assumption | lra]. }
    replace ((x * y + c) * (x * y + c))
      with (x * y * (x * y) + 2 * (x * y) * c + c * c) by ring.
    replace ((x * x + a) * (y * y + b))
      with (x * y * (x * y) + (x * x * b + a * (y * y)) + a * b) by ring.
    lra.
Qed.

Lemma dot_le_norms (u v : list R) :
  length u = length v -> nonneg u -> nonneg v -> dot u v <= norm u * norm v.
Proof.
  intros Hlen Hu Hv. unfold norm.
  rewrite <- sqrt_mult by apply dot_self_nonneg.
  rewrite <- (sqrt_square (dot u v)) by now apply dot_nonneg.
  apply sqrt_le_1_alt. now apply dot_cauchy_schwarz.
Qed.

Lemma norm_nonneg (u : list R) : 0 <= norm u.
Proof. apply sqrt_pos. Qed.

Lemma cosine_in_unit (u v : list R) :
  nonneg u -> nonneg v -> in_unit (_cosine_similarity u v).
Proof.
  intros Hu Hv. unfold _cosine_similarity, in_unit.
  case_bool_decide as Hlen; [| lra].
  destruct (Req_dec_T (norm u) 0) as [| Hnu]; [lra |].
  destruct (Req_dec_T (norm v) 0) as [| Hnv]; [lra |].
  pose proof (norm_nonneg u). pose proof (norm_nonneg v).
  assert (0 < norm u * norm v) as Hpos by nra.
  pose proof (dot_nonneg u v Hu Hv) as Hd.
  pose proof (dot_le_norms u v Hlen Hu Hv) as Hle.
  split.
  - apply Rmult_le_pos; [exact Hd |]. left. now apply Rinv_0_lt_compat.
  - apply (Rmult_le_reg_r (norm u * norm v)); [exact Hpos |].
    unfold Rdiv. rewrite Rmult_assoc, Rinv_l by lra. lra.
Qed.

Lemma ratio_in_unit (a b : nat) : (a <= b)%nat -> (0 < b)%nat -> in_unit (INR a / INR b).
Proof.
  intros Hab Hb. unfold in_unit.
  assert (0 < INR b) as Hpos by now apply lt_0_INR.
  pose proof (pos_INR a) as Ha. pose proof (le_INR a b Hab) as Hle.
  split.
  - apply Rmult_le_pos; [exact Ha |]. left. now apply Rinv_0_lt_compat.
  - apply (Rmult_le_reg_r (INR b)); [exact Hpos |].
    unfold Rdiv. rewrite Rmult_assoc, Rinv_l by lra. lra.
Qed.

Lemma keyword_in_unit (query content : string) :
  in_unit (_keyword_similarity query content).
Proof.
  unfold _keyword_similarity.
  case_bool_decide as Hempty; [unfold in_unit; lra |].
  apply ratio_in_unit.
  - apply subseteq_size. intros x [Hx _]%elem_of_intersection.
    apply elem_of_union. now left.
  - assert (word_set query <> ∅) as Hq by tauto.
    assert (size (word_set query ∪ word_set content) <> 0)%nat; [| lia].
    apply size_non_empty_iff. intros [Hu _]%empty_union. apply Hq.
    now apply leibniz_equiv.
Qed.

Lemma category_in_unit (query : string) (chunk : Chunk) :
  in_unit (_category_similarity query chunk).
Proof.
  unfold _category_similarity, in_unit.
  destruct (assoc _ category_terms) as [terms |]; [| lra].
  split.
  - apply Rmin_glb; [lra |].
    destruct (length terms) as [| n] eqn:Hn.
    + cbn. unfold Rdiv. rewrite Rinv_0. lra.
    + apply Rmult_le_pos; [apply pos_INR |].
      left. apply Rinv_0_lt_compat. apply lt_0_INR. lia.
  - apply Rmin_l.
Qed.

(** under the default weights the weighted sum of three values of the
    unit interval is in the unit interval, with or without the penalty *)
Lemma score_chunk_in_unit (query : string) (qv : list R)
    (category_filter : option string) (chunk : Chunk) (cv : list R) :
  nonneg qv -> nonneg cv ->
  let r := score_chunk default_weights query qv category_filter chunk cv in
  in_unit (semantic_similarity r) /\ in_unit (keyword_similarity r)
  /\ in_unit (category_similarity r) /\ in_unit (similarity_score r).
Proof.
  intros Hq Hc. cbn zeta.
  unfold score_chunk, combined;
    cbn [semantic_similarity keyword_similarity category_similarity
         similarity_score semantic keyword category default_weights].
  pose proof (cosine_in_unit qv cv Hq Hc) as Hs.
  pose proof (keyword_in_unit query (chunk_content chunk)) as Hk.
  pose proof (category_in_unit query chunk) as Hg.
  unfold in_unit in *.
  repeat split; try tauto; destruct (penalized category_filter chunk); lra.
Qed.

(** *** The fallback embedding *)

Section Fallback.

Variable hash : string -> Z.

Lemma scatter_nonneg d v item v' :
  nonneg v -> scatter hash d v item = Ok v' -> nonneg v'.
Proof.
  intros Hv. unfold scatter. destruct d as [| d]; [discriminate |].
  intros [= <-]. apply Forall_alter; [exact Hv |].
  intros x _ Hx. pose proof (pos_INR (snd item)). lra.
Qed.

Lemma scatter_all_nonneg d items : forall v v',
  nonneg v -> scatter_all hash d v items = Ok v' -> nonneg v'.
Proof.
  induction items as [| item items IH]; intros v v' Hv; cbn [scatter_all].
  - now intros [= <-].
  - destruct (scatter hash d v item) as [v1 | x] eqn:H1; cbn [result_bind];
      [| discriminate].
    apply IH. now apply (scatter_nonneg d v item).
Qed.

Lemma scatter_all_total d items : forall v,
  (0 < d)%nat -> exists v', scatter_all hash d v items = Ok v'.
Proof.
  induction items as [| item items IH]; intros v Hd; cbn [scatter_all].
  - now exists v.
  - unfold scatter at 1. destruct d as [| d]; [lia |]. cbn [result_bind].
    now apply IH.
Qed.

Lemma normalize_nonneg v : nonneg v -> nonneg (normalize v).
Proof.
  intros Hv. unfold normalize.
  destruct (Rlt_dec 0 (norm v)) as [Hpos | _]; [| exact Hv].
  apply Forall_fmap. eapply Forall_impl; [exact Hv |].
  intros x Hx. cbn. apply Rmult_le_pos; [exact Hx |].
  left. now apply Rinv_0_lt_compat.
Qed.

Lemma simple_embedding_nonneg d text v :
  _simple_embedding hash d text = Ok v -> nonneg v.
Proof.
  unfold _simple_embedding.
  destruct (scatter_all hash d _ _) as [v1 | x] eqn:H1; cbn [result_bind];
    [| discriminate].
  intros [= <-]. apply normalize_nonneg.
  apply (scatter_all_nonneg _ _ _ _ (Forall_replicate _ d 0 (Rle_refl 0)) H1).
Qed.

Lemma simple_embedding_total d text :
  (0 < d)%nat -> exists v, _simple_embedding hash d text = Ok v.
Proof.
  intros Hd. unfold _simple_embedding.
  destruct (scatter_all_total d
              (word_frequencies (PyStr.split (PyStr.lower text)))
              (replicate d 0) Hd) as [v1 ->].
  cbn [result_bind]. eexists. reflexivity.
Qed.

(** every vector of the list is the fallback embedding of some text *)
Definition fallback_vectors (d : nat) (vs : list (list R)) : Prop :=
  Forall (λ v, exists text, _simple_embedding hash d text = Ok v) vs.

Lemma generate_chunk_embeddings_spec d cs :
  (forall vs, _generate_chunk_embeddings hash d cs = Ok vs ->
              fallback_vectors d vs /\ length vs = length cs)
  /\ ((0 < d)%nat -> exists vs, _generate_chunk_embeddings hash d cs = Ok vs).
Proof.
  unfold _generate_chunk_embeddings, fallback_vectors.
  induction cs as [| c cs [IHa IHb]]; cbn [result_map].
  - split; [intros vs [= <-]; split; [constructor | reflexivity] |].
    intros _. now exists [].
  - split.
    + intros vs.
      destruct (_simple_embedding hash d (chunk_content c)) as [v | x] eqn:Hv;
        cbn [result_bind]; [| discriminate].
      destruct (result_map _ cs) as [vs' | x] eqn:Hvs; cbn [result_bind];
        [| discriminate].
      intros [= <-]. destruct (IHa vs' eq_refl) as [Hall Hlen].
      split; [| cbn; now rewrite Hlen].
      constructor; [now exists (chunk_content c) | exact Hall].
    + intros Hd. destruct (IHb Hd) as [vs' Hvs'].
      destruct (simple_embedding_total d (chunk_content c) Hd) as [v Hv].
      rewrite Hv, Hvs'. cbn [result_bind]. eexists. reflexivity.
Qed.

(** every stored vector is a fallback embedding for this dimension *)
Definition fallback_index (kb : KnowledgeBase) : Prop :=
  forall id v, embeddings kb !! id = Some v ->
               exists text, _simple_embedding hash (embedding_dimension kb) text = Ok v.

Lemma store_embeddings_lookup document_id vs : forall i embs k v,
  store_embeddings document_id i vs embs !! k = Some v ->
  v ∈ vs \/ embs !! k = Some v.
Proof.
  induction vs as [| e vs IH]; intros i embs k v; cbn [store_embeddings].
  - now right.
  - intros H. apply IH in H as [H | H].
    + left. now apply elem_of_cons; right.
    + destruct (decide (k = (document_id ++ "_chunk_" ++ PyStr.of_nat i)%string))
        as [-> | Hne].
      * rewrite lookup_insert_eq in H. injection H as <-.
        left. apply elem_of_cons. now left.
      * rewrite lookup_insert_ne in H by congruence. now right.
Qed.

End Fallback.

(** *** No chunker sets a category *)

Local Close Scope R_scope.

Definition uncategorized (cs : list Chunk) : Prop :=
  Forall (λ c, chunk_category c = None) cs.

Lemma Forall_concat_lists {A} (P : A -> Prop) (ls : list (list A)) :
  Forall (Forall P) ls -> Forall P (concat ls).
Proof.
  induction 1 as [| l ls Hl Hls IH]; cbn; [constructor |].
  apply Forall_app. now split.
Qed.

Lemma uncategorized_snoc cs c :
  uncategorized cs -> chunk_category c = None -> uncategorized (cs ++ [c]).
Proof. intros Hcs Hc. apply Forall_app. split; [exact Hcs | now constructor]. Qed.

Lemma sentence_step_uncategorized size title para_tag sent_tag st sentence :
  uncategorized (fst (fst st)) ->
  uncategorized (fst (fst (sentence_step size title para_tag sent_tag st sentence))).
Proof.
  destruct st as [[acc cur] count]; cbn [fst sentence_step]. intros Hacc.
  destruct (_ <? _)%Z; [| exact Hacc].
  destruct cur; cbn [fst]; now apply uncategorized_snoc.
Qed.

Lemma sentence_loop_uncategorized size title para_tag sent_tag sentences :
  uncategorized (sentence_loop size title para_tag sent_tag sentences).
Proof.
  unfold sentence_loop.
  assert (forall st, uncategorized (fst (fst st)) ->
            uncategorized
              (fst (fst (foldl (sentence_step size title para_tag sent_tag)
                           st sentences)))) as Hfold.
  { induction sentences as [| x xs IH]; intros st Hst; cbn [foldl];
      [exact Hst |].
    apply IH. now apply sentence_step_uncategorized. }
  specialize (Hfold ([], EmptyString, 0%nat) (Forall_nil_2 _)).
  destruct (foldl _ _ sentences) as [[acc cur] count]; cbn [fst] in Hfold.
  destruct cur; [exact Hfold | now apply uncategorized_snoc].
Qed.

Lemma medical_uncategorized size content title :
  uncategorized (_chunk_medical_content size content title).
Proof.
  unfold _chunk_medical_content. apply Forall_concat_lists.
  apply Forall_fmap, Forall_forall. intros paragraph _. cbn.
  destruct (PyStr.strip paragraph); [constructor |].
  apply sentence_loop_uncategorized.
Qed.

Lemma general_uncategorized size content title :
  uncategorized (_chunk_general_content size content title).
Proof.
  unfold _chunk_general_content. apply Forall_concat_lists.
  apply Forall_forall. intros l (i & paragraph & -> & _)%elem_of_lookup_imap_1.
  destruct (PyStr.strip paragraph); [constructor |].
  destruct (_ <? _)%Z.
  - apply sentence_loop_uncategorized.
  - now repeat constructor.
Qed.

Lemma fixed_size_uncategorized size overlap content title fuel :
  forall start acc cs,
    uncategorized acc ->
    fixed_size_loop fuel size overlap content title start acc = Some (Ok cs) ->
    uncategorized cs.
Proof.
  induction fuel as [| fuel IH]; intros start acc cs Hacc; cbn [fixed_size_loop];
    [discriminate |].
  destruct (_ <? _)%Z; [| now intros [= <-]].
  destruct (window_end size content start) as [e | x]; [| discriminate].
  set (acc' := match PyStr.strip (PyStr.slice content start e) with
               | EmptyString => acc
               | _ => _
               end).
  assert (uncategorized acc') as Hacc'.
  { subst acc'. destruct (PyStr.strip _); [exact Hacc |].
    now apply uncategorized_snoc. }
  destruct (_ <=? _)%Z; [now intros [= <-] |].
  now apply IH.
Qed.

Lemma chunk_document_uncategorized fuel kb document cs :
  _chunk_document fuel kb document = Some (Ok cs) -> uncategorized cs.
Proof.
  unfold _chunk_document.
  assert (forall l, uncategorized l ->
                    uncategorized (slice_to l (max_chunks_per_document kb)))
    as Hslice by (intros l; apply slice_to_Forall).
  destruct (PyStr.mem _ ["medical_condition"; "treatment"; "symptom"]).
  { intros [= <-]. apply Hslice, medical_uncategorized. }
  destruct (PyStr.mem _ ["general"; "wellness"; "prevention"]).
  { intros [= <-]. apply Hslice, general_uncategorized. }
  destruct (_chunk_fixed_size _ _ _ _ _) as [[l | x] |] eqn:Hfixed;
    [| discriminate | discriminate].
  intros [= <-]. apply Hslice.
  now apply (fixed_size_uncategorized _ _ _ _ _ _ _ _ (Forall_nil_2 _) Hfixed).
Qed.

(** *** Ingest *)

Section Ingest.

Variable hash : string -> Z.
Variable md5_hexdigest : string -> string.

(** the same configuration: nothing but the stores differs *)
Definition same_configuration (kb kb' : KnowledgeBase) : Prop :=
  embedding_dimension kb' = embedding_dimension kb
  /\ chunk_size kb' = chunk_size kb
  /\ chunk_overlap kb' = chunk_overlap kb
  /\ max_chunks_per_document kb' = max_chunks_per_document kb
  /\ relevance_threshold kb' = relevance_threshold kb
  /\ similarity_weights kb' = similarity_weights kb.

Lemma add_document_ok fuel title content cat source tags t1 t2 kb id kb' :
  add_document hash md5_hexdigest fuel title content cat source tags t1 t2 kb
  = Some (Ok id, kb') ->
  exists cs vs,
    _chunk_document fuel
      (with_document kb
         (make_document md5_hexdigest title content cat source tags t1))
      (make_document md5_hexdigest title content cat source tags t1)
    = Some (Ok cs)
    /\ _generate_chunk_embeddings hash (embedding_dimension kb) cs = Ok vs
    /\ id = _generate_document_id md5_hexdigest title content
    /\ chunks kb' = chunks kb ++ imap (store_chunk id) cs
    /\ embeddings kb' = store_embeddings id 0 vs (embeddings kb)
    /\ documents kb'
      = documents kb
        ++ [make_document md5_hexdigest title content cat source tags t1]
    /\ same_configuration kb kb'.
Proof.
  unfold add_document.
  destruct (_chunk_document fuel _ _) as [[cs | x] |] eqn:Hcs;
    [| discriminate | discriminate].
  cbn [embedding_dimension with_document] in *.
  destruct (_generate_chunk_embeddings hash (embedding_dimension kb) cs)
    as [vs | x] eqn:Hvs; [| discriminate].
  intros [= <- <-]. exists cs, vs.
  split; [reflexivity |]. split; [exact Hvs |]. split; [reflexivity |].
  cbn [chunks embeddings documents].
  split; [reflexivity |]. split; [reflexivity |]. split; [reflexivity |].
  now repeat split.
Qed.

Lemma add_document_total fuel title content cat source tags t1 t2 kb cs :
  (0 < embedding_dimension kb)%nat ->
  _chunk_document fuel
    (with_document kb
       (make_document md5_hexdigest title content cat source tags t1))
    (make_document md5_hexdigest title content cat source tags t1)
  = Some (Ok cs) ->
  exists kb',
    add_document hash md5_hexdigest fuel title content cat source tags t1 t2 kb
    = Some (Ok (_generate_document_id md5_hexdigest title content), kb').
Proof.
  intros Hd Hcs. unfold add_document. rewrite Hcs.
  cbn [embedding_dimension with_document].
  destruct (generate_chunk_embeddings_spec hash (embedding_dimension kb) cs)
    as [_ Htotal].
  destruct (Htotal Hd) as [vs ->].
  eexists. reflexivity.
Qed.

Lemma stored_chunks_uncategorized id cs :
  uncategorized cs -> uncategorized (imap (store_chunk id) cs).
Proof.
  intros Hcs. apply Forall_forall.
  intros c (i & c0 & -> & Hc0)%elem_of_lookup_imap_1.
  cbn [store_chunk chunk_category].
  eapply Forall_lookup in Hcs; [exact Hcs | exact Hc0].
Qed.

Lemma stored_chunks_have_ids id cs :
  Forall (λ c, is_Some (chunk_id c)) (imap (store_chunk id) cs).
Proof.
  apply Forall_forall. intros c (i & c0 & -> & _)%elem_of_lookup_imap_1.
  cbn [store_chunk chunk_id]. eexists. reflexivity.
Qed.

(** the three facts that [add_document] maintains about the index:
    no stored chunk has a category, every stored chunk has an id, and
    every stored vector is a fallback embedding *)
Definition ingested (kb : KnowledgeBase) : Prop :=
  uncategorized (chunks kb)
  /\ Forall (λ c, is_Some (chunk_id c)) (chunks kb)
  /\ fallback_index hash kb.

Lemma init_ingested : ingested init.
Proof.
  split; [constructor |]. split; [constructor |].
  intros id v H. cbn in H. now rewrite lookup_empty in H.
Qed.

Lemma add_document_ingested fuel title content cat source tags t1 t2 kb id kb' :
  ingested kb ->
  add_document hash md5_hexdigest fuel title content cat source tags t1 t2 kb
  = Some (Ok id, kb') ->
  ingested kb'.
Proof.
  intros (Hcat & Hids & Hidx) Hadd.
  apply add_document_ok in Hadd
    as (cs & vs & Hcs & Hvs & _ & Hchunks & Hembs & _ & Hcfg).
  apply chunk_document_uncategorized in Hcs.
  destruct Hcfg as (Hdim & _).
  split; [| split].
  - rewrite Hchunks. apply Forall_app. split; [exact Hcat |].
    now apply stored_chunks_uncategorized.
  - rewrite Hchunks. apply Forall_app. split; [exact Hids |].
    apply stored_chunks_have_ids.
  - intros k v Hk. rewrite Hembs in Hk. rewrite Hdim.
    apply store_embeddings_lookup in Hk as [Hin | Hold];
      [| exact (Hidx k v Hold)].
    destruct (generate_chunk_embeddings_spec hash (embedding_dimension kb) cs)
      as [Hspec _].
    destruct (Hspec vs Hvs) as [Hall _].
    unfold fallback_vectors in Hall.
    eapply Forall_forall in Hall; [exact Hall | exact Hin].
Qed.

End Ingest.

(** *** Search *)

Local Open Scope R_scope.

(** a scored entry comes from a stored chunk and its stored vector *)
Definition scored_from (kb : KnowledgeBase) (query : string) (qv : list R)
    (category_filter : option string) (cs : list Chunk) (s : Similarity) : Prop :=
  exists chunk id cv,
    chunk ∈ cs /\ chunk_id chunk = Some id /\ embeddings kb !! id = Some cv
    /\ s = score_chunk (similarity_weights kb) query qv category_filter chunk cv.

Lemma score_chunks_from kb query qv category_filter cs : forall sims,
  score_chunks kb query qv category_filter cs = Ok sims ->
  Forall (scored_from kb query qv category_filter cs) sims.
Proof.
  induction cs as [| chunk cs IH]; intros sims; cbn [score_chunks].
  - intros [= <-]. constructor.
  - destruct (chunk_id chunk) as [id |] eqn:Hid; [| discriminate].
    assert (forall l, Forall (scored_from kb query qv category_filter cs) l ->
              Forall (scored_from kb query qv category_filter (chunk :: cs)) l)
      as Hweaken.
    { intros l Hl. eapply Forall_impl; [exact Hl |].
      intros s (c & i & cv & Hin & H).
      exists c, i, cv. split; [now apply elem_of_cons; right | exact H]. }
    destruct (embeddings kb !! id) as [cv |] eqn:Hcv.
    + destruct (score_chunks kb query qv category_filter cs) as [rest | x];
        cbn [result_bind]; [| discriminate].
      intros [= <-]. constructor; [| now apply Hweaken, IH].
      exists chunk, id, cv. split; [apply elem_of_cons; now left |].
      now repeat split.
    + intros H. now apply Hweaken, IH.
Qed.

Lemma score_chunks_total kb query qv category_filter cs :
  Forall (λ c, is_Some (chunk_id c)) cs ->
  exists sims, score_chunks kb query qv category_filter cs = Ok sims.
Proof.
  induction 1 as [| chunk cs [id Hid] _ [rest IH]]; cbn [score_chunks].
  - now exists [].
  - rewrite Hid, IH. destruct (embeddings kb !! id); cbn [result_bind];
      eexists; reflexivity.
Qed.

Lemma insert_desc_keeps (P : Similarity -> Prop) x l :
  P x -> Forall P l -> Forall P (insert_desc x l).
Proof.
  intros Hx. induction 1 as [| y l Hy Hl IH]; cbn.
  - now repeat constructor.
  - destruct (Rlt_dec _ _); now repeat constructor.
Qed.

Lemma sort_desc_keeps (P : Similarity -> Prop) l :
  Forall P l -> Forall P (sort_desc l).
Proof.
  induction 1 as [| x l Hx Hl IH]; cbn; [constructor |].
  now apply insert_desc_keeps.
Qed.

(** the four scores of a result are in the unit interval *)
Definition scores_in_unit (r : SearchResult) : Prop :=
  in_unit (semantic_score r) /\ in_unit (keyword_score r)
  /\ in_unit (category_score r) /\ in_unit (relevance_score r).

(** what [search_knowledge] returns, from the scored list *)
Lemma search_knowledge_unfold hash query limit category_filter kb rs :
  fst (search_knowledge hash query limit category_filter kb) = Ok rs ->
  exists qv sims,
    _simple_embedding hash (embedding_dimension kb) query = Ok qv
    /\ score_chunks kb query qv category_filter (chunks kb) = Ok sims
    /\ rs = format_result
             <$> slice_to
                   (filter (λ r, relevance_threshold kb <= similarity_score r)
                      (sort_desc sims)) limit.
Proof.
  unfold search_knowledge; cbn [fst].
  destruct (_simple_embedding hash _ query) as [qv | x]; cbn [result_bind];
    [| discriminate].
  destruct (score_chunks kb query qv category_filter (chunks kb))
    as [sims | x] eqn:Hsims; cbn [result_bind]; [| discriminate].
  intros [= <-]. exists qv, sims. now repeat split.
Qed.

(** Over the reals, with the default weights and an index whose stored
    vectors are fallback embeddings: for every query and every stored
    chunk the cosine, keyword and category scores and the combined score
    that the loop of [search_knowledge] computes are in [0,1]; so are
    the four scores of every result that [search_knowledge] returns; and
    it returns (a possibly empty list) when the dimension is positive
    and every chunk has an id.  This is the arithmetic without rounding:
    what the binary64 code adds to it is rounding alone, and with
    rounding the cosine passes 1 ([Binary64Facts.self_match_exceeds_one]). *)
Lemma real_scores_in_unit_interval (hash : string -> Z) (kb : KnowledgeBase)
    (query : string) (category_filter : option string) :
  similarity_weights kb = default_weights ->
  fallback_index hash kb ->
  (forall qv chunk id cv,
      _simple_embedding hash (embedding_dimension kb) query = Ok qv ->
      chunk ∈ chunks kb -> chunk_id chunk = Some id ->
      embeddings kb !! id = Some cv ->
      let r := score_chunk (similarity_weights kb) query qv category_filter
                 chunk cv in
      in_unit (semantic_similarity r) /\ in_unit (keyword_similarity r)
      /\ in_unit (category_similarity r) /\ in_unit (similarity_score r))
  /\ (forall limit rs,
        fst (search_knowledge hash query limit category_filter kb) = Ok rs ->
        Forall scores_in_unit rs)
  /\ ((0 < embedding_dimension kb)%nat ->
      Forall (λ c, is_Some (chunk_id c)) (chunks kb) ->
      forall limit, exists rs,
          fst (search_knowledge hash query limit category_filter kb) = Ok rs).
Proof.
  intros Hw Hidx.
  assert (forall qv chunk id cv,
      _simple_embedding hash (embedding_dimension kb) query = Ok qv ->
      embeddings kb !! id = Some cv ->
      let r := score_chunk (similarity_weights kb) query qv category_filter
                 chunk cv in
      in_unit (semantic_similarity r) /\ in_unit (keyword_similarity r)
      /\ in_unit (category_similarity r) /\ in_unit (similarity_score r))
    as Hchunk.
  { intros qv chunk id cv Hqv Hcv. rewrite Hw.
    apply score_chunk_in_unit.
    - exact (simple_embedding_nonneg hash _ query qv Hqv).
    - destruct (Hidx id cv Hcv) as [text Htext].
      exact (simple_embedding_nonneg hash _ text cv Htext). }
  split; [| split].
  - intros qv chunk id cv Hqv _ _ Hcv. now apply (Hchunk qv chunk id cv).
  - intros limit rs (qv & sims & Hqv & Hsims & ->)%search_knowledge_unfold.
    apply Forall_fmap, slice_to_Forall.
    apply Forall_forall. intros s [_ Hs]%list_elem_of_filter.
    assert (Forall (scored_from kb query qv category_filter (chunks kb))
              (sort_desc sims)) as Hall
      by now apply sort_desc_keeps, score_chunks_from.
    eapply Forall_forall in Hall; [| exact Hs].
    destruct Hall as (chunk & id & cv & _ & _ & Hcv & ->).
    exact (Hchunk qv chunk id cv Hqv Hcv).
  - intros Hd Hids limit. unfold search_knowledge; cbn [fst].
    destruct (simple_embedding_total hash (embedding_dimension kb) query Hd)
      as [qv ->].
    cbn [result_bind].
    destruct (score_chunks_total kb query qv category_filter (chunks kb) Hids)
      as [sims ->].
    cbn [result_bind]. eexists. reflexivity.
Qed.

(** *** The category filter on ingested chunks *)

Lemma uncategorized_penalized (category_filter : option string) (chunk : Chunk) :
  chunk_category chunk = None ->
  penalized category_filter chunk = supplied category_filter.
Proof.
  intros Hc. unfold penalized, supplied. rewrite Hc.
  destruct category_filter as [[| a f] |]; reflexivity.
Qed.

Lemma score_chunks_filter_irrelevant kb query qv f1 f2 cs :
  uncategorized cs -> supplied f1 = supplied f2 ->
  score_chunks kb query qv f1 cs = score_chunks kb query qv f2 cs.
Proof.
  intros Hcs Hf. induction Hcs as [| chunk cs Hc _ IH]; [reflexivity |].
  cbn [score_chunks]. rewrite IH.
  destruct (chunk_id chunk) as [id |]; [| reflexivity].
  destruct (embeddings kb !! id) as [cv |]; [| reflexivity].
  unfold score_chunk. now rewrite !(uncategorized_penalized _ chunk Hc), Hf.
Qed.

(** on an index filled by [add_document], any two supplied filters give
    the same search result: the filter never matches *)
Lemma filter_value_irrelevant hash kb query limit f1 f2 :
  uncategorized (chunks kb) -> supplied f1 = supplied f2 ->
  search_knowledge hash query limit f1 kb
  = search_knowledge hash query limit f2 kb.
Proof.
  intros Hcs Hf. unfold search_knowledge. f_equal.
  destruct (_simple_embedding hash _ query) as [qv | x]; [| reflexivity].
  cbn [result_bind].
  now rewrite (score_chunks_filter_irrelevant kb query qv f1 f2 _ Hcs Hf).
Qed.

Section FluDocument.

Variable hash : string -> Z.
Variable md5_hexdigest : string -> string.
Variables t1 t2 : Z.

Definition flu_title : string := "Flu care".
Definition flu_content : string := "Rest and fluids help. See a doctor!".

(** a document of category "treatment", added to the empty index *)
Definition flu_ingest : option (result string * KnowledgeBase) :=
  add_document hash md5_hexdigest 1 flu_title flu_content "treatment"
    "manual" None t1 t2 init.

Definition flu_id : string :=
  _generate_document_id md5_hexdigest flu_title flu_content.

(** the one chunk that the sentence-aware chunker produces, as stored *)
Definition flu_chunk : Chunk :=
  {| chunk_content := "Rest and fluids help See a doctor";
     chunk_title := flu_title;
     chunk_type := "medical_paragraph";
     sentence_count := Some 2%nat;
     paragraph_index := None;
     start_pos := None;
     end_pos := None;
     chunk_id := Some (flu_id ++ "_chunk_0")%string;
     chunk_document_id := Some flu_id;
     chunk_index := Some 0%nat;
     chunk_category := None |}.

Lemma flu_chunked :
  let document :=
    make_document md5_hexdigest flu_title flu_content "treatment" "manual"
      None t1 in
  _chunk_document 1 (with_document init document) document
  = Some (Ok [sentence_chunk "Rest and fluids help See a doctor" flu_title
                "medical_paragraph" 2]).
Proof. reflexivity. Qed.

Lemma flu_ingest_ok :
  exists kb cv,
    flu_ingest = Some (Ok flu_id, kb)
    /\ documents kb
      = [make_document md5_hexdigest flu_title flu_content "treatment"
           "manual" None t1]
    /\ chunks kb = [flu_chunk]
    /\ embeddings kb = {[ (flu_id ++ "_chunk_0")%string := cv ]}
    /\ _simple_embedding hash 384 (chunk_content flu_chunk) = Ok cv
    /\ same_configuration init kb.
Proof.
  destruct (simple_embedding_total hash 384 (chunk_content flu_chunk))
    as [cv Hcv]; [lia |].
  unfold flu_ingest, add_document. cbv zeta. rewrite flu_chunked.
  cbn [embedding_dimension with_document init].
  unfold _generate_chunk_embeddings; cbn [result_map].
  change (chunk_content (sentence_chunk _ _ _ _))
    with (chunk_content flu_chunk).
  rewrite Hcv. cbn [result_bind].
  eexists. exists cv.
  split; [reflexivity |]. split; [reflexivity |]. split; [reflexivity |].
  split; [reflexivity |]. split; [reflexivity |].
  now repeat split.
Qed.

End FluDocument.

(** C3. The specification requires that a chunk ingested from a document
    whose category equals the supplied filter is not penalized.
    [add_document] stores the category on the document only, so the chunk
    dictionary has no 'category' key and [chunk.get('category')] is
    [None]: the document below has category "treatment", and searching
    with the filter "treatment" halves the combined score of its chunk,
    exactly as the non-matching filter "prevention" does. *)
Theorem matching_filter_is_penalized (hash : string -> Z)
    (md5_hexdigest : string -> string) (t1 t2 : Z) :
  exists kb d c id cv,
    add_document hash md5_hexdigest 1 "Flu care"
      "Rest and fluids help. See a doctor!" "treatment" "manual" None t1 t2 init
    = Some (Ok (doc_id d), kb)
    /\ documents kb = [d] /\ doc_category d = "treatment"%string
    /\ chunks kb = [c] /\ chunk_document_id c = Some (doc_id d)
    /\ chunk_id c = Some id /\ embeddings kb !! id = Some cv
    /\ (forall query qv,
          similarity_score
            (score_chunk (similarity_weights kb) query qv (Some "treatment") c cv)
          = combined (similarity_weights kb) query qv c cv * 0.5)
    /\ (forall query limit,
          search_knowledge hash query limit (Some "treatment") kb
          = search_knowledge hash query limit (Some "prevention") kb).
Proof.
  destruct (flu_ingest_ok hash md5_hexdigest t1 t2)
    as (kb & cv & Hok & Hdocs & Hchunks & Hembs & _ & _).
  exists kb, (make_document md5_hexdigest flu_title flu_content "treatment"
                "manual" None t1),
    (flu_chunk md5_hexdigest), (flu_id md5_hexdigest ++ "_chunk_0")%string, cv.
  split; [exact Hok |]. split; [exact Hdocs |]. split; [reflexivity |].
  split; [exact Hchunks |]. split; [reflexivity |]. split; [reflexivity |].
  split; [rewrite Hembs; apply lookup_singleton_eq |].
  split.
  - intros query qv. reflexivity.
  - intros query limit. apply filter_value_irrelevant; [| reflexivity].
    rewrite Hchunks. now repeat constructor.
Qed.

(** an index to test on: the flu document under a simple hash *)
Definition demo_hash (word : string) : Z := Z.of_nat (String.length word).

Definition demo_md5 (text : string) : string :=
  "9e107d9d372bb6826bd81d3542a419d6".

Definition demo_kb : KnowledgeBase :=
  match flu_ingest demo_hash demo_md5 0 0 with
  | Some (_, kb) => kb
  | None => init
  end.

Lemma demo_kb_spec :
  similarity_weights demo_kb = default_weights
  /\ embedding_dimension demo_kb = 384%nat
  /\ chunks demo_kb = [flu_chunk demo_md5]
  /\ ingested demo_hash demo_kb.
Proof.
  unfold demo_kb.
  destruct (flu_ingest_ok demo_hash demo_md5 0 0)
    as (kb & cv & Hok & _ & Hchunks & _ & _ & Hcfg).
  rewrite Hok.
  destruct Hcfg as (Hdim & _ & _ & _ & _ & Hw).
  split; [exact Hw |]. split; [exact Hdim |]. split; [exact Hchunks |].
  apply (add_document_ingested demo_hash demo_md5 _ _ _ _ _ _ _ _ _ _ _
           (init_ingested demo_hash) Hok).
Qed.

End KnowledgeFacts.

(** * Further properties *)

(** ** The memory manager: keywords, context, frame *)

Module MemoryExtra.
Import Memory MemoryFacts.

(** X1. The keywords of a text are at most ten, each is one of the
    lower-cased words of the text, has more than two characters and is no
    stop word. *)
Theorem extract_keywords_wellformed (text : string) :
  length (_extract_keywords text) <= 10
  /\ Forall (λ k, k ∈ PyStr.split (PyStr.lower text)
                  /\ (k ∉ stop_words) /\ 2 < PyStr.len k)
       (_extract_keywords text).
Proof.
  unfold _extract_keywords. split.
  - rewrite length_take. lia.
  - apply Forall_take, Forall_forall. intros k [Hk Hin]%list_elem_of_filter.
    apply andb_true_iff in Hk as [Hstop Hlen].
    split; [exact Hin |]. split.
    + intros Hmem. unfold PyStr.mem in Hstop.
      rewrite (bool_decide_eq_true_2 _ Hmem) in Hstop. discriminate.
    + now apply Nat.ltb_lt in Hlen.
Qed.

(** the conversation context that a turn leaves for its session *)
Definition flow_item_of (e : MemoryEntry) : FlowItem :=
  mkFlowItem (timestamp e) (PyStr.take 50 (user_message e) ++ "...")%string
    (sentiment e).

Lemma update_context_lookup sid e w :
  let contexts := conversation_contexts (mgr w) in
  let contexts' :=
    conversation_contexts (mgr (snd (_update_conversation_context sid e w))) in
  (exists ctx,
      contexts' !! sid = Some ctx
      /\ 1 <= length (conversation_flow ctx) <= 20
      /\ last (conversation_flow ctx) = Some (flow_item_of e)
      /\ current_topic ctx
         = match keywords e with
           | k :: _ => k
           | [] => current_topic (default default_context (contexts !! sid))
           end)
  /\ forall s, s <> sid -> contexts' !! s = contexts !! s.
Proof.
  unfold _update_conversation_context, modify; cbn [snd mgr].
  unfold set_conversation_contexts; cbn [conversation_contexts].
  split.
  - eexists. split; [apply lookup_insert_eq |].
    cbn [conversation_flow current_topic]. fold (flow_item_of e).
    set (flow := conversation_flow _ ++ [flow_item_of e]).
    assert (length flow = S (length (conversation_flow
              (default default_context (conversation_contexts (mgr w) !! sid)))))
      as Hlen by (subst flow; rewrite length_app; cbn; lia).
    assert (last flow = Some (flow_item_of e)) as Hlast
      by (subst flow; apply last_snoc).
    split; [| split; [| reflexivity]].
    + destruct (Nat.ltb_spec 20 (length flow)) as [Hlong | Hshort].
      * rewrite length_drop. lia.
      * lia.
    + destruct (Nat.ltb_spec 20 (length flow)) as [Hlong | Hshort];
        [| exact Hlast].
      rewrite last_lookup, length_drop, lookup_drop.
      rewrite last_lookup in Hlast. rewrite <- Hlast. f_equal. lia.
  - intros s Hs. now apply lookup_insert_ne.
Qed.

(** X2. After a call of [add_session_memory] that returns, the session
    has a conversation context whose flow holds between 1 and 20 items
    and ends with this turn (its time, the first 50 characters of the
    message followed by "...", its sentiment); the current topic is the
    first keyword of the message, or the previous topic when the message
    has no keyword; the contexts of the other sessions are as before. *)
Theorem conversation_flow_bounded clock sid msg resp ctx uid w :
  match _calculate_relevance_score msg with
  | Ok score =>
      let e := entry clock sid msg resp ctx uid w score in
      exists w' c,
        add_session_memory clock sid msg resp ctx uid w = (Ok tt, w')
        /\ conversation_contexts (mgr w') !! sid = Some c
        /\ 1 <= length (conversation_flow c) <= 20
        /\ last (conversation_flow c) = Some (flow_item_of e)
        /\ current_topic c
           = match _extract_keywords msg with
             | k :: _ => k
             | [] => current_topic
                       (default default_context
                          (conversation_contexts (mgr w) !! sid))
             end
        /\ forall s, s <> sid ->
                     conversation_contexts (mgr w') !! s
                     = conversation_contexts (mgr w) !! s
  | Raise _ => PyStr.split (PyStr.lower msg) = []
  end.
Proof.
  destruct (_calculate_relevance_score msg) as [score | x] eqn:Hscore.
  - intros e.
    destruct (update_context_lookup sid e w) as ((c & Hc & Hlen & Hlast & Htopic) & Hother).
    exists (world_after clock sid msg resp ctx uid w score), c.
    split; [now apply add_session_memory_ok |].
    unfold world_after; cbn [mgr conversation_contexts].
    fold e. now repeat split.
  - now apply score_raises_inv in Hscore.
Qed.

Lemma sessions_appended_lookup clock sid msg resp ctx uid w score s :
  default [] (sessions_appended clock sid msg resp ctx uid w score !! s)
  = default [] (session_memories (mgr w) !! s)
    ++ (if decide (s = sid) then [entry clock sid msg resp ctx uid w score]
        else []).
Proof.
  unfold sessions_appended. destruct (decide (s = sid)) as [-> | Hs].
  - now rewrite lookup_insert_eq.
  - rewrite lookup_insert_ne by congruence. now rewrite app_nil_r.
Qed.

(** X3. Promotion is a copy, not a move.  After a call that returns, the
    session holds the retention sweep of its old entries followed by the
    new turn, whether or not the turn was promoted; when the turn is
    inside the retention window it is the last entry of its session, with
    type "session", and if it passed the gate the last long-term entry is
    its copy with type "long_term" and a promotion time. *)
Theorem promotion_keeps_session_copy clock sid msg resp ctx uid w :
  match _calculate_relevance_score msg with
  | Ok score =>
      let e := entry clock sid msg resp ctx uid w score in
      let c := cutoff clock sid msg resp ctx uid w score in
      exists w',
        add_session_memory clock sid msg resp ctx uid w = (Ok tt, w')
        /\ session_memories (mgr w') !! sid
           = kept (filter (newer_than c)
                     (default [] (session_memories (mgr w) !! sid) ++ [e]))
        /\ ((c < timestamp e)%Z ->
            last (default [] (session_memories (mgr w') !! sid)) = Some e
            /\ memory_type e = Session
            /\ (promotable score (_extract_keywords msg) ->
                exists t, last (long_term_memories (mgr w'))
                          = Some (promoted_copy e t)
                          /\ memory_type (promoted_copy e t) = LongTerm
                          /\ promoted_at (promoted_copy e t) = Some t))
  | Raise _ => PyStr.split (PyStr.lower msg) = []
  end.
Proof.
  destruct (_calculate_relevance_score msg) as [score | x] eqn:Hscore;
    [| now apply score_raises_inv in Hscore].
  intros e c.
  exists (world_after clock sid msg resp ctx uid w score).
  split; [now apply add_session_memory_ok |].
  assert (session_memories (mgr (world_after clock sid msg resp ctx uid w score))
          !! sid
          = kept (filter (newer_than c)
                    (default [] (session_memories (mgr w) !! sid) ++ [e])))
    as Hsession.
  { unfold world_after; cbn [mgr session_memories].
    rewrite sweep_sessions_lookup, sessions_appended_lookup.
    now rewrite decide_True by reflexivity. }
  split; [exact Hsession |].
  intros Hnew.
  assert (newer_than c e) as He by exact Hnew.
  split; [| split; [reflexivity |]].
  - rewrite Hsession, filter_app, (filter_cons_True _ e []) by exact He.
    rewrite filter_nil.
    destruct (filter (newer_than c) _ ++ [e]) as [| y l] eqn:Hl.
    + symmetry in Hl. now apply app_cons_not_nil in Hl.
    + cbn [kept default from_option]. unfold Datatypes.id.
      rewrite <- Hl. apply last_snoc.
  - intros Hp.
    destruct (long_term_after clock sid msg resp ctx uid w score) as [Hlt _].
    fold e c in Hlt. rewrite (Hlt Hp).
    eexists. split; [| split; reflexivity].
    rewrite filter_app, (filter_cons_True _ _ []) by exact He.
    rewrite filter_nil. apply last_snoc.
Qed.

(** X4. What a call of [add_session_memory] that returns leaves alone:
    the profile of every user but the caller's (and every profile when no
    user is named), every entry of another session and of the long-term
    store that is inside the retention window, in its order, and the
    configuration. *)
Theorem add_session_memory_frame clock sid msg resp ctx uid w :
  match _calculate_relevance_score msg with
  | Ok score =>
      let c := cutoff clock sid msg resp ctx uid w score in
      exists w',
        add_session_memory clock sid msg resp ctx uid w = (Ok tt, w')
        /\ (forall v, v <> or_anonymous uid ->
                      user_profiles (mgr w') !! v = user_profiles (mgr w) !! v)
        /\ (truthy uid = false -> user_profiles (mgr w') = user_profiles (mgr w))
        /\ (forall s, s <> sid ->
                      session_memories (mgr w') !! s
                      = kept (filter (newer_than c)
                                (default [] (session_memories (mgr w) !! s))))
        /\ filter (newer_than c) (long_term_memories (mgr w))
           `prefix_of` long_term_memories (mgr w')
        /\ max_context_window (mgr w') = max_context_window (mgr w)
        /\ memory_retention_days (mgr w') = memory_retention_days (mgr w)
        /\ relevance_threshold (mgr w') = relevance_threshold (mgr w)
  | Raise _ => PyStr.split (PyStr.lower msg) = []
  end.
Proof.
  destruct (_calculate_relevance_score msg) as [score | x] eqn:Hscore;
    [| now apply score_raises_inv in Hscore].
  intros c.
  exists (world_after clock sid msg resp ctx uid w score).
  split; [now apply add_session_memory_ok |].
  unfold world_after; project.
  fold (cutoff clock sid msg resp ctx uid w score). fold c.
  split; [| split; [| split; [| split]]].
  - intros v Hv. unfold profiles_step.
    destruct (truthy uid); [| reflexivity].
    destruct (user_profiles (mgr w) !! or_anonymous uid); cbn [fst];
      now rewrite lookup_insert_ne by congruence.
  - intros Hu. unfold profiles_step. now rewrite Hu.
  - intros s Hs. rewrite sweep_sessions_lookup, sessions_appended_lookup.
    rewrite decide_False by exact Hs. now rewrite app_nil_r.
  - unfold promotion_step.
    destruct (_should_promote_to_long_term _); cbn [fst].
    + rewrite filter_app. now apply prefix_app_r.
    + reflexivity.
  - now repeat split.
Qed.

(** *** Invariants over sequences of calls *)

Lemma run_invariant (Inv : World -> Prop) clock :
  (forall w c, Inv w -> Inv (step clock w c)) ->
  forall cs w, Inv w -> Inv (run clock cs w).
Proof.
  intros Hstep cs. induction cs as [| c cs IH]; intros w Hw; [exact Hw |].
  apply IH, Hstep, Hw.
Qed.

(** one call, as a case distinction on the score of the message *)
Lemma step_cases clock w c :
  (exists score,
      _calculate_relevance_score (call_message c) = Ok score
      /\ step clock w c
         = world_after clock (call_session c) (call_message c) (call_response c)
             (call_context c) (call_user c) w score)
  \/ (PyStr.split (PyStr.lower (call_message c)) = []
      /\ step clock w c = mkWorld (mgr w) (S (ticks w))).
Proof.
  unfold step.
  destruct (_calculate_relevance_score (call_message c)) as [score | x] eqn:Hscore.
  - left. exists score. split; [reflexivity |].
    now rewrite (add_session_memory_ok _ _ _ _ _ _ _ _ Hscore).
  - right. rewrite (add_session_memory_raises _ _ _ _ _ _ _ _ Hscore).
    now apply score_raises_inv in Hscore as [_ ->].
Qed.

(** an entry as [_promote_to_long_term] stores it *)
Definition promoted_entry (e : MemoryEntry) : Prop :=
  memory_type e = LongTerm /\ is_Some (promoted_at e)
  /\ promotable (relevance_score e) (keywords e).

(** an entry as [add_session_memory] stores it under session [s] *)
Definition session_entry (s : string) (e : MemoryEntry) : Prop :=
  memory_type e = Session /\ promoted_at e = None
  /\ similarity_score e = None /\ session_id e = s
  /\ keywords e = _extract_keywords (user_message e)
  /\ sentiment e = _analyze_sentiment (user_message e)
  /\ _calculate_relevance_score (user_message e) = Ok (relevance_score e).

Definition stores_wellformed (w : World) : Prop :=
  Forall promoted_entry (long_term_memories (mgr w))
  /\ forall s l, session_memories (mgr w) !! s = Some l ->
                 l <> [] /\ Forall (session_entry s) l.

Lemma stores_wellformed_step clock w c :
  stores_wellformed w -> stores_wellformed (step clock w c).
Proof.
  intros [Hlt Hsess].
  destruct (step_cases clock w c) as [(score & Hscore & ->) | [_ ->]];
    [| now split].
  destruct c as [sid msg resp ctx uid];
    cbn [call_session call_message call_response call_context call_user] in *.
  unfold stores_wellformed, world_after; project. split.
  - apply Forall_forall. intros e [_ He]%list_elem_of_filter.
    unfold promotion_step in He.
    destruct (_should_promote_to_long_term _) eqn:Hgate; cbn [fst] in He.
    + apply elem_of_app in He as [He | He%list_elem_of_singleton].
      * eapply Forall_forall in Hlt; [exact Hlt | exact He].
      * subst e. split; [reflexivity |]. split; [eexists; reflexivity |].
        now apply should_promote_iff in Hgate.
    + eapply Forall_forall in Hlt; [exact Hlt | exact He].
  - intros s l. rewrite sweep_sessions_lookup. intros [-> Hne]%kept_Some.
    split; [exact Hne |].
    apply Forall_forall. intros e [_ He]%list_elem_of_filter.
    rewrite sessions_appended_lookup in He.
    apply elem_of_app in He as [He | He].
    + destruct (session_memories (mgr w) !! s) as [l |] eqn:Hl;
        [| now apply elem_of_nil in He].
      destruct (Hsess s l Hl) as [_ Hall].
      eapply Forall_forall in Hall; [exact Hall | exact He].
    + destruct (decide (s = sid)) as [-> | _];
        [| now apply elem_of_nil in He].
      apply list_elem_of_singleton in He. subst e.
      now repeat split.
Qed.

(** X5. Starting from the object that [__init__] builds, after any
    sequence of [add_session_memory] calls: every long-term entry has type
    "long_term", a promotion time and passes the promotion gate (score
    above 0.8 or a priority keyword); every session is non-empty and each
    of its entries has type "session", no promotion time, the id of the
    session it is stored under, and the score, keywords and sentiment
    that the three analysers give for its message. *)
Theorem stores_hold_what_was_written clock (cs : list Call) (t0 : nat) :
  let m := mgr (run clock cs (mkWorld init t0)) in
  Forall promoted_entry (long_term_memories m)
  /\ forall s l, session_memories m !! s = Some l ->
                 l <> [] /\ Forall (session_entry s) l.
Proof.
  apply (run_invariant stores_wellformed clock (stores_wellformed_step clock)).
  split; [constructor |].
  intros s l H. cbn in H. now rewrite lookup_empty in H.
Qed.

(** *** Profiles *)

(** a profile as the turns of its user leave it *)
Definition profile_wellformed (p : UserProfile) : Prop :=
  positive (sentiment_distribution p) + negative (sentiment_distribution p)
  + neutral (sentiment_distribution p) = total_messages p
  /\ map_Forall (λ _ n, 0 < n) (health_interests p)
  /\ profile_user_id p = "anonymous"%string.

Lemma bump_interest_positive (interests : gmap string nat) keyword :
  map_Forall (λ _ n, 0 < n) interests ->
  map_Forall (λ _ n, 0 < n) (bump_interest interests keyword).
Proof.
  intros H. unfold bump_interest.
  destruct (interests !! keyword); apply map_Forall_insert_2; (lia || exact H).
Qed.

Lemma record_turn_wellformed p e :
  profile_wellformed p -> profile_wellformed (record_turn p e).
Proof.
  intros (Hsum & Hpos & Hid). unfold profile_wellformed, record_turn;
    cbn [sentiment_distribution total_messages health_interests profile_user_id].
  split; [| split; [| exact Hid]].
  - destruct (sentiment e); cbn; lia.
  - revert Hpos. generalize (health_interests p).
    induction (keywords e) as [| k ks IH]; intros hi Hhi; cbn [foldl];
      [exact Hhi |].
    now apply IH, bump_interest_positive.
Qed.

Lemma default_profile_wellformed now :
  profile_wellformed (_create_default_profile now).
Proof.
  split; [reflexivity |]. split; [apply map_Forall_empty | reflexivity].
Qed.

Definition profiles_wellformed (w : World) : Prop :=
  map_Forall (λ _ p, profile_wellformed p) (user_profiles (mgr w)).

Lemma profiles_wellformed_step clock w c :
  profiles_wellformed w -> profiles_wellformed (step clock w c).
Proof.
  intros Hw.
  destruct (step_cases clock w c) as [(score & Hscore & ->) | [_ ->]];
    [| exact Hw].
  unfold profiles_wellformed, world_after; project. unfold profiles_step.
  destruct (truthy (call_user c)); [| exact Hw].
  destruct (user_profiles (mgr w) !! or_anonymous (call_user c)) as [p |] eqn:Hp;
    cbn [fst]; apply map_Forall_insert_2; try exact Hw;
    apply record_turn_wellformed.
  - exact (Hw _ _ Hp).
  - apply default_profile_wellformed.
Qed.

(** X6. Starting from the object that [__init__] builds, after any
    sequence of [add_session_memory] calls, in every stored profile the
    three sentiment counters add up to [total_messages], every recorded
    health interest has a positive count, and the field [user_id] still
    holds "anonymous": the profile is found by its key only. *)
Theorem profiles_stay_wellformed clock (cs : list Call) (t0 : nat) :
  map_Forall (λ _ p, profile_wellformed p)
    (user_profiles (mgr (run clock cs (mkWorld init t0)))).
Proof.
  apply (run_invariant profiles_wellformed clock (profiles_wellformed_step clock)).
  apply map_Forall_empty.
Qed.

(** *** Chronological order *)

Definition not_after (a b : MemoryEntry) : Prop := (timestamp a <= timestamp b)%Z.

Lemma StronglySorted_filter_keeps {A} (R : relation A) (P : A -> Prop)
    `{!forall x, Decision (P x)} (l : list A) :
  StronglySorted R l -> StronglySorted R (filter P l).
Proof.
  induction 1 as [| x l Hl IH Hx]; [constructor |].
  rewrite filter_cons. destruct (decide (P x)); [| exact IH].
  constructor; [exact IH |].
  apply Forall_forall. intros y [_ Hy]%list_elem_of_filter.
  eapply Forall_forall in Hx; [exact Hx | exact Hy].
Qed.

(** the sessions are in time order and nothing is dated after the clock *)
Definition chronological (clock : nat -> Z) (w : World) : Prop :=
  forall s l, session_memories (mgr w) !! s = Some l ->
              StronglySorted not_after l
              /\ Forall (λ e, (timestamp e <= clock (ticks w))%Z) l.

Lemma chronological_step clock w c :
  (forall i, (clock i <= clock (S i))%Z) ->
  chronological clock w -> chronological clock (step clock w c).
Proof.
  intros Hmono Hw.
  assert (forall i j, i <= j -> (clock i <= clock j)%Z) as Hle.
  { intros i j Hij. induction Hij as [| j _ IH]; [lia |].
    specialize (Hmono j). lia. }
  destruct (step_cases clock w c) as [(score & Hscore & ->) | [_ ->]].
  - destruct c as [sid msg resp ctx uid];
      cbn [call_session call_message call_response call_context call_user] in *.
    intros s l. unfold world_after; project.
    rewrite sweep_sessions_lookup. intros [-> _]%kept_Some.
    rewrite sessions_appended_lookup.
    assert (StronglySorted not_after
              (default [] (session_memories (mgr w) !! s))
            /\ Forall (λ e, (timestamp e <= clock (ticks w))%Z)
                 (default [] (session_memories (mgr w) !! s))) as [Hs Hb].
    { destruct (session_memories (mgr w) !! s) as [l |] eqn:Hl.
      - exact (Hw s l Hl).
      - split; constructor. }
    assert (ticks w <= snd (promotion_step clock sid msg resp ctx uid w score))
      as Hticks.
    { unfold promotion_step, profiles_step.
      destruct (truthy uid);
        [destruct (user_profiles (mgr w) !! or_anonymous uid) |];
        destruct (_should_promote_to_long_term _); cbn [snd]; lia. }
    assert (clock (ticks w)
            <= clock (S (snd (promotion_step clock sid msg resp ctx uid w score))))%Z
      as Hclock by (apply Hle; lia).
    split.
    + apply StronglySorted_filter_keeps, StronglySorted_app_2.
      * intros x1 x2 Hx1 Hx2.
        destruct (decide (s = sid)); [| now apply elem_of_nil in Hx2].
        apply list_elem_of_singleton in Hx2. subst x2.
        eapply Forall_forall in Hb; [| exact Hx1]. exact Hb.
      * exact Hs.
      * destruct (decide (s = sid)); repeat constructor.
    + apply Forall_forall. intros e [_ He]%list_elem_of_filter.
      apply elem_of_app in He as [He | He].
      * eapply Forall_forall in Hb; [| exact He]. cbn beta in Hb. lia.
      * destruct (decide (s = sid)); [| now apply elem_of_nil in He].
        apply list_elem_of_singleton in He. subst e. exact Hclock.
  - intros s l Hl. cbn [mgr ticks] in *. destruct (Hw s l Hl) as [Hs Hb].
    split; [exact Hs |].
    eapply Forall_impl; [exact Hb |]. intros e He. cbn beta in He.
    specialize (Hmono (ticks w)). lia.
Qed.

(** X7. When successive readings of the clock never go back, then,
    starting from the object that [__init__] builds, after any sequence of
    [add_session_memory] calls the entries of every session are in the
    order of their timestamps. *)
Theorem sessions_in_time_order clock (cs : list Call) (t0 : nat) :
  (forall i, (clock i <= clock (S i))%Z) ->
  map_Forall (λ _ l, StronglySorted not_after l)
    (session_memories (mgr (run clock cs (mkWorld init t0)))).
Proof.
  intros Hmono.
  assert (chronological clock (run clock cs (mkWorld init t0))) as H.
  { apply (run_invariant (chronological clock) clock).
    - intros w c. now apply chronological_step.
    - intros s l Hl. cbn in Hl. now rewrite lookup_empty in Hl. }
  intros s l Hl. exact (proj1 (H s l Hl)).
Qed.

Lemma sessions_in_time_order_witness :
  (forall i, (Z.of_nat i <= Z.of_nat (S i))%Z)
  /\ map_Forall (λ _ l, StronglySorted not_after l)
       (session_memories
          (mgr (run (λ n, Z.of_nat n)
                  [mkCall "s1" "I have a mild headache" "ok" None (Some "alice");
                   mkCall "s1" "the pain is worse today" "ok" None (Some "alice")]
                  (mkWorld init 0)))).
Proof.
  split; [intros i; lia |].
  apply (sessions_in_time_order (λ n, Z.of_nat n)). intros i. lia.
Defined.

(** *** Erasing twice *)

Lemma sweep_sessions_twice (P : MemoryEntry -> Prop) `{!forall x, Decision (P x)}
    (sessions : gmap string (list MemoryEntry)) :
  sweep_sessions P (sweep_sessions P sessions) = sweep_sessions P sessions.
Proof.
  apply map_eq. intros s. rewrite !sweep_sessions_lookup.
  destruct (filter P (default [] (sessions !! s))) as [| x l] eqn:Hf;
    cbn [kept default from_option]; [reflexivity |].
  unfold Datatypes.id. rewrite <- Hf.
  rewrite list_filter_filter.
  rewrite (list_filter_iff (λ x, P x /\ P x) P) by tauto.
  now rewrite Hf.
Qed.

(** X8. [clear_user_data] is idempotent, and erasing two users gives the
    same object in either order. *)
Theorem clear_user_data_idempotent (u v : string) (m : MemoryManager) :
  clear_user_data u (clear_user_data u m) = clear_user_data u m
  /\ clear_user_data u (clear_user_data v m)
     = clear_user_data v (clear_user_data u m).
Proof.
  unfold clear_user_data; unfold_setters. split.
  - f_equal.
    + apply sweep_sessions_twice.
    + rewrite list_filter_filter. apply list_filter_iff. tauto.
    + apply map_eq. intros k. destruct (decide (k = u)) as [-> | Hk].
      * now rewrite !lookup_delete_eq.
      * now rewrite !lookup_delete_ne by congruence.
  - f_equal.
    + apply map_eq. intros s. rewrite !sweep_sessions_lookup.
      assert (forall (a : string) l,
                 default [] (kept (filter (λ e, user_id e <> a) l))
                 = filter (λ e, user_id e <> a) l) as Hk.
      { intros a l. now destruct (filter _ l). }
      rewrite (Hk v), (Hk u), !list_filter_filter.
      f_equal. apply list_filter_iff. tauto.
    + rewrite !list_filter_filter. apply list_filter_iff. tauto.
    + apply map_eq. intros k. rewrite !lookup_delete.
      repeat case_decide; reflexivity.
Qed.

(** *** Session context *)

Lemma insert_context_Permutation x l : insert_context x l ≡ₚ x :: l.
Proof.
  induction l as [| y l IH]; cbn; [reflexivity |].
  destruct (context_key_lt x y); [| reflexivity].
  rewrite IH. apply Permutation_swap.
Qed.

Lemma sort_context_Permutation l : sort_context l ≡ₚ l.
Proof.
  induction l as [| x l IH]; cbn; [reflexivity |].
  now rewrite insert_context_Permutation, IH.
Qed.

Lemma slice_to_submseteq {A} (l : list A) (limit : Z) : slice_to l limit ⊆+ l.
Proof.
  unfold slice_to. destruct (limit <? 0)%Z; apply sublist_submseteq, sublist_take.
Qed.

Lemma slice_to_length {A} (l : list A) (limit : Z) :
  (0 <= limit)%Z -> length (slice_to l limit) = Nat.min (Z.to_nat limit) (length l).
Proof.
  intros Hl. unfold slice_to.
  destruct (Z.ltb_spec limit 0); [lia |]. apply length_take.
Qed.

(** X9. [get_session_context] gives the empty list for an unknown
    session.  For a known one it gives entries of that session only, each
    at most as often as the session holds it; for a limit that is not
    negative it gives as many as the limit allows.  A limit of 0 is taken
    as no limit given: the window size ([max_context_window]) applies. *)
Theorem session_context_of_session (m : MemoryManager) (sid : string)
    (limit : option Z) :
  match session_memories m !! sid with
  | None => get_session_context m sid limit = []
  | Some memories =>
      get_session_context m sid limit ⊆+ memories
      /\ ((0 <= limit_or_window m limit)%Z ->
          length (get_session_context m sid limit)
          = Nat.min (Z.to_nat (limit_or_window m limit)) (length memories))
  end
  /\ get_session_context m sid (Some 0%Z) = get_session_context m sid None
  /\ get_session_context m sid None
     = get_session_context m sid (Some (Z.of_nat (max_context_window m))).
Proof.
  unfold get_session_context. split; [| split].
  - destruct (session_memories m !! sid) as [memories |]; [| reflexivity].
    split.
    + rewrite slice_to_submseteq. now rewrite sort_context_Permutation.
    + intros Hl. rewrite slice_to_length by exact Hl.
      now rewrite sort_context_Permutation.
  - reflexivity.
  - destruct (session_memories m !! sid); [| reflexivity].
    f_equal. unfold limit_or_window.
    destruct (max_context_window m); reflexivity.
Qed.

Example session_context_limit_zero :
  length (get_session_context two_users "s1" (Some 0%Z)) = 1.
Proof. vm_compute. reflexivity. Qed.

End MemoryExtra.

(** ** The retrieval layer *)

Module RagFacts.
Import Memory MemoryFacts MemoryExtra.

(** [_store_conversation_memory] always returns, and its effect on the
    object is the one of the call it wraps *)
Lemma store_conversation_memory_is_step clock sid msg resp uid w :
  Rag._store_conversation_memory clock sid msg resp uid w
  = (Ok tt, step clock w (mkCall sid msg resp None uid)).
Proof. reflexivity. Qed.

(** X10. [_retrieve_memories] never raises.  Without a user id it gives
    the session context (at most 5 entries of the session) and no
    long-term memory.  For a named user and a query with a token it gives
    the session context followed by at most 3 long-term matches, every
    one of them owned by that user.  For a named user and a query without
    a token the exception of the long-term search empties the whole
    result, the session context included. *)
Theorem retrieve_memories_shape (m : MemoryManager) (query sid : string)
    (uid : option string) :
  (truthy uid = false ->
   Rag._retrieve_memories m query sid uid = get_session_context m sid (Some 5%Z))
  /\ (truthy uid = true ->
      match _calculate_relevance_score query with
      | Ok _ =>
          exists long_term,
            Rag._retrieve_memories m query sid uid
            = get_session_context m sid (Some 5%Z) ++ long_term
            /\ length long_term <= 3
            /\ Forall (λ e, Some (user_id e) = uid) long_term
      | Raise _ => Rag._retrieve_memories m query sid uid = []
      end)
  /\ length (get_session_context m sid (Some 5%Z)) <= 5
  /\ length (Rag._retrieve_memories m query sid uid) <= 8.
Proof.
  assert (length (get_session_context m sid (Some 5%Z)) <= 5) as Hctx.
  { unfold get_session_context.
    destruct (session_memories m !! sid); [| cbn; lia].
    change (limit_or_window m (Some 5%Z)) with 5%Z.
    rewrite slice_to_length by lia. lia. }
  assert (truthy uid = true ->
      match _calculate_relevance_score query with
      | Ok _ =>
          exists long_term,
            Rag._retrieve_memories m query sid uid
            = get_session_context m sid (Some 5%Z) ++ long_term
            /\ length long_term <= 3
            /\ Forall (λ e, Some (user_id e) = uid) long_term
      | Raise _ => Rag._retrieve_memories m query sid uid = []
      end) as Hnamed.
  { intros Hu. unfold Rag._retrieve_memories. rewrite Hu.
    unfold get_relevant_long_term_memories.
    destruct (_calculate_relevance_score query) as [qr | x]; cbn [result_bind];
      [| reflexivity].
    eexists. split; [reflexivity |]. split.
    - rewrite slice_to_length by lia. lia.
    - destruct uid as [[| a rest] |]; try discriminate.
      apply slice_to_Forall, sort_desc_Forall.
      eapply Forall_impl; [apply matches_Forall |].
      intros e He. cbn beta in He. now rewrite He. }
  split; [| split; [exact Hnamed | split; [exact Hctx |]]].
  - intros Hu. unfold Rag._retrieve_memories. now rewrite Hu.
  - destruct (truthy uid) eqn:Hu.
    + specialize (Hnamed eq_refl).
      destruct (_calculate_relevance_score query).
      * destruct Hnamed as (lt & -> & Hlen & _). rewrite length_app. lia.
      * rewrite Hnamed. cbn. lia.
    + unfold Rag._retrieve_memories. rewrite Hu. lia.
Qed.

Section Dedup.

Variable hash : string -> Z.

Local Abbreviation content_hash := (λ r, hash (Knowledge.res_content r)).

Lemma deduplicate_from_spec (results : list Knowledge.SearchResult) :
  forall seen : gset Z,
    let out := Rag.deduplicate_from hash seen results in
    out `sublist_of` results
    /\ NoDup (content_hash <$> out)
    /\ Forall (λ r, content_hash r ∉ seen) out
    /\ Forall (λ r, content_hash r ∈ seen
                    \/ content_hash r ∈ content_hash <$> out) results.
Proof.
  induction results as [| r rest IH]; intros seen; cbn zeta.
  - cbn. split; [constructor |]. split; [constructor |]. split; constructor.
  - cbn [Rag.deduplicate_from].
    destruct (decide (hash (Knowledge.res_content r) ∈ seen)) as [Hin | Hnew].
    + destruct (IH seen) as (Hsub & Hnd & Hfresh & Hcov).
      split; [now apply sublist_cons |]. split; [exact Hnd |].
      split; [exact Hfresh |].
      constructor; [now left | exact Hcov].
    + destruct (IH ({[hash (Knowledge.res_content r)]} ∪ seen))
        as (Hsub & Hnd & Hfresh & Hcov).
      split; [now apply sublist_skip |].
      split; [| split].
      * cbn [fmap list_fmap]. apply NoDup_cons. split; [| exact Hnd].
        intros (r' & Heq & Hr')%list_elem_of_fmap.
        eapply Forall_forall in Hfresh; [| exact Hr'].
        apply Hfresh. rewrite <- Heq. apply elem_of_union. left.
        now apply elem_of_singleton.
      * constructor; [exact Hnew |].
        eapply Forall_impl; [exact Hfresh |]. intros r' Hr' Hin.
        apply Hr'. apply elem_of_union. now right.
      * constructor.
        -- right. cbn [fmap list_fmap]. apply elem_of_cons. now left.
        -- eapply Forall_impl; [exact Hcov |]. intros r' [Hr' | Hr'].
           ++ apply elem_of_union in Hr' as [Hr' | Hr']; [| now left].
              apply elem_of_singleton in Hr'. right.
              cbn [fmap list_fmap]. apply elem_of_cons. now left.
           ++ right. cbn [fmap list_fmap]. apply elem_of_cons. now right.
Qed.

(** a result at the end of the input is kept exactly when its hash was
    not seen before *)
Lemma deduplicate_from_snoc (results : list Knowledge.SearchResult) :
  forall (seen : gset Z) (r : Knowledge.SearchResult),
    Rag.deduplicate_from hash seen (results ++ [r])
    = Rag.deduplicate_from hash seen results
      ++ (if decide (content_hash r ∈ seen
                     \/ content_hash r ∈ content_hash <$> results)
          then [] else [r]).
Proof.
  induction results as [| x rest IH]; intros seen r.
  - cbn [app Rag.deduplicate_from fmap list_fmap].
    destruct (decide (hash (Knowledge.res_content r) ∈ seen)) as [Hin | Hout];
      [rewrite decide_True by now left | rewrite decide_False]; [reflexivity.. |].
    intros [H | H]; [now apply Hout | now apply elem_of_nil in H].
  - cbn [app Rag.deduplicate_from].
    destruct (decide (hash (Knowledge.res_content x) ∈ seen)) as [Hx | Hx].
    + rewrite IH. f_equal. apply decide_ext. cbn [fmap list_fmap].
      rewrite elem_of_cons. split; [tauto |].
      intros [H | [H | H]]; [now left | left; now rewrite H | now right].
    + rewrite IH. cbn [app]. do 2 f_equal. apply decide_ext.
      cbn [fmap list_fmap]. rewrite elem_of_cons, elem_of_union, elem_of_singleton.
      tauto.
Qed.

(** a kept result is the first one of the input with its hash *)
Lemma deduplicate_from_first (results : list Knowledge.SearchResult) :
  forall (seen : gset Z) (x : Knowledge.SearchResult),
    x ∈ Rag.deduplicate_from hash seen results ->
    exists pre post,
      results = pre ++ x :: post
      /\ (content_hash x ∉ seen)
      /\ (content_hash x ∉ content_hash <$> pre).
Proof.
  induction results as [| y rest IH]; intros seen x; cbn [Rag.deduplicate_from].
  - intros H. now apply elem_of_nil in H.
  - destruct (decide (hash (Knowledge.res_content y) ∈ seen)) as [Hy | Hy].
    + intros (pre & post & -> & Hseen & Hpre)%IH.
      exists (y :: pre), post. split; [reflexivity |]. split; [exact Hseen |].
      cbn [fmap list_fmap]. rewrite elem_of_cons. intros [Heq | Hin].
      * apply Hseen. now rewrite Heq.
      * now apply Hpre.
    + intros [-> | Hin]%elem_of_cons.
      * exists [], rest. split; [reflexivity |]. split; [exact Hy |].
        cbn. apply not_elem_of_nil.
      * apply IH in Hin as (pre & post & -> & Hseen & Hpre).
        exists (y :: pre), post. split; [reflexivity |].
        rewrite elem_of_union, elem_of_singleton in Hseen.
        split; [tauto |].
        cbn [fmap list_fmap]. rewrite elem_of_cons. intros [Heq | Hin].
        -- apply Hseen. now left.
        -- now apply Hpre.
Qed.

(** X11. [_deduplicate_results] keeps a sub-sequence of its input in
    which no two results have the same content hash, and every input
    result has a kept result with its content hash.  The result kept for
    a hash is the first of the input with that hash: before a kept
    result the input holds no result with its hash, and a result added
    at the end of the input is kept exactly when no result of the input
    has its hash.  (Two different contents with one hash count as
    duplicates.) *)
Theorem deduplicate_results_spec (results : list Knowledge.SearchResult) :
  Rag._deduplicate_results hash results `sublist_of` results
  /\ NoDup (content_hash <$> Rag._deduplicate_results hash results)
  /\ Forall (λ r, content_hash r
                  ∈ content_hash <$> Rag._deduplicate_results hash results)
       results
  /\ (forall x, x ∈ Rag._deduplicate_results hash results ->
                exists pre post,
                  results = pre ++ x :: post
                  /\ (content_hash x ∉ content_hash <$> pre))
  /\ (forall r,
        Rag._deduplicate_results hash (results ++ [r])
        = Rag._deduplicate_results hash results
          ++ (if decide (content_hash r ∈ content_hash <$> results)
              then [] else [r])).
Proof.
  destruct (deduplicate_from_spec results ∅) as (Hsub & Hnd & _ & Hcov).
  split; [exact Hsub |]. split; [exact Hnd |]. split; [| split].
  - eapply Forall_impl; [exact Hcov |]. intros r [Hr | Hr]; [| exact Hr].
    now apply not_elem_of_empty in Hr.
  - intros x (pre & post & Heq & _ & Hpre)%deduplicate_from_first.
    now exists pre, post.
  - intros r. unfold Rag._deduplicate_results. rewrite deduplicate_from_snoc.
    f_equal. apply decide_ext. split; [| now right].
    intros [H | H]; [now apply not_elem_of_empty in H | exact H].
Qed.

End Dedup.

End RagFacts.

(** ** The knowledge base: embedding, search, ingest *)

Module KnowledgeExtra.
Import Knowledge KnowledgeFacts.

Local Open Scope R_scope.

(** *** The shape of the fallback embedding *)

Lemma dot_replicate_zero (d : nat) : dot (replicate d 0) (replicate d 0) = 0.
Proof. unfold dot. induction d as [| d IH]; cbn; [reflexivity |]. rewrite IH. ring. Qed.

Lemma dot_scaled (k : R) (v : list R) :
  dot ((λ x, x / k) <$> v) ((λ x, x / k) <$> v) = dot v v / (k * k).
Proof.
  unfold dot. induction v as [| x v IH]; cbn.
  - unfold Rdiv. ring.
  - rewrite IH. unfold Rdiv.
    destruct (Req_dec k 0) as [-> | Hk].
    + rewrite Rmult_0_l, Rinv_0. ring.
    + field. exact Hk.
Qed.

Lemma norm_normalize (v : list R) : 0 < norm v -> norm (normalize v) = 1.
Proof.
  intros Hpos. unfold normalize. destruct (Rlt_dec 0 (norm v)); [| tauto].
  unfold norm at 1. rewrite dot_scaled.
  unfold norm. rewrite sqrt_sqrt by apply dot_self_nonneg.
  assert (0 < dot v v) as Hd.
  { destruct (Rle_lt_or_eq_dec 0 (dot v v) (dot_self_nonneg v)) as [H | H];
      [exact H |].
    unfold norm in Hpos. rewrite <- H, sqrt_0 in Hpos. lra. }
  unfold Rdiv. rewrite Rinv_r by lra. apply sqrt_1.
Qed.

(** some component is at least 1 *)
Definition has_unit (v : list R) : Prop := Exists (λ x, 1 <= x) v.

Lemma has_unit_norm_pos (v : list R) : nonneg v -> has_unit v -> 0 < norm v.
Proof.
  intros Hv Hu. apply sqrt_lt_R0. unfold dot.
  induction Hu as [x v Hx | x v _ IH]; apply Forall_cons in Hv as [Hx0 Hv]; cbn.
  - pose proof (dot_self_nonneg v) as Hd. unfold dot in Hd. nra.
  - specialize (IH Hv). nra.
Qed.

Lemma alter_add_makes_unit (k : R) (i : nat) (v : list R) :
  1 <= k -> nonneg v -> (i < length v)%nat -> has_unit (alter (λ x, x + k) i v).
Proof.
  intros Hk Hv. revert i.
  induction Hv as [| x v Hx Hv IH]; intros i Hi; cbn in Hi; [lia |].
  destruct i as [| i]; cbn.
  - left. lra.
  - right. apply IH. lia.
Qed.

Lemma bump_freq_counts word freq :
  Forall (λ item, (1 <= snd item)%nat) freq ->
  Forall (λ item, (1 <= snd item)%nat) (bump_freq word freq)
  /\ bump_freq word freq <> [].
Proof.
  induction 1 as [| [w n] freq Hn Hfreq [IH _]]; cbn.
  - split; [repeat constructor | discriminate].
  - case_bool_decide; (split; [| discriminate]).
    + constructor; [cbn in *; lia | exact Hfreq].
    + now constructor.
Qed.

Lemma word_frequencies_spec (words : list string) :
  Forall (λ item, (1 <= snd item)%nat) (word_frequencies words)
  /\ (Forall (λ w, (PyStr.len w <= 2)%nat) words -> word_frequencies words = [])
  /\ (Exists (λ w, (2 < PyStr.len w)%nat) words -> word_frequencies words <> []).
Proof.
  unfold word_frequencies.
  set (f := λ freq word, if (2 <? PyStr.len word)%nat then bump_freq word freq
                          else freq).
  assert (forall ws acc,
             Forall (λ item, (1 <= snd item)%nat) acc ->
             Forall (λ item, (1 <= snd item)%nat) (foldl f acc ws)
             /\ (Forall (λ w, (PyStr.len w <= 2)%nat) ws -> foldl f acc ws = acc)
             /\ (acc <> [] \/ Exists (λ w, (2 < PyStr.len w)%nat) ws ->
                 foldl f acc ws <> [])) as H.
  { induction ws as [| w ws IH]; intros acc Hacc; cbn [foldl].
    - split; [exact Hacc |]. split; [reflexivity |].
      intros [H | H]; [exact H | inversion H].
    - assert (Forall (λ item, (1 <= snd item)%nat) (f acc w)) as Hacc'.
      { subst f. cbn beta. destruct (2 <? PyStr.len w)%nat; [| exact Hacc].
        now apply bump_freq_counts. }
      destruct (IH (f acc w) Hacc') as (H1 & H2 & H3).
      split; [exact H1 |]. split.
      + intros Hall. apply Forall_cons in Hall as [Hw Hall].
        rewrite (H2 Hall). subst f. cbn beta.
        destruct (Nat.ltb_spec 2 (PyStr.len w)); [lia | reflexivity].
      + intros Hor. apply H3.
        assert (acc <> [] \/ (2 < PyStr.len w)%nat
                \/ Exists (λ w, (2 < PyStr.len w)%nat) ws) as [Ha | [Hw | Hex]].
        { destruct Hor as [Ha | Hex]; [now left |].
          inversion Hex; subst; auto. }
        * left. subst f. cbn beta.
          destruct (2 <? PyStr.len w)%nat; [| exact Ha].
          now apply bump_freq_counts.
        * left. subst f. cbn beta.
          destruct (Nat.ltb_spec 2 (PyStr.len w)); [| lia].
          now apply bump_freq_counts.
        * now right. }
  destruct (H words [] (Forall_nil_2 _)) as (H1 & H2 & H3).
  split; [exact H1 |]. split; [exact H2 |].
  intros Hex. apply H3. now right.
Qed.

Section Shape.

Variable hash : string -> Z.

Lemma scatter_all_length d items : forall v v',
  scatter_all hash d v items = Ok v' -> length v' = length v.
Proof.
  induction items as [| item items IH]; intros v v'; cbn [scatter_all].
  - now intros [= <-].
  - unfold scatter at 1. destruct d as [| d]; [discriminate |].
    cbn [result_bind]. intros H. apply IH in H. now rewrite length_alter in H.
Qed.

Lemma scatter_all_unit d items : forall v v',
  nonneg v -> length v = d ->
  Forall (λ item, (1 <= snd item)%nat) items ->
  has_unit v \/ items <> [] ->
  scatter_all hash d v items = Ok v' -> has_unit v'.
Proof.
  induction items as [| item items IH]; intros v v' Hv Hlen Hitems Hor;
    cbn [scatter_all].
  - intros [= <-]. destruct Hor as [H | H]; [exact H | now destruct H].
  - apply Forall_cons in Hitems as [Hitem Hitems].
    destruct (scatter hash d v item) as [v1 | x] eqn:H1; cbn [result_bind];
      [| discriminate].
    assert (nonneg v1) as Hv1 by now apply (scatter_nonneg hash d v item).
    unfold scatter in H1. destruct d as [| d]; [discriminate |].
    injection H1 as <-.
    assert (1 <= INR (snd item)) as Hk.
    { replace 1 with (INR 1) by reflexivity. now apply le_INR. }
    apply IH; [exact Hv1 | now rewrite length_alter | exact Hitems |].
    left. apply alter_add_makes_unit; [exact Hk | exact Hv |].
    rewrite Hlen.
    pose proof (Z.mod_pos_bound (hash (fst item)) (Z.of_nat (S d))). lia.
Qed.

Lemma simple_embedding_length (d : nat) (text : string) (v : list R) :
  _simple_embedding hash d text = Ok v -> length v = d.
Proof.
  unfold _simple_embedding.
  destruct (scatter_all hash d (replicate d 0) _) as [v1 | x] eqn:H1;
    cbn [result_bind]; [| discriminate].
  intros [= <-].
  apply scatter_all_length in H1. rewrite length_replicate in H1.
  unfold normalize. destruct (Rlt_dec 0 (norm v1)); [| exact H1].
  now rewrite length_fmap.
Qed.

(** X12. A fallback embedding has as many components as the configured
    dimension, none negative.  It is the zero vector when the text has no
    word of more than two characters, and it is not the zero vector when
    the text has such a word. *)
Theorem simple_embedding_shape (d : nat) (text : string) (v : list R) :
  _simple_embedding hash d text = Ok v ->
  length v = d /\ nonneg v
  /\ (Forall (λ w, (PyStr.len w <= 2)%nat) (PyStr.split (PyStr.lower text)) ->
      v = replicate d 0)
  /\ (Exists (λ w, (2 < PyStr.len w)%nat) (PyStr.split (PyStr.lower text)) ->
      v <> replicate d 0).
Proof.
  intros Hv.
  pose proof (simple_embedding_nonneg hash d text v Hv) as Hnonneg.
  pose proof (simple_embedding_length d text v Hv) as Hlen.
  unfold _simple_embedding in Hv.
  destruct (word_frequencies_spec (PyStr.split (PyStr.lower text)))
    as (Hcounts & Hnone & Hsome).
  destruct (scatter_all hash d (replicate d 0) _) as [v1 | x] eqn:H1;
    cbn [result_bind] in Hv; [| discriminate].
  injection Hv as <-.
  split; [exact Hlen |]. split; [exact Hnonneg | split].
  - intros Hall. rewrite (Hnone Hall) in H1. cbn in H1. injection H1 as <-.
    unfold normalize. destruct (Rlt_dec 0 (norm (replicate d 0))) as [Hpos | _];
      [| reflexivity].
    unfold norm in Hpos. rewrite dot_replicate_zero, sqrt_0 in Hpos. lra.
  - intros Hex Hzero.
    assert (nonneg v1) as Hv1
      by exact (scatter_all_nonneg hash d _ _ _ (Forall_replicate _ d 0 (Rle_refl 0)) H1).
    assert (has_unit v1) as Hu.
    { eapply (scatter_all_unit d _ (replicate d 0) v1);
        [apply Forall_replicate, Rle_refl | apply length_replicate
        | exact Hcounts | right; now apply Hsome | exact H1]. }
    pose proof (norm_normalize v1 (has_unit_norm_pos v1 Hv1 Hu)) as Hnorm.
    rewrite Hzero in Hnorm. unfold norm in Hnorm.
    rewrite dot_replicate_zero, sqrt_0 in Hnorm. lra.
Qed.

End Shape.

Lemma simple_embedding_shape_witness :
  exists v,
    _simple_embedding demo_hash 384 "flu care" = Ok v
    /\ length v = 384%nat /\ v <> replicate 384 0.
Proof.
  destruct (simple_embedding_total demo_hash 384 "flu care") as [v Hv]; [lia |].
  exists v. split; [exact Hv |].
  destruct (simple_embedding_shape demo_hash 384 "flu care" v Hv)
    as (Hlen & _ & _ & Hnonzero).
  split; [exact Hlen |].
  apply Hnonzero. vm_compute. left. lia.
Defined.

(** *** The shape of a search result *)

(** non-increasing relevance *)
Definition by_score (a b : Similarity) : Prop :=
  similarity_score b <= similarity_score a.

Lemma insert_desc_sorted x l :
  StronglySorted by_score l -> StronglySorted by_score (insert_desc x l).
Proof.
  induction 1 as [| y l Hl IH Hy]; cbn [insert_desc]; [repeat constructor |].
  destruct (Rlt_dec (similarity_score x) (similarity_score y)) as [Hlt | Hge].
  - constructor; [exact IH |].
    apply insert_desc_keeps; [unfold by_score; lra | exact Hy].
  - constructor; [now constructor |].
    constructor; [unfold by_score; lra |].
    eapply Forall_impl; [exact Hy |]. unfold by_score. intros z Hz. lra.
Qed.

Lemma sort_desc_sorted l : StronglySorted by_score (sort_desc l).
Proof.
  induction l as [| x l IH]; cbn; [constructor | now apply insert_desc_sorted].
Qed.

Lemma insert_desc_length x l : length (insert_desc x l) = S (length l).
Proof.
  induction l as [| y l IH]; cbn; [reflexivity |].
  destruct (Rlt_dec _ _); cbn; [now rewrite IH | reflexivity].
Qed.

Lemma sort_desc_length l : length (sort_desc l) = length l.
Proof.
  induction l as [| x l IH]; cbn; [reflexivity |].
  now rewrite insert_desc_length, IH.
Qed.

Lemma score_chunks_length kb query qv f cs : forall sims,
  score_chunks kb query qv f cs = Ok sims -> (length sims <= length cs)%nat.
Proof.
  induction cs as [| c cs IH]; intros sims; cbn [score_chunks].
  - intros [= <-]. cbn. lia.
  - destruct (chunk_id c) as [id |]; [| discriminate].
    destruct (embeddings kb !! id).
    + destruct (score_chunks kb query qv f cs) as [rest | x];
        cbn [result_bind]; [| discriminate].
      intros [= <-]. specialize (IH rest eq_refl). cbn. lia.
    + intros H. specialize (IH sims H). cbn. lia.
Qed.

Lemma slice_to_sorted {A} (R : relation A) (l : list A) (limit : Z) :
  StronglySorted R l -> StronglySorted R (slice_to l limit).
Proof.
  intros Hl. unfold slice_to.
  destruct (limit <? 0)%Z;
    [rewrite <- (take_drop (length l - Z.to_nat (- limit)) l) in Hl
    | rewrite <- (take_drop (Z.to_nat limit) l) in Hl];
    now apply StronglySorted_app_1_l in Hl.
Qed.

Lemma slice_to_length_le {A} (l : list A) (limit : Z) :
  (length (slice_to l limit) <= length l)%nat
  /\ ((0 <= limit)%Z -> (length (slice_to l limit) <= Z.to_nat limit)%nat).
Proof.
  unfold slice_to. split.
  - destruct (limit <? 0)%Z; rewrite length_take; lia.
  - intros Hl. destruct (Z.ltb_spec limit 0); [lia |]. rewrite length_take. lia.
Qed.

Lemma search_knowledge_total hash query limit category_filter kb :
  (0 < embedding_dimension kb)%nat ->
  Forall (λ c, is_Some (chunk_id c)) (chunks kb) ->
  exists rs, fst (search_knowledge hash query limit category_filter kb) = Ok rs.
Proof.
  intros Hd Hids. unfold search_knowledge; cbn [fst].
  destruct (simple_embedding_total hash (embedding_dimension kb) query Hd)
    as [qv ->].
  cbn [result_bind].
  destruct (score_chunks_total kb query qv category_filter (chunks kb) Hids)
    as [sims ->].
  cbn [result_bind]. eexists. reflexivity.
Qed.

(** X13. Every result list of [search_knowledge] is in non-increasing
    order of relevance score, holds only results at or above the
    relevance threshold, is no longer than the number of stored chunks,
    and for a limit that is not negative no longer than the limit. *)
Theorem search_results_shape (hash : string -> Z) (query : string) (limit : Z)
    (category_filter : option string) (kb : KnowledgeBase)
    (rs : list SearchResult) :
  fst (search_knowledge hash query limit category_filter kb) = Ok rs ->
  StronglySorted (λ a b, relevance_score b <= relevance_score a) rs
  /\ Forall (λ r, relevance_threshold kb <= relevance_score r) rs
  /\ (length rs <= length (chunks kb))%nat
  /\ ((0 <= limit)%Z -> (length rs <= Z.to_nat limit)%nat).
Proof.
  intros (qv & sims & _ & Hsims & ->)%search_knowledge_unfold.
  set (kept := filter (λ r, relevance_threshold kb <= similarity_score r)
                 (sort_desc sims)).
  assert (StronglySorted by_score kept) as Hsorted
    by apply MemoryExtra.StronglySorted_filter_keeps, sort_desc_sorted.
  destruct (slice_to_length_le kept limit) as [Hlen1 Hlen2].
  split; [| split; [| split]].
  - apply StronglySorted_fmap with (R1 := by_score);
      [| now apply slice_to_sorted].
    intros a b Hab. exact Hab.
  - apply Forall_fmap, slice_to_Forall, Forall_forall.
    intros s [Hs _]%list_elem_of_filter. exact Hs.
  - rewrite length_fmap.
    pose proof (length_filter (λ r, relevance_threshold kb <= similarity_score r)
                  (sort_desc sims)) as Hf.
    rewrite sort_desc_length in Hf.
    apply score_chunks_length in Hsims. fold kept in Hf. lia.
  - intros Hl. rewrite length_fmap. now apply Hlen2.
Qed.

Lemma search_results_shape_witness :
  exists rs,
    fst (search_knowledge demo_hash "rest and fluids" 5 None demo_kb) = Ok rs
    /\ StronglySorted (λ a b, relevance_score b <= relevance_score a) rs
    /\ (length rs <= 1)%nat.
Proof.
  destruct demo_kb_spec as (Hw & Hdim & Hchunks & _ & Hids & Hidx).
  destruct (search_knowledge_total demo_hash "rest and fluids" 5 None demo_kb
              ltac:(rewrite Hdim; lia) Hids) as [rs Hrs].
  exists rs. split; [exact Hrs |].
  destruct (search_results_shape demo_hash "rest and fluids" 5 None demo_kb rs Hrs)
    as (Hsorted & _ & Hlen & _).
  split; [exact Hsorted |]. now rewrite Hchunks in Hlen.
Defined.

(** *** Search on an ingested index *)

Lemma uncategorized_category_similarity (query : string) (chunk : Chunk) :
  chunk_category chunk = None -> _category_similarity query chunk = 0.
Proof. intros Hc. unfold _category_similarity. now rewrite Hc. Qed.

(** the score of a chunk without category, under the default weights *)
Lemma uncategorized_score (query : string) (qv cv : list R)
    (category_filter : option string) (chunk : Chunk) :
  nonneg qv -> nonneg cv -> chunk_category chunk = None ->
  let r := score_chunk default_weights query qv category_filter chunk cv in
  category_similarity r = 0
  /\ similarity_score r <= 0.9
  /\ (supplied category_filter = true -> similarity_score r <= 0.45).
Proof.
  intros Hq Hc Hcat. cbn zeta.
  unfold score_chunk, combined;
    cbn [similarity_score category_similarity semantic keyword category
         default_weights].
  rewrite (uncategorized_penalized category_filter chunk Hcat).
  rewrite (uncategorized_category_similarity query chunk Hcat).
  pose proof (cosine_in_unit qv cv Hq Hc) as Hs.
  pose proof (keyword_in_unit query (chunk_content chunk)) as Hk.
  unfold in_unit in *.
  split; [reflexivity |]. split.
  - destruct (supplied category_filter); lra.
  - intros ->. lra.
Qed.

(** on an ingested index every scored chunk has category score 0 and,
    in exact arithmetic, a combined score of at most 0.9, and of at most
    0.45 under a filter (rounding adds less than the distance from 0.45
    to the threshold 0.6) *)
Lemma ingested_scores (hash : string -> Z) (kb : KnowledgeBase)
    (query : string) (category_filter : option string) (qv : list R)
    (sims : list Similarity) :
  ingested hash kb ->
  similarity_weights kb = default_weights ->
  _simple_embedding hash (embedding_dimension kb) query = Ok qv ->
  score_chunks kb query qv category_filter (chunks kb) = Ok sims ->
  Forall (λ s, category_similarity s = 0 /\ similarity_score s <= 0.9
               /\ (supplied category_filter = true ->
                   similarity_score s <= 0.45)) sims.
Proof.
  intros (Hcat & _ & Hidx) Hw Hqv Hsims. apply score_chunks_from in Hsims.
  eapply Forall_impl; [exact Hsims |].
  intros s (chunk & id & cv & Hin & _ & Hcv & ->). rewrite Hw.
  apply uncategorized_score.
  - exact (simple_embedding_nonneg hash _ query qv Hqv).
  - destruct (Hidx id cv Hcv) as [text Htext].
    exact (simple_embedding_nonneg hash _ text cv Htext).
  - eapply Forall_forall in Hcat; [exact Hcat | exact Hin].
Qed.

(** a search with a filter on an ingested index, when it returns *)
Lemma filtered_search_empty (hash : string -> Z) (kb : KnowledgeBase)
    (query : string) (limit : Z) (category_filter : option string)
    (rs : list SearchResult) :
  ingested hash kb ->
  similarity_weights kb = default_weights ->
  relevance_threshold kb = 0.6 ->
  supplied category_filter = true ->
  fst (search_knowledge hash query limit category_filter kb) = Ok rs ->
  rs = [].
Proof.
  intros Hing Hw Hth Hf (qv & sims & Hqv & Hsims & ->)%search_knowledge_unfold.
  pose proof (ingested_scores hash kb query category_filter qv sims Hing Hw
                Hqv Hsims) as Hall.
  replace (filter _ (sort_desc sims)) with (@nil Similarity);
    [unfold slice_to; destruct (limit <? 0)%Z; now rewrite take_nil |].
  symmetry. apply elem_of_nil_inv. intros s [Hs Hin]%list_elem_of_filter.
  apply (sort_desc_keeps _ _) in Hall.
  eapply Forall_forall in Hall; [| exact Hin].
  destruct Hall as (_ & _ & Hlow). specialize (Hlow Hf). rewrite Hth in Hs. lra.
Qed.

(** X14. On an index filled by [add_document], with the default weights
    and the default threshold 0.6: a search with a category filter
    returns the empty list, whatever the query and the category, because
    every chunk is halved to less than the threshold; and a search
    without filter only returns results whose category score is 0 and
    whose relevance score is at least 0.6. *)
Theorem filtered_search_finds_nothing (hash : string -> Z) (kb : KnowledgeBase)
    (query : string) (limit : Z) :
  ingested hash kb ->
  similarity_weights kb = default_weights ->
  relevance_threshold kb = 0.6 ->
  (forall category_filter rs,
      supplied category_filter = true ->
      fst (search_knowledge hash query limit category_filter kb) = Ok rs ->
      rs = [])
  /\ (forall rs,
        fst (search_knowledge hash query limit None kb) = Ok rs ->
        Forall (λ r, category_score r = 0 /\ 0.6 <= relevance_score r) rs).
Proof.
  intros Hing Hw Hth. split.
  - intros f rs Hf Hrs.
    exact (filtered_search_empty hash kb query limit f rs Hing Hw Hth Hf Hrs).
  - intros rs (qv & sims & Hqv & Hsims & ->)%search_knowledge_unfold.
    pose proof (ingested_scores hash kb query None qv sims Hing Hw Hqv Hsims)
      as Hall.
    apply Forall_fmap, slice_to_Forall, Forall_forall.
    intros s [Hs Hin]%list_elem_of_filter.
    apply (sort_desc_keeps _ _) in Hall.
    eapply Forall_forall in Hall; [| exact Hin].
    destruct Hall as (H0 & _ & _). cbn. rewrite Hth in Hs. now split.
Qed.

Lemma filtered_search_finds_nothing_witness :
  ingested demo_hash demo_kb
  /\ similarity_weights demo_kb = default_weights
  /\ relevance_threshold demo_kb = 0.6
  /\ fst (search_knowledge demo_hash "rest and fluids" 5 (Some "treatment")
            demo_kb) = Ok [].
Proof.
  destruct demo_kb_spec as (Hw & Hdim & Hchunks & Hing).
  assert (relevance_threshold demo_kb = 0.6) as Hth.
  { unfold demo_kb.
    destruct (flu_ingest_ok demo_hash demo_md5 0 0)
      as (kb & cv & -> & _ & _ & _ & _ & Hcfg).
    now destruct Hcfg as (_ & _ & _ & _ & -> & _). }
  split; [exact Hing |]. split; [exact Hw |]. split; [exact Hth |].
  destruct Hing as (Hcat & Hids & Hidx).
  destruct (search_knowledge_total demo_hash "rest and fluids" 5
              (Some "treatment"%string) demo_kb
              ltac:(rewrite Hdim; lia) Hids) as [rs Hrs].
  destruct (filtered_search_finds_nothing demo_hash demo_kb "rest and fluids" 5
              (conj Hcat (conj Hids Hidx)) Hw Hth) as [Hnone _].
  now rewrite Hrs, (Hnone (Some "treatment"%string) rs eq_refl Hrs).
Defined.

(** *** Ingest stores what search reads *)

Local Close Scope R_scope.

Lemma of_nat_inj (i j : nat) : PyStr.of_nat i = PyStr.of_nat j -> i = j.
Proof.
  unfold PyStr.of_nat. intros H.
  assert (Nat.to_uint i = Nat.to_uint j) as Hu.
  { pose proof (NilEmpty.usu (Nat.to_uint i)) as Hi.
    rewrite H, NilEmpty.usu in Hi. now injection Hi. }
  rewrite <- (Unsigned.of_to i), <- (Unsigned.of_to j). now rewrite Hu.
Qed.

Lemma append_cancel_l (a b c : string) : (a ++ b = a ++ c)%string -> b = c.
Proof. induction a as [| x a IH]; cbn; [tauto |]. intros [= H]. now apply IH. Qed.

(** the key under which [add_document] stores the vector of chunk [i] *)
Definition chunk_key (document_id : string) (i : nat) : string :=
  (document_id ++ "_chunk_" ++ PyStr.of_nat i)%string.

Lemma chunk_key_inj document_id i j :
  chunk_key document_id i = chunk_key document_id j -> i = j.
Proof.
  unfold chunk_key. intros H%append_cancel_l%append_cancel_l.
  now apply of_nat_inj.
Qed.

Lemma store_embeddings_other document_id vs : forall i embs k,
  (forall j, j < length vs -> k <> chunk_key document_id (i + j)) ->
  store_embeddings document_id i vs embs !! k = embs !! k.
Proof.
  induction vs as [| v vs IH]; intros i embs k Hk; cbn [store_embeddings];
    [reflexivity |].
  rewrite IH.
  - apply lookup_insert_ne. intros Heq.
    apply (Hk 0); [cbn; lia |]. rewrite Nat.add_0_r. now rewrite <- Heq.
  - intros j Hj. replace (S i + j) with (i + S j) by lia. apply Hk. cbn. lia.
Qed.

Lemma store_embeddings_stored document_id vs : forall i embs j v,
  vs !! j = Some v ->
  store_embeddings document_id i vs embs !! chunk_key document_id (i + j)
  = Some v.
Proof.
  induction vs as [| v0 vs IH]; intros i embs j v Hj; [discriminate |].
  cbn [store_embeddings]. destruct j as [| j]; cbn in Hj.
  - injection Hj as ->. rewrite Nat.add_0_r, store_embeddings_other.
    + apply lookup_insert_eq.
    + intros j _ Heq. apply chunk_key_inj in Heq. lia.
  - replace (i + S j) with (S i + j) by lia. now apply IH.
Qed.

Lemma result_map_lookup {A B} (f : A -> result B) (l : list A) : forall ys,
  result_map f l = Ok ys ->
  length ys = length l
  /\ forall i x, l !! i = Some x -> exists y, ys !! i = Some y /\ f x = Ok y.
Proof.
  induction l as [| x l IH]; intros ys; cbn [result_map].
  - intros [= <-]. split; [reflexivity | discriminate].
  - destruct (f x) as [y |] eqn:Hy; cbn [result_bind]; [| discriminate].
    destruct (result_map f l) as [ys' |]; cbn [result_bind]; [| discriminate].
    intros [= <-]. destruct (IH ys' eq_refl) as [Hlen Hall].
    split; [cbn; now rewrite Hlen |].
    intros [| i] x' Hx'; cbn in Hx'.
    + injection Hx' as <-. now exists y.
    + now apply Hall.
Qed.

Lemma chunk_document_length fuel kb document cs :
  _chunk_document fuel kb document = Some (Ok cs) ->
  (0 <= max_chunks_per_document kb)%Z ->
  length cs <= Z.to_nat (max_chunks_per_document kb).
Proof.
  unfold _chunk_document. intros H Hmax.
  destruct (if PyStr.mem _ _ then _ else _) as [[l | x] |];
    [| discriminate | discriminate].
  injection H as <-. now apply slice_to_length_le.
Qed.

(** X15. When [add_document] returns an id: the new chunks are appended
    after the old ones, at most [max_chunks_per_document] of them (10 by
    default); each carries the document id, its index and the id
    "<document id>_chunk_<index>"; under that id the store holds the
    fallback embedding of the content of that chunk, of the configured
    length; the metadata of the document records the number of chunks;
    and vectors stored under other ids are as before. *)
Theorem add_document_round_trip (hash : string -> Z)
    (md5_hexdigest : string -> string) fuel title content cat source tags t1 t2
    (kb kb' : KnowledgeBase) (id : string) :
  add_document hash md5_hexdigest fuel title content cat source tags t1 t2 kb
  = Some (Ok id, kb') ->
  exists cs,
    chunks kb' = chunks kb ++ imap (store_chunk id) cs
    /\ ((0 <= max_chunks_per_document kb)%Z ->
        length cs <= Z.to_nat (max_chunks_per_document kb))
    /\ (forall i c, cs !! i = Some c ->
          chunk_id (store_chunk id i c) = Some (chunk_key id i)
          /\ chunk_document_id (store_chunk id i c) = Some id
          /\ chunk_index (store_chunk id i c) = Some i
          /\ chunk_content (store_chunk id i c) = chunk_content c
          /\ exists v,
              embeddings kb' !! chunk_key id i = Some v
              /\ _simple_embedding hash (embedding_dimension kb) (chunk_content c)
                 = Ok v
              /\ length v = embedding_dimension kb)
    /\ num_chunks <$> metadata kb' !! id = Some (length cs)
    /\ forall k, (forall i, i < length cs -> k <> chunk_key id i) ->
                 embeddings kb' !! k = embeddings kb !! k.
Proof.
  intros Hadd.
  assert (num_chunks <$> metadata kb' !! id
          = length <$> (match _chunk_document fuel
                                (with_document kb
                                   (make_document md5_hexdigest title content cat
                                      source tags t1))
                                (make_document md5_hexdigest title content cat
                                   source tags t1) with
                        | Some (Ok cs) => Some cs
                        | _ => None
                        end)) as Hmeta.
  { unfold add_document in Hadd.
    destruct (_chunk_document fuel _ _) as [[cs | x] |];
      [| discriminate | discriminate].
    destruct (_generate_chunk_embeddings hash _ cs); [| discriminate].
    injection Hadd as <- <-. cbn [metadata]. now rewrite lookup_insert_eq. }
  apply add_document_ok in Hadd
    as (cs & vs & Hcs & Hvs & _ & Hchunks & Hembs & _ & _).
  rewrite Hcs in Hmeta.
  exists cs. split; [exact Hchunks |].
  split; [intros Hmax; now apply (chunk_document_length _ _ _ _ Hcs) |].
  apply result_map_lookup in Hvs as [Hlen Hvs].
  split; [| split; [exact Hmeta |]].
  - intros i c Hc. repeat (split; [reflexivity |]).
    destruct (Hvs i c Hc) as (v & Hv & Hemb).
    exists v. split; [| split; [exact Hemb |]].
    + rewrite Hembs. now apply (store_embeddings_stored id vs 0).
    + exact (simple_embedding_length hash _ _ v Hemb).
  - intros k Hk. rewrite Hembs. apply store_embeddings_other.
    intros j Hj. apply Hk. now rewrite <- Hlen.
Qed.

Lemma add_document_round_trip_witness :
  exists kb v,
    flu_ingest demo_hash demo_md5 0 0 = Some (Ok (flu_id demo_md5), kb)
    /\ embeddings kb !! chunk_key (flu_id demo_md5) 0 = Some v
    /\ length v = 384.
Proof.
  destruct (flu_ingest_ok demo_hash demo_md5 0 0)
    as (kb & cv & Hok & _ & Hchunks & _).
  exists kb.
  destruct (add_document_round_trip demo_hash demo_md5 1 flu_title flu_content
              "treatment" "manual" None 0 0 init kb (flu_id demo_md5) Hok)
    as (cs & Hcs & _ & Hall & _).
  destruct cs as [| c cs]; [rewrite Hchunks in Hcs; discriminate Hcs |].
  destruct (Hall 0 c eq_refl) as (_ & _ & _ & _ & v & Hv & _ & Hlen).
  exists v. split; [exact Hok |]. split; [exact Hv | exact Hlen].
Defined.

(** *** The fixed-window chunker: positions and coverage *)

Lemma substring_length (s : string) : forall n m,
  String.length (substring n m s) <= Nat.min m (String.length s - n).
Proof.
  induction s as [| c s IH]; intros [| n] [| m];
    cbn [substring String.length]; try lia.
  - specialize (IH 0 m). lia.
  - specialize (IH n 0). lia.
  - specialize (IH n (S m)). lia.
Qed.

Lemma lstrip_length (s : string) : PyStr.len (PyStr.lstrip s) <= PyStr.len s.
Proof.
  unfold PyStr.len. induction s as [| c s IH]; cbn; [lia |].
  destruct (PyStr.isspace c); cbn; lia.
Qed.

Lemma string_of_list_ascii_length (l : list ascii) :
  String.length (string_of_list_ascii l) = length l.
Proof. induction l as [| c l IH]; cbn; [reflexivity | now rewrite IH]. Qed.

Lemma list_ascii_of_string_length (s : string) :
  length (list_ascii_of_string s) = String.length s.
Proof. induction s as [| c s IH]; cbn; [reflexivity | now rewrite IH]. Qed.

Lemma rev_string_length (s : string) :
  PyStr.len (PyStr.rev_string s) = PyStr.len s.
Proof.
  unfold PyStr.len, PyStr.rev_string.
  now rewrite string_of_list_ascii_length, length_rev,
    list_ascii_of_string_length.
Qed.

Lemma strip_length (s : string) : PyStr.len (PyStr.strip s) <= PyStr.len s.
Proof.
  unfold PyStr.strip. rewrite rev_string_length.
  pose proof (lstrip_length (PyStr.rev_string (PyStr.lstrip s))) as H1.
  rewrite rev_string_length in H1.
  pose proof (lstrip_length s). lia.
Qed.

(** a slice that starts inside the string is no longer than the part of
    the string between its two positions *)
Lemma slice_length (s : string) (a b : Z) :
  (0 <= a <= b)%Z ->
  (Z.of_nat (PyStr.len (PyStr.slice s a b))
   <= Z.min b (Z.of_nat (PyStr.len s)) - Z.min a (Z.of_nat (PyStr.len s)))%Z.
Proof.
  intros Hab. unfold PyStr.slice, PyStr.clip_index. cbv zeta.
  destruct (Z.ltb_spec a 0); [lia |]. destruct (Z.ltb_spec b 0); [lia |].
  pose proof (substring_length s
                (Z.to_nat (Z.max 0 (Z.min (Z.of_nat (PyStr.len s)) a)))
                (Z.to_nat (Z.max 0 (Z.min (Z.of_nat (PyStr.len s)) b)
                           - Z.max 0 (Z.min (Z.of_nat (PyStr.len s)) a))))
    as Hsub.
  unfold PyStr.len in *. lia.
Qed.

(** the right edge of a window of at least 100 characters *)
Lemma window_end_bounds (size : Z) (content : string) (start e : Z) :
  (0 <= start)%Z -> (100 <= size)%Z ->
  window_end size content start = Ok e ->
  (start + size - 98 <= e <= start + size + 1)%Z
  /\ ((e <= Z.of_nat (PyStr.len content))%Z \/ e = (start + size)%Z).
Proof.
  intros Hstart Hsize. unfold window_end. cbv zeta.
  destruct (Z.ltb_spec (start + size) (Z.of_nat (PyStr.len content)))
    as [Hlt | Hge]; [| intros [= <-]; lia].
  replace (Z.to_nat (start + size - Z.max start (start + size - 100)))
    with 100%nat by lia.
  destruct (scan_back_in_range content 100 (start + size)%Z)
    as (hit & -> & Hhit); [lia | lia |].
  cbn [result_bind]. intros [= <-].
  destruct hit as [h |]; cbn; [| lia].
  specialize (Hhit h eq_refl). lia.
Qed.

(** the characters held by a list of chunks *)
Definition covered (cs : list Chunk) : Z :=
  foldr (λ c n, (Z.of_nat (PyStr.len (chunk_content c)) + n)%Z) 0%Z cs.

Lemma covered_snoc (cs : list Chunk) (c : Chunk) :
  covered (cs ++ [c])
  = (covered cs + Z.of_nat (PyStr.len (chunk_content c)))%Z.
Proof. unfold covered. induction cs as [| x cs IH]; cbn; [lia | rewrite IH; lia]. Qed.

Section Windows.

Variables (size overlap : Z) (content title : string).

(** a chunk is the stripped, non-empty text of one window *)
Definition window_of (c : Chunk) : Prop :=
  exists s e : Z,
    start_pos c = Some s /\ end_pos c = Some e
    /\ chunk_type c = "fixed_size"%string /\ chunk_title c = title
    /\ chunk_content c = PyStr.strip (PyStr.slice content s e)
    /\ chunk_content c <> EmptyString
    /\ (0 <= s < Z.of_nat (PyStr.len content))%Z
    /\ (s + size - 98 <= e <= s + size + 1)%Z
    /\ (Z.of_nat (PyStr.len (chunk_content c)) <= size + 1)%Z.

(** the next window starts [overlap] characters before the end of this
    one, or later *)
Definition starts_after (a b : Chunk) : Prop :=
  exists ea sb : Z,
    end_pos a = Some ea /\ start_pos b = Some sb /\ (ea - overlap <= sb)%Z.

Definition coverage_bound (cs : list Chunk) : Prop :=
  cs = []
  \/ (covered cs + overlap
      <= Z.of_nat (PyStr.len content) + overlap * Z.of_nat (length cs))%Z.

Definition loop_invariant (start : Z) (acc : list Chunk) : Prop :=
  (0 <= start)%Z
  /\ Forall window_of acc
  /\ StronglySorted starts_after acc
  /\ Forall (λ a, exists ea, end_pos a = Some ea /\ (ea - overlap <= start)%Z) acc
  /\ (covered acc <= start + overlap * Z.of_nat (length acc))%Z
  /\ coverage_bound acc.

Hypothesis overlap_nonneg : (0 <= overlap)%Z.
Hypothesis overlap_small : (overlap + 100 <= size)%Z.

Lemma loop_invariant_step (start e : Z) (acc : list Chunk) :
  loop_invariant start acc ->
  (start < Z.of_nat (PyStr.len content))%Z ->
  window_end size content start = Ok e ->
  let text := PyStr.strip (PyStr.slice content start e) in
  let acc' := match text with
              | EmptyString => acc
              | _ => acc ++ [window_chunk text title start e]
              end in
  loop_invariant (e - overlap) acc'.
Proof.
  intros (Hstart & Hwin & Hsorted & Hends & Hcov & Hbound) Hlt He.
  destruct (window_end_bounds size content start e Hstart ltac:(lia) He)
    as [Hb Hedge].
  pose proof (strip_length (PyStr.slice content start e)) as Hstrip.
  pose proof (slice_length content start e ltac:(lia)) as Hslice.
  cbv zeta. destruct (PyStr.strip (PyStr.slice content start e)) as [| c text]
    eqn:Htext.
  - split; [lia |]. split; [exact Hwin |]. split; [exact Hsorted |].
    split; [| split; [lia | exact Hbound]].
    eapply Forall_impl; [exact Hends |].
    intros a (ea & Ha & Hle). exists ea. split; [exact Ha | lia].
  - set (chunk := window_chunk (String c text) title start e).
    assert (Z.of_nat (PyStr.len (chunk_content chunk))
            <= Z.min e (Z.of_nat (PyStr.len content)) - start)%Z as Hlen.
    { subst chunk. cbn [chunk_content window_chunk]. lia. }
    split; [lia |]. split; [| split; [| split; [| split]]].
    + apply Forall_app. split; [exact Hwin |]. constructor; [| constructor].
      exists start, e. subst chunk. cbn [start_pos end_pos chunk_type chunk_title
                                          chunk_content window_chunk] in *.
      rewrite Htext. repeat split; try reflexivity; try lia. discriminate.
    + apply StronglySorted_app_2; [| exact Hsorted | repeat constructor].
      intros a b Ha ->%list_elem_of_singleton.
      eapply Forall_forall in Hends; [| exact Ha].
      destruct Hends as (ea & Hea & Hle). exists ea, start.
      now repeat split.
    + apply Forall_app. split.
      * eapply Forall_impl; [exact Hends |].
        intros a (ea & Ha & Hle). exists ea. split; [exact Ha | lia].
      * constructor; [| constructor]. exists e. split; [reflexivity | lia].
    + rewrite covered_snoc, length_app, Nat2Z.inj_add, Z.mul_add_distr_l.
      cbn [length]. lia.
    + right. rewrite covered_snoc, length_app, Nat2Z.inj_add, Z.mul_add_distr_l.
      cbn [length]. lia.
Qed.

Lemma fixed_size_loop_invariant (fuel : nat) :
  forall (start : Z) (acc cs : list Chunk),
    loop_invariant start acc ->
    fixed_size_loop fuel size overlap content title start acc = Some (Ok cs) ->
    Forall window_of cs /\ StronglySorted starts_after cs /\ coverage_bound cs.
Proof.
  induction fuel as [| fuel IH]; intros start acc cs Hinv;
    cbn [fixed_size_loop]; [discriminate |].
  destruct (Z.ltb_spec start (Z.of_nat (PyStr.len content))) as [Hlt | Hge].
  - destruct (window_end size content start) as [e | x] eqn:He; [| discriminate].
    pose proof (loop_invariant_step start e acc Hinv Hlt He) as Hstep.
    cbv zeta in Hstep.
    set (acc' := match PyStr.strip (PyStr.slice content start e) with
                 | EmptyString => acc
                 | _ => _
                 end) in *.
    destruct (_ <=? _)%Z; [| now apply IH].
    intros [= <-]. destruct Hstep as (_ & Hwin & Hsorted & _ & _ & Hbound).
    now repeat split.
  - intros [= <-]. destruct Hinv as (_ & Hwin & Hsorted & _ & _ & Hbound).
    now repeat split.
Qed.

(** X16. When the overlap is not negative and the window is at least 100
    characters longer than the overlap, every list that the fixed-window
    chunker returns is made of non-empty chunks, each the stripped text
    of a window [start_pos, end_pos) that starts inside the content and
    is between size-98 and size+1 characters wide, so a chunk holds at
    most size+1 characters; each later chunk starts at or after the end
    of an earlier one minus the overlap; and the chunks together hold at
    most len(content) + (chunks-1)*overlap characters. *)
Theorem fixed_size_chunks_cover (fuel : nat) (cs : list Chunk) :
  _chunk_fixed_size fuel size overlap content title = Some (Ok cs) ->
  Forall window_of cs
  /\ StronglySorted starts_after cs
  /\ coverage_bound cs.
Proof.
  apply fixed_size_loop_invariant.
  split; [lia |]. split; [constructor |]. split; [constructor |].
  split; [constructor |]. split; [cbn; lia | now left].
Qed.

End Windows.

(** a text of 1319 characters, cut into three windows *)
Definition sample_text : string :=
  String.concat " " (replicate 60 "Rest and fluids help."%string).

Lemma fixed_size_chunks_cover_witness :
  exists cs,
    _chunk_fixed_size 1320 512 50 sample_text "Flu care" = Some (Ok cs)
    /\ length cs = 3
    /\ Forall (window_of 512 sample_text "Flu care") cs
    /\ StronglySorted (starts_after 50) cs
    /\ coverage_bound 50 sample_text cs.
Proof.
  destruct (_chunk_fixed_size 1320 512 50 sample_text "Flu care")
    as [[cs | x] |] eqn:Hcs; [| now vm_compute in Hcs | now vm_compute in Hcs].
  exists cs. split; [reflexivity |].
  split; [vm_compute in Hcs; now injection Hcs as <- |].
  apply (fixed_size_chunks_cover 512 50 sample_text "Flu care"
           ltac:(lia) ltac:(lia) 1320 cs Hcs).
Defined.

(** the bound size+1 is reached: a full stop at index 512 is taken into
    the first window, which then holds 513 characters *)
Example window_can_exceed_size :
  let content := (String.concat "" (replicate 512 "a"%string) ++ ". b")%string in
  match _chunk_fixed_size 600 512 50 content "t" with
  | Some (Ok cs) => Some (PyStr.len ∘ chunk_content <$> cs)
  | _ => None
  end = Some [513; 52].
Proof. vm_compute. reflexivity. Qed.

(** *** The sentence-aware chunkers *)

Lemma append_length (a b : string) :
  PyStr.len (a ++ b)%string = PyStr.len a + PyStr.len b.
Proof.
  unfold PyStr.len. induction a as [| c a IH]; [reflexivity |].
  change (S (String.length (a ++ b)%string)
          = S (String.length a + String.length b)).
  now f_equal.
Qed.

(** the sentences that a list of chunks says it holds *)
Definition sentences_held (cs : list Chunk) : nat :=
  foldr (λ c n, default 0 (sentence_count c) + n) 0 cs.

Lemma sentences_held_app (cs ds : list Chunk) :
  sentences_held (cs ++ ds) = sentences_held cs + sentences_held ds.
Proof.
  unfold sentences_held. induction cs as [| c cs IH]; cbn; [reflexivity |].
  rewrite IH. lia.
Qed.

(** a chunk of sentences: it counts at least one sentence, and holds at
    most size+1 characters unless it is one sentence *)
Definition sentence_bounded (size : Z) (c : Chunk) : Prop :=
  exists n, sentence_count c = Some n /\ 1 <= n
            /\ ((Z.of_nat (PyStr.len (chunk_content c)) <= size + 1)%Z \/ n = 1).

Section Sentences.

Variables (size : Z) (title para_tag sent_tag : string).

Definition sentence_state (seen : nat) (st : list Chunk * string * nat) : Prop :=
  let '(acc, current_chunk, count) := st in
  Forall (sentence_bounded size) acc
  /\ sentences_held acc + count = seen
  /\ (current_chunk = EmptyString -> count = 0)
  /\ (current_chunk <> EmptyString ->
      1 <= count
      /\ ((Z.of_nat (PyStr.len current_chunk) <= size + 1)%Z \/ count = 1)).

Lemma sentence_step_state seen st sentence :
  sentence <> EmptyString ->
  sentence_state seen st ->
  sentence_state (S seen) (sentence_step size title para_tag sent_tag st sentence).
Proof.
  destruct st as [[acc cur] count]. intros Hne (Hacc & Hheld & Hempty & Hcur).
  unfold sentence_step.
  destruct (Z.ltb_spec size (Z.of_nat (PyStr.len cur)
                             + Z.of_nat (PyStr.len sentence))) as [Hbig | Hfit].
  - destruct cur as [| a cur].
    + specialize (Hempty eq_refl). subst count.
      split; [| split; [| split; [reflexivity | intros H; now destruct H]]].
      * apply Forall_app. split; [exact Hacc |]. constructor; [| constructor].
        exists 1. cbn. split; [reflexivity |]. split; [lia | now right].
      * rewrite sentences_held_app. cbn. lia.
    + destruct (Hcur ltac:(discriminate)) as [Hpos Hlen].
      split; [| split; [| split; [intros H; now destruct Hne |]]].
      * apply Forall_app. split; [exact Hacc |]. constructor; [| constructor].
        exists count. cbn [sentence_count chunk_content sentence_chunk].
        split; [reflexivity |]. split; [exact Hpos |].
        destruct Hlen as [Hlen | ->]; [left | now right].
        pose proof (strip_length (String a cur)). lia.
      * rewrite sentences_held_app. cbn. lia.
      * intros _. split; [lia | now right].
  - split; [exact Hacc |]. split; [lia |]. split.
    + intros H. destruct cur; discriminate H.
    + intros _. split; [lia |]. left.
      rewrite !append_length. cbn [PyStr.len String.length]. lia.
Qed.

Lemma sentence_loop_bounded (sentences : list string) :
  Forall (λ s, s <> EmptyString) sentences ->
  Forall (sentence_bounded size)
    (sentence_loop size title para_tag sent_tag sentences)
  /\ sentences_held (sentence_loop size title para_tag sent_tag sentences)
     = length sentences.
Proof.
  intros Hne. unfold sentence_loop.
  assert (forall seen st,
             sentence_state seen st ->
             sentence_state (seen + length sentences)
               (foldl (sentence_step size title para_tag sent_tag) st sentences))
    as Hfold.
  { induction Hne as [| x xs Hx _ IH]; intros seen st Hst; cbn [foldl length].
    - now rewrite Nat.add_0_r.
    - replace (seen + S (length xs)) with (S seen + length xs) by lia.
      apply IH. now apply sentence_step_state. }
  specialize (Hfold 0 ([], EmptyString, 0)).
  destruct (foldl _ _ sentences) as [[acc cur] count].
  destruct Hfold as (Hacc & Hheld & Hempty & Hcur).
  { split; [constructor |]. split; [reflexivity |].
    split; [reflexivity | intros H; now destruct H]. }
  destruct cur as [| a cur].
  - specialize (Hempty eq_refl). split; [exact Hacc | lia].
  - destruct (Hcur ltac:(discriminate)) as [Hpos Hlen]. split.
    + apply Forall_app. split; [exact Hacc |]. constructor; [| constructor].
      exists count. cbn [sentence_count chunk_content sentence_chunk].
      split; [reflexivity |]. split; [exact Hpos |].
      destruct Hlen as [Hlen | ->]; [left | now right].
      pose proof (strip_length (String a cur)). lia.
    + rewrite sentences_held_app. cbn. lia.
Qed.

End Sentences.

Lemma sentences_of_nonempty (paragraph : string) :
  Forall (λ s, s <> EmptyString) (sentences_of paragraph).
Proof.
  unfold sentences_of. apply Forall_forall.
  now intros s [Hs _]%list_elem_of_filter.
Qed.

(** the sentences of the paragraphs that [_chunk_medical_content] does
    not skip *)
Definition sentences_in (content : string) : nat :=
  foldr (λ paragraph n,
           match PyStr.strip paragraph with
           | EmptyString => n
           | _ => length (sentences_of paragraph) + n
           end) 0 (PyStr.split_paragraphs content).

(** X17. Every chunk made by the sentence loop, in
    [_split_long_paragraph] and in [_chunk_medical_content], records a
    sentence count of at least one and holds at most chunk_size+1
    characters unless it is a single sentence; and the sentence counts
    of the chunks add up to the number of sentences read: no sentence
    is dropped or counted twice. *)
Theorem sentence_chunks_bounded (size : Z) (content title : string) :
  (Forall (sentence_bounded size) (_split_long_paragraph size content title)
   /\ sentences_held (_split_long_paragraph size content title)
      = length (sentences_of content))
  /\ Forall (sentence_bounded size) (_chunk_medical_content size content title)
  /\ sentences_held (_chunk_medical_content size content title)
     = sentences_in content.
Proof.
  split; [apply sentence_loop_bounded, sentences_of_nonempty |].
  unfold _chunk_medical_content, sentences_in.
  induction (PyStr.split_paragraphs content) as [| paragraph ps [IH1 IH2]];
    cbn [fmap list_fmap concat foldr]; [split; [constructor | reflexivity] |].
  destruct (PyStr.strip paragraph) as [| a p]; [now split |].
  destruct (sentence_loop_bounded size title "medical_paragraph"
              "medical_sentence" (sentences_of paragraph)
              (sentences_of_nonempty paragraph)) as [H1 H2].
  split.
  - apply Forall_app. now split.
  - rewrite sentences_held_app, H2. now rewrite <- IH2.
Qed.

(** *** Every strategy, after truncation *)

(** a chunk holds at most size+1 characters, or it is one sentence *)
Definition chunk_bounded (size : Z) (c : Chunk) : Prop :=
  (Z.of_nat (PyStr.len (chunk_content c)) <= size + 1)%Z
  \/ sentence_count c = Some 1.

Lemma sentence_bounded_chunk (size : Z) (c : Chunk) :
  sentence_bounded size c -> chunk_bounded size c.
Proof. intros (n & Hn & _ & [Hlen | ->]); [now left | now right]. Qed.

Lemma medical_chunks_bounded size content title :
  Forall (chunk_bounded size) (_chunk_medical_content size content title).
Proof.
  unfold _chunk_medical_content. apply Forall_concat_lists.
  apply Forall_fmap, Forall_forall. intros paragraph _. cbn.
  destruct (PyStr.strip paragraph); [constructor |].
  eapply Forall_impl;
    [apply sentence_loop_bounded, sentences_of_nonempty
    | apply sentence_bounded_chunk].
Qed.

Lemma general_chunks_bounded size content title :
  Forall (chunk_bounded size) (_chunk_general_content size content title).
Proof.
  unfold _chunk_general_content. apply Forall_concat_lists.
  apply Forall_forall. intros l (i & paragraph & -> & _)%elem_of_lookup_imap_1.
  destruct (PyStr.strip paragraph) as [| a p] eqn:Hp; [constructor |].
  destruct (Z.ltb_spec size (Z.of_nat (PyStr.len paragraph))).
  - eapply Forall_impl;
      [apply sentence_loop_bounded, sentences_of_nonempty
      | apply sentence_bounded_chunk].
  - constructor; [| constructor]. left.
    cbn [chunk_content paragraph_chunk]. rewrite <- Hp.
    pose proof (strip_length paragraph). lia.
Qed.

(** X18. Whatever the category of the document, when the overlap is not
    negative and the window is at least 100 characters longer than the
    overlap, every chunk that [_chunk_document] returns holds at most
    chunk_size+1 characters or is a single sentence, and (for a maximum
    that is not negative) there are at most max_chunks_per_document of
    them. *)
Theorem chunk_document_bounded (fuel : nat) (kb : KnowledgeBase)
    (document : Document) (cs : list Chunk) :
  (0 <= chunk_overlap kb)%Z ->
  (chunk_overlap kb + 100 <= chunk_size kb)%Z ->
  _chunk_document fuel kb document = Some (Ok cs) ->
  Forall (chunk_bounded (chunk_size kb)) cs
  /\ ((0 <= max_chunks_per_document kb)%Z ->
      length cs <= Z.to_nat (max_chunks_per_document kb)).
Proof.
  intros Hov Hsize Hcs.
  split; [| now apply (chunk_document_length fuel kb document)].
  revert Hcs. unfold _chunk_document.
  destruct (PyStr.mem _ ["medical_condition"; "treatment"; "symptom"]).
  { intros [= <-]. apply slice_to_Forall, medical_chunks_bounded. }
  destruct (PyStr.mem _ ["general"; "wellness"; "prevention"]).
  { intros [= <-]. apply slice_to_Forall, general_chunks_bounded. }
  destruct (_chunk_fixed_size _ _ _ _ _) as [[l | x] |] eqn:Hfixed;
    [| discriminate | discriminate].
  intros [= <-]. apply slice_to_Forall.
  destruct (fixed_size_loop_invariant (chunk_size kb) (chunk_overlap kb)
              (doc_content document) (doc_title document) Hov Hsize fuel 0 [] l)
    as (Hwin & _); [| exact Hfixed |].
  { split; [lia |]. split; [constructor |]. split; [constructor |].
    split; [constructor |]. split; [cbn; lia | now left]. }
  eapply Forall_impl; [exact Hwin |].
  intros c (s0 & e & _ & _ & _ & _ & _ & _ & _ & _ & Hlen). now left.
Qed.

Lemma chunk_document_bounded_witness :
  exists cs,
    _chunk_document 1320 init
      (mkDocument "d" "Flu care" sample_text "note" "manual" [] 0 0 0)
    = Some (Ok cs)
    /\ length cs = 3
    /\ Forall (chunk_bounded 512) cs.
Proof.
  destruct (_chunk_document 1320 init
              (mkDocument "d" "Flu care" sample_text "note" "manual" [] 0 0 0))
    as [[cs | x] |] eqn:Hcs; [| now vm_compute in Hcs | now vm_compute in Hcs].
  exists cs. split; [reflexivity |].
  split; [vm_compute in Hcs; now injection Hcs as <- |].
  apply (chunk_document_bounded 1320 init _ cs ltac:(cbn; lia) ltac:(cbn; lia)
           Hcs).
Defined.

(** *** Symmetry and extremes of the similarity scores *)

Lemma dot_comm (u : list R) : forall v, dot u v = dot v u.
Proof.
  unfold dot. induction u as [| x u IH]; intros [| y v]; cbn; try reflexivity.
  now rewrite IH, Rmult_comm.
Qed.

Lemma word_sets_nonempty_union (a b : gset string) :
  a <> ∅ -> INR (size (a ∪ b)) <> 0%R.
Proof.
  intros Ha H. apply (INR_eq _ 0) in H.
  apply size_empty_iff in H. apply leibniz_equiv in H.
  apply empty_union_L in H as [H _]. now apply Ha.
Qed.

(** X19. The cosine and the keyword score do not depend on the order of
    their two arguments.  The keyword score is 0 exactly when the query
    and the content share no word outside the stop words, and 1 exactly
    when they have the same, non-empty set of such words. *)
Theorem similarity_symmetric_and_extremes (query content : string)
    (u v : list R) :
  _cosine_similarity u v = _cosine_similarity v u
  /\ _keyword_similarity query content = _keyword_similarity content query
  /\ (_keyword_similarity query content = 0%R
      <-> word_set query ∩ word_set content = ∅)
  /\ (_keyword_similarity query content = 1%R
      <-> word_set query = word_set content /\ word_set query <> ∅).
Proof.
  split; [| split; [| split]].
  - unfold _cosine_similarity.
    destruct (decide (length u = length v)) as [Hlen | Hlen].
    + rewrite !bool_decide_eq_true_2 by congruence.
      rewrite (dot_comm u v), (Rmult_comm (norm u) (norm v)).
      destruct (Req_dec_T (norm u) 0), (Req_dec_T (norm v) 0); reflexivity.
    + rewrite !bool_decide_eq_false_2 by congruence. reflexivity.
  - unfold _keyword_similarity. cbv zeta.
    rewrite (bool_decide_ext (word_set query = ∅ ∨ word_set content = ∅)
               (word_set content = ∅ ∨ word_set query = ∅)) by tauto.
    now rewrite (comm_L (∩) (word_set query)), (comm_L (∪) (word_set query)).
  - unfold _keyword_similarity. cbv zeta. case_bool_decide as Hempty.
    + split; [intros _ | reflexivity].
      destruct Hempty as [-> | ->];
        [apply (left_absorb_L ∅ (∩)) | apply (right_absorb_L ∅ (∩))].
    + assert (word_set query <> ∅) as Hq by tauto.
      pose proof (word_sets_nonempty_union _ (word_set content) Hq) as Hpos.
      split.
      * intros H0. apply leibniz_equiv, size_empty_iff, (INR_eq _ 0).
        apply (Rmult_eq_compat_r (INR (size (word_set query ∪ word_set content))))
          in H0.
        unfold Rdiv in H0. rewrite Rmult_assoc, Rinv_l, Rmult_1_r in H0
          by exact Hpos.
        rewrite H0. cbn. ring.
      * intros ->. rewrite size_empty. cbn. unfold Rdiv. ring.
  - unfold _keyword_similarity. cbv zeta. case_bool_decide as Hempty.
    + split; [intros H; lra |].
      intros [Heq Hq]. rewrite <- Heq in Hempty. tauto.
    + assert (word_set query <> ∅) as Hq by tauto.
      pose proof (word_sets_nonempty_union _ (word_set content) Hq) as Hpos.
      split.
      * intros H1. split; [| exact Hq].
        apply (Rmult_eq_compat_r (INR (size (word_set query ∪ word_set content))))
          in H1.
        unfold Rdiv in H1. rewrite Rmult_assoc, Rinv_l, Rmult_1_r, Rmult_1_l in H1
          by exact Hpos.
        apply INR_eq in H1.
        assert (word_set query ∩ word_set content
                = word_set query ∪ word_set content) as Hsame.
        { apply set_subseteq_size_eq; [| lia].
          intros x [Hx _]%elem_of_intersection. apply elem_of_union. now left. }
        apply set_eq. intros x. split; intros Hx.
        -- assert (x ∈ word_set query ∩ word_set content) as Hin
             by (rewrite Hsame; apply elem_of_union; now left).
           now apply elem_of_intersection in Hin as [_ Hin].
        -- assert (x ∈ word_set query ∩ word_set content) as Hin
             by (rewrite Hsame; apply elem_of_union; now right).
           now apply elem_of_intersection in Hin as [Hin _].
      * intros [Heq _]. rewrite <- Heq in *.
        rewrite (idemp_L (∩)), (idemp_L (∪)) in *.
        unfold Rdiv. now apply Rinv_r.
Qed.

End KnowledgeExtra.

Module RetrievalFacts.
Import Knowledge KnowledgeFacts KnowledgeExtra.

Local Open Scope R_scope.

Lemma Forall_sublist_keeps {A} (P : A -> Prop) (l k : list A) :
  l `sublist_of` k -> Forall P k -> Forall P l.
Proof.
  induction 1 as [| x l k _ IH | x l k _ IH]; intros Hk; [constructor | |].
  - apply Forall_cons in Hk as [Hx Hk]. constructor; [exact Hx | now apply IH].
  - apply Forall_cons in Hk as [_ Hk]. now apply IH.
Qed.

(** non-increasing relevance score *)
Definition by_relevance (a b : SearchResult) : Prop :=
  relevance_score b <= relevance_score a.

Lemma insert_result_Permutation x l : Rag.insert_result x l ≡ₚ x :: l.
Proof.
  induction l as [| y l IH]; cbn; [reflexivity |].
  destruct (Rlt_dec _ _); [| reflexivity].
  rewrite IH. apply Permutation_swap.
Qed.

Lemma sort_results_Permutation l : Rag.sort_results l ≡ₚ l.
Proof.
  induction l as [| x l IH]; cbn; [reflexivity |].
  now rewrite insert_result_Permutation, IH.
Qed.

Lemma insert_result_sorted x l :
  StronglySorted by_relevance l ->
  StronglySorted by_relevance (Rag.insert_result x l).
Proof.
  induction 1 as [| y l Hl IH Hy]; cbn [Rag.insert_result];
    [repeat constructor |].
  destruct (Rlt_dec (relevance_score x) (relevance_score y)) as [Hlt | Hge].
  - constructor; [exact IH |].
    rewrite insert_result_Permutation. constructor; [| exact Hy].
    unfold by_relevance. lra.
  - constructor; [now constructor |].
    constructor; [unfold by_relevance; lra |].
    eapply Forall_impl; [exact Hy |]. unfold by_relevance. intros z Hz. lra.
Qed.

Lemma sort_results_sorted l : StronglySorted by_relevance (Rag.sort_results l).
Proof.
  induction l as [| x l IH]; cbn; [constructor | now apply insert_result_sorted].
Qed.

Section Retrieval.

Variable hash : string -> Z.
Variable kb : KnowledgeBase.
Variable query : string.

Local Abbreviation content_hash := (λ r, hash (res_content r)).

(** a result of one of the searches for the query, at or above the
    threshold *)
Definition found (r : SearchResult) : Prop :=
  relevance_threshold kb <= relevance_score r
  /\ exists limit category_filter rs,
      fst (search_knowledge hash query limit category_filter kb) = Ok rs
      /\ r ∈ rs.

Lemma search_results_found limit category_filter rs :
  fst (search_knowledge hash query limit category_filter kb) = Ok rs ->
  Forall found rs.
Proof.
  intros Hrs. apply Forall_forall. intros r Hr. split.
  - apply search_knowledge_unfold in Hrs as (qv & sims & _ & _ & ->).
    apply list_elem_of_fmap in Hr as (s & -> & Hs).
    assert (Forall (λ s, relevance_threshold kb <= similarity_score s)
              (slice_to (filter (λ r, relevance_threshold kb <= similarity_score r)
                           (sort_desc sims)) limit)) as Hall.
    { apply slice_to_Forall, Forall_forall.
      now intros s' [Hs' _]%list_elem_of_filter. }
    eapply Forall_forall in Hall; [exact Hall | exact Hs].
  - now exists limit, category_filter, rs.
Qed.

Lemma category_passes_found cats : forall results out,
  Forall found results ->
  Rag.category_passes hash kb query cats results = Ok out ->
  Forall found out.
Proof.
  induction cats as [| cat cats IH]; intros results out Hres;
    cbn [Rag.category_passes]; [now intros [= <-] |].
  destruct (existsb _ _); [| now apply IH].
  destruct (fst (search_knowledge hash query 2 (Some cat) kb))
    as [category_results | x] eqn:Hcat; cbn [result_bind]; [| discriminate].
  apply IH. apply Forall_app. split; [exact Hres |].
  now apply (search_results_found 2 (Some cat)).
Qed.

(** X20. [_retrieve_knowledge] never raises; it returns at most 5
    results, in non-increasing order of relevance score, no two with the
    same content hash, and each of them is a result, at or above the
    relevance threshold, of a call of [search_knowledge] for the query. *)
Theorem retrieve_knowledge_shape :
  let rs := Rag._retrieve_knowledge hash kb query in
  (length rs <= 5)%nat
  /\ StronglySorted by_relevance rs
  /\ NoDup (content_hash <$> rs)
  /\ Forall found rs.
Proof.
  cbv zeta. unfold Rag._retrieve_knowledge.
  destruct (result_bind _ _) as [results | x] eqn:Hres.
  2: { split; [cbn; lia |]. split; [constructor |]. split; constructor. }
  assert (Forall found results) as Hfound.
  { destruct (fst (search_knowledge hash query 3 None kb))
      as [direct | x] eqn:Hdirect; cbn [result_bind] in Hres; [| discriminate].
    eapply category_passes_found; [| exact Hres].
    now apply (search_results_found 3 None). }
  destruct (RagFacts.deduplicate_from_spec hash results ∅)
    as (Hsub & Hnd & _ & _). cbv zeta in Hsub, Hnd.
  fold (Rag._deduplicate_results hash results) in Hsub, Hnd.
  change (slice_to ?l 5) with (take 5 l).
  split; [rewrite length_take; lia |]. split; [| split].
  - pose proof (sort_results_sorted
                  (Rag._deduplicate_results hash results)) as Hsorted.
    rewrite <- (take_drop 5 (Rag.sort_results _)) in Hsorted.
    now apply StronglySorted_app_1_l in Hsorted.
  - rewrite fmap_take.
    eapply sublist_NoDup; [| apply sublist_take].
    now rewrite sort_results_Permutation.
  - apply Forall_take. rewrite sort_results_Permutation.
    now apply (Forall_sublist_keeps found _ results).
Qed.

Hypothesis kb_ingested : ingested hash kb.
Hypothesis kb_weights : similarity_weights kb = default_weights.
Hypothesis kb_threshold : relevance_threshold kb = 0.6.

Lemma category_passes_empty qv cats : forall results,
  _simple_embedding hash (embedding_dimension kb) query = Ok qv ->
  Forall (λ cat, supplied (Some cat) = true) cats ->
  Rag.category_passes hash kb query cats results = Ok results.
Proof.
  intros results Hqv Hcats. revert results.
  induction Hcats as [| cat cats Hcat _ IH]; intros results;
    cbn [Rag.category_passes]; [reflexivity |].
  destruct (existsb _ _); [| apply IH].
  destruct kb_ingested as (_ & Hids & _).
  destruct (score_chunks_total kb query qv (Some cat) (chunks kb) Hids)
    as [sims Hsims].
  assert (exists rs, fst (search_knowledge hash query 2 (Some cat) kb) = Ok rs)
    as [rs Hrs].
  { unfold search_knowledge; cbn [fst]. rewrite Hqv; cbn [result_bind].
    rewrite Hsims; cbn [result_bind]. eexists. reflexivity. }
  rewrite Hrs; cbn [result_bind].
  rewrite (filtered_search_empty hash kb query 2 (Some cat) rs kb_ingested
             kb_weights kb_threshold Hcat Hrs).
  rewrite app_nil_r. apply IH.
Qed.

(** X21. On an index filled by [add_document], with the default weights
    and threshold, the category-specific passes of [_retrieve_knowledge]
    contribute nothing, whatever the query: the answer is the result of
    the direct search alone (at most 3 results), without duplicates and
    sorted. *)
Theorem category_passes_add_nothing :
  Rag._retrieve_knowledge hash kb query
  = match fst (search_knowledge hash query 3 None kb) with
    | Ok direct_results =>
        Rag.sort_results (Rag._deduplicate_results hash direct_results)
    | Raise _ => []
    end
  /\ (length (Rag._retrieve_knowledge hash kb query) <= 3)%nat.
Proof.
  assert (Rag._retrieve_knowledge hash kb query
          = match fst (search_knowledge hash query 3 None kb) with
            | Ok direct_results =>
                Rag.sort_results
                  (Rag._deduplicate_results hash direct_results)
            | Raise _ => []
            end
          /\ match fst (search_knowledge hash query 3 None kb) with
             | Ok direct_results => (length direct_results <= 3)%nat
             | Raise _ => True
             end) as [Heq Hlen].
  { unfold Rag._retrieve_knowledge.
    destruct (fst (search_knowledge hash query 3 None kb))
      as [direct | x] eqn:Hdirect; cbn [result_bind]; [| now split].
    pose proof Hdirect as (qv & sims & Hqv & _ & Hd)%search_knowledge_unfold.
    rewrite (category_passes_empty qv _ direct Hqv)
      by (repeat constructor).
    assert (length direct <= 3)%nat as Hlen.
    { rewrite Hd, length_fmap.
      exact (proj2 (slice_to_length_le _ 3) ltac:(lia)). }
    split; [| exact Hlen].
    change (slice_to ?l 5) with (take 5 l). apply take_ge.
    rewrite sort_results_Permutation.
    destruct (RagFacts.deduplicate_from_spec hash direct ∅) as (Hsub & _).
    cbv zeta in Hsub. apply sublist_length in Hsub.
    unfold Rag._deduplicate_results. lia. }
  split; [exact Heq |]. rewrite Heq.
  destruct (fst (search_knowledge hash query 3 None kb)) as [direct | x];
    [| cbn; lia].
  rewrite sort_results_Permutation.
  destruct (RagFacts.deduplicate_from_spec hash direct ∅) as (Hsub & _).
  cbv zeta in Hsub. apply sublist_length in Hsub.
  unfold Rag._deduplicate_results. lia.
Qed.

End Retrieval.

Lemma category_passes_add_nothing_witness :
  ingested demo_hash demo_kb
  /\ existsb (λ term, PyStr.contains term (PyStr.lower "flu treatment"))
       (Rag._get_category_terms "treatment") = true
  /\ (length (Rag._retrieve_knowledge demo_hash demo_kb "flu treatment") <= 3)%nat.
Proof.
  destruct demo_kb_spec as (Hw & Hdim & Hchunks & Hing).
  assert (relevance_threshold demo_kb = 0.6) as Hth.
  { unfold demo_kb.
    destruct (flu_ingest_ok demo_hash demo_md5 0 0)
      as (kb & cv & -> & _ & _ & _ & _ & Hcfg).
    now destruct Hcfg as (_ & _ & _ & _ & -> & _). }
  split; [exact Hing |]. split; [reflexivity |].
  exact (proj2 (category_passes_add_nothing demo_hash demo_kb "flu treatment"
                  Hing Hw Hth)).
Defined.

End RetrievalFacts.

(** * The scorer in binary64 *)

Module Binary64Facts.
Import Knowledge Binary64.

Local Open Scope float_scope.

(** the bucket of a word in a vector of [d] components *)
Definition bucket (hash : string -> Z) (d : nat) (word : string) : nat :=
  Z.to_nat (hash word mod Z.of_nat d).

Lemma bucket_lt hash d word : (0 < d)%nat -> (bucket hash d word < d)%nat.
Proof.
  intros Hd. unfold bucket.
  pose proof (Z.mod_pos_bound (hash word) (Z.of_nat d)). lia.
Qed.

(** a vector that is zero outside one component *)
Definition one_hot (d i : nat) (a : float) : list float :=
  replicate i 0 ++ a :: replicate (d - S i) 0.

(** a vector that is zero outside two components, listed in the order
    of their indices *)
Definition blocks (n1 : nat) (a : float) (n2 : nat) (b : float) (n3 : nat)
  : list float :=
  replicate n1 0 ++ a :: replicate n2 0 ++ b :: replicate n3 0.

(** a vector that is zero outside the components [i] and [j] *)
Definition two_hot (d i : nat) (a : float) (j : nat) (b : float) : list float :=
  if (i <? j)%nat then blocks i a (j - S i) b (d - S j)
  else blocks j b (i - S j) a (d - S i).

Lemma one_hot_length d i a : (i < d)%nat -> length (one_hot d i a) = d.
Proof.
  intros Hi. unfold one_hot. rewrite length_app, length_replicate. cbn.
  rewrite length_replicate. lia.
Qed.

Lemma blocks_length n1 a n2 b n3 :
  length (blocks n1 a n2 b n3) = (n1 + S (n2 + S n3))%nat.
Proof.
  unfold blocks. rewrite length_app, length_replicate. cbn.
  rewrite length_app, length_replicate. cbn. now rewrite length_replicate.
Qed.

Lemma two_hot_length d i a j b :
  (i < d)%nat -> (j < d)%nat -> i <> j -> length (two_hot d i a j b) = d.
Proof.
  intros Hi Hj Hij. unfold two_hot.
  destruct (Nat.ltb_spec i j); rewrite blocks_length; lia.
Qed.

Lemma alter_replicate (f : float -> float) (z : float) (i : nat) :
  forall d, (i < d)%nat ->
  alter f i (replicate d z) = replicate i z ++ f z :: replicate (d - S i) z.
Proof.
  induction i as [| i IH]; intros [| d] Hd; try lia.
  - cbn. now rewrite Nat.sub_0_r.
  - change (z :: alter f i (replicate d z)
            = z :: (replicate i z ++ f z :: replicate (d - S i) z)).
    now rewrite (IH d) by lia.
Qed.

(** the vector after two words were scattered into different buckets *)
Lemma alter_two (f g : float -> float) (d i j : nat) :
  (i < d)%nat -> (j < d)%nat -> i <> j ->
  alter f j (alter g i (replicate d 0)) = two_hot d i (g 0) j (f 0).
Proof.
  intros Hi Hj Hij. rewrite (alter_replicate g 0 i d Hi). unfold two_hot, blocks.
  destruct (Nat.ltb_spec i j) as [Hlt | Hge].
  - rewrite alter_app_r_alt by (rewrite length_replicate; lia).
    rewrite length_replicate.
    replace (j - i)%nat with (S (j - S i)) by lia.
    cbn [alter list_alter].
    rewrite (alter_replicate f 0 (j - S i) (d - S i)) by lia.
    now replace (d - S i - S (j - S i))%nat with (d - S j)%nat by lia.
  - rewrite alter_app_l by (rewrite length_replicate; lia).
    rewrite (alter_replicate f 0 j i) by lia.
    now rewrite <- app_assoc.
Qed.

Lemma fmap_blocks (f : float -> float) n1 a n2 b n3 :
  f 0 = 0 -> f <$> blocks n1 a n2 b n3 = blocks n1 (f a) n2 (f b) n3.
Proof.
  intros Hf. unfold blocks.
  rewrite fmap_app, fmap_cons, fmap_app, fmap_cons, !fmap_replicate.
  now rewrite Hf.
Qed.

Lemma fmap_two_hot (f : float -> float) d i a j b :
  f 0 = 0 -> f <$> two_hot d i a j b = two_hot d i (f a) j (f b).
Proof.
  intros Hf. unfold two_hot. destruct (i <? j)%nat; now apply fmap_blocks.
Qed.

Lemma fmap_one_hot (f : float -> float) d i a :
  f 0 = 0 -> f <$> one_hot d i a = one_hot d i (f a).
Proof.
  intros Hf. unfold one_hot. rewrite fmap_app, fmap_cons, !fmap_replicate.
  now rewrite Hf.
Qed.

(** a sum is not changed by adding zero, the product of two zeros *)
Definition absorbs (s : float) : Prop := s + 0 = s.

Lemma foldl_zeros (s : float) (n : nat) :
  absorbs s ->
  foldl (λ acc p, acc + p) s (zip_with PrimFloat.mul (replicate n 0) (replicate n 0))
  = s.
Proof.
  intros Hs. rewrite zip_with_replicate. change (0 * 0) with 0.
  induction n as [| n IH]; cbn [replicate foldl]; [reflexivity |].
  now rewrite Hs.
Qed.

Lemma dot_one_hot d i a a' :
  absorbs (0 + a * a') -> dot (one_hot d i a) (one_hot d i a') = 0 + a * a'.
Proof.
  intros Ha. unfold dot, one_hot.
  rewrite zip_with_app by now rewrite !length_replicate.
  rewrite foldl_app, foldl_zeros by reflexivity.
  cbn [zip_with foldl]. now apply foldl_zeros.
Qed.

Lemma dot_blocks n1 a a' n2 b b' n3 :
  absorbs (0 + a * a') -> absorbs (0 + a * a' + b * b') ->
  dot (blocks n1 a n2 b n3) (blocks n1 a' n2 b' n3) = 0 + a * a' + b * b'.
Proof.
  intros Ha Hb. unfold dot, blocks.
  rewrite zip_with_app by now rewrite !length_replicate.
  rewrite foldl_app, foldl_zeros by reflexivity.
  cbn [zip_with foldl].
  rewrite zip_with_app by now rewrite !length_replicate.
  rewrite foldl_app, foldl_zeros by exact Ha.
  cbn [zip_with foldl]. now apply foldl_zeros.
Qed.

Lemma dot_two_hot d i a a' j b b' :
  absorbs (0 + a * a') -> absorbs (0 + a * a' + b * b') ->
  absorbs (0 + b * b') -> absorbs (0 + b * b' + a * a') ->
  dot (two_hot d i a j b) (two_hot d i a' j b')
  = if (i <? j)%nat then 0 + a * a' + b * b' else 0 + b * b' + a * a'.
Proof.
  intros H1 H2 H3 H4. unfold two_hot.
  destruct (i <? j)%nat; now apply dot_blocks.
Qed.

Lemma one_hot_as_two_hot d i a k :
  (i < d)%nat -> (k < d)%nat -> i <> k -> one_hot d i a = two_hot d i a k 0.
Proof.
  intros Hi Hk Hik. unfold one_hot, two_hot, blocks.
  destruct (Nat.ltb_spec i k) as [Hlt | Hge].
  - replace (d - S i)%nat with ((k - S i) + S (d - S k))%nat by lia.
    now rewrite replicate_add.
  - replace i with (k + S (i - S k))%nat at 1 by lia.
    rewrite replicate_add, <- app_assoc. reflexivity.
Qed.

Ltac closed_float :=
  unfold absorbs; vm_compute; reflexivity.

Section Embeddings.

Variable hash : string -> Z.
Variable d : nat.
Hypothesis d_pos : (0 < d)%nat.

Lemma scatter_pos (vector : list float) (item : string * nat) :
  scatter hash d vector item
  = Ok (alter (λ x, x + Memory.float_of_nat (snd item))
          (bucket hash d (fst item)) vector).
Proof. unfold scatter, bucket. destruct d; [lia | reflexivity]. Qed.

Lemma scatter_one (word : string) (freq : nat) :
  scatter_all hash d (replicate d 0) [(word, freq)]
  = Ok (one_hot d (bucket hash d word) (0 + Memory.float_of_nat freq)).
Proof.
  cbn [scatter_all]. rewrite scatter_pos. cbn [result_bind fst snd]. f_equal.
  exact (alter_replicate (λ x, x + Memory.float_of_nat freq) 0 _ d
           (bucket_lt hash d word d_pos)).
Qed.

Lemma scatter_two (w1 w2 : string) (c1 c2 : nat) :
  bucket hash d w1 <> bucket hash d w2 ->
  scatter_all hash d (replicate d 0) [(w1, c1); (w2, c2)]
  = Ok (two_hot d (bucket hash d w1) (0 + Memory.float_of_nat c1)
          (bucket hash d w2) (0 + Memory.float_of_nat c2)).
Proof.
  intros Hne. cbn [scatter_all]. rewrite scatter_pos. cbn [result_bind].
  rewrite scatter_pos. cbn [result_bind fst snd]. f_equal.
  exact (alter_two (λ x, x + Memory.float_of_nat c2)
           (λ x, x + Memory.float_of_nat c1) d _ _
           (bucket_lt hash d w1 d_pos) (bucket_lt hash d w2 d_pos) Hne).
Qed.

(** the vector of a text with one word, "fluids" *)
Lemma fluids_embedding :
  _simple_embedding hash d "fluids" = Ok (one_hot d (bucket hash d "fluids") 1).
Proof.
  unfold _simple_embedding.
  change (word_frequencies (PyStr.split (PyStr.lower "fluids")))
    with [("fluids"%string, 1%nat)].
  cbv zeta. rewrite scatter_one. cbn [result_bind]. f_equal.
  unfold normalize, norm. rewrite dot_one_hot by closed_float.
  change (0 <? PrimFloat.sqrt (0 + (0 + Memory.float_of_nat 1)
                                     * (0 + Memory.float_of_nat 1)))
    with true.
  cbv iota. now rewrite fmap_one_hot by closed_float.
Qed.

(** the vector of a text with the words "rest", twice, and "fluids":
    2/sqrt(5) and 1/sqrt(5) in the buckets of the two words *)
Lemma rest_fluids_embedding :
  bucket hash d "rest" <> bucket hash d "fluids" ->
  _simple_embedding hash d "rest rest fluids"
  = Ok (two_hot d (bucket hash d "rest") (2 / PrimFloat.sqrt 5)
          (bucket hash d "fluids") (1 / PrimFloat.sqrt 5)).
Proof.
  intros Hne. unfold _simple_embedding.
  change (word_frequencies (PyStr.split (PyStr.lower "rest rest fluids")))
    with [("rest"%string, 2%nat); ("fluids"%string, 1%nat)].
  cbv zeta. rewrite (scatter_two _ _ _ _ Hne). cbn [result_bind]. f_equal.
  unfold normalize, norm. rewrite dot_two_hot by closed_float.
  destruct (bucket hash d "rest" <? bucket hash d "fluids")%nat eqn:Hlt.
  - change (0 <? PrimFloat.sqrt _) with true. cbv iota.
    rewrite fmap_two_hot by closed_float. unfold two_hot. now rewrite Hlt.
  - change (0 <? PrimFloat.sqrt _) with true. cbv iota.
    rewrite fmap_two_hot by closed_float. unfold two_hot. now rewrite Hlt.
Qed.

(** the cosine of that vector with itself, in binary64 *)
Lemma rest_fluids_cosine :
  bucket hash d "rest" <> bucket hash d "fluids" ->
  let v := two_hot d (bucket hash d "rest") (2 / PrimFloat.sqrt 5)
             (bucket hash d "fluids") (1 / PrimFloat.sqrt 5) in
  _cosine_similarity v v = 1.0000000000000002.
Proof.
  intros Hne. cbv zeta. unfold _cosine_similarity.
  rewrite bool_decide_eq_true_2 by reflexivity.
  cbv zeta. unfold norm. rewrite dot_two_hot by closed_float.
  destruct (bucket hash d "rest" <? bucket hash d "fluids")%nat;
    vm_compute; reflexivity.
Qed.

End Embeddings.

Lemma bucket_neq (h1 h2 : string -> Z) (w1 w2 : string) :
  (h1 w1 mod 384 <> h2 w2 mod 384)%Z -> bucket h1 384 w1 <> bucket h2 384 w2.
Proof.
  unfold bucket. intros Hne Heq. apply Hne.
  pose proof (Z.mod_pos_bound (h1 w1) 384). pose proof (Z.mod_pos_bound (h2 w2) 384).
  change (Z.of_nat 384) with 384%Z in Heq. lia.
Qed.

Section Ingest.

Variable hash : string -> Z.
Variable md5_hexdigest : string -> string.
Variables t1 t2 : Z.

(** a document of category "treatment" with one short sentence, added
    to the empty index *)
Definition ingest (content : string) : option (result string * KnowledgeBase) :=
  add_document hash md5_hexdigest 1 "Flu care" content "treatment" "manual"
    None t1 t2 init.

Definition document_id (content : string) : string :=
  _generate_document_id md5_hexdigest "Flu care" content.

(** the chunk of that document, as stored *)
Definition stored_chunk (content : string) : Chunk :=
  store_chunk (document_id content) 0
    (sentence_chunk content "Flu care" "medical_paragraph" 1).

(** the index after the document was added *)
Definition stored_index (content : string) (v : list float) : KnowledgeBase :=
  {| documents := [make_document md5_hexdigest "Flu care" content "treatment"
                     "manual" None t1];
     chunks := [stored_chunk content];
     embeddings := {[ (document_id content ++ "_chunk_0")%string := v ]};
     metadata := {[ document_id content := mkMetadata 1 ["treatment"] [] t2 ]};
     embedding_dimension := 384;
     chunk_size := 512;
     chunk_overlap := 50;
     max_chunks_per_document := 10;
     relevance_threshold := 0.6;
     similarity_weights := default_weights |}.

Lemma ingest_rest_fluids :
  bucket hash 384 "rest" <> bucket hash 384 "fluids" ->
  ingest "rest rest fluids"
  = Some (Ok (document_id "rest rest fluids"),
          stored_index "rest rest fluids"
            (two_hot 384 (bucket hash 384 "rest") (2 / PrimFloat.sqrt 5)
               (bucket hash 384 "fluids") (1 / PrimFloat.sqrt 5))).
Proof.
  intros Hne. unfold ingest, add_document. cbv zeta.
  change (_chunk_document 1 _ _)
    with (Some (Ok [sentence_chunk "rest rest fluids" "Flu care"
                      "medical_paragraph" 1])).
  cbv iota beta.
  change (embedding_dimension (with_document init _)) with 384%nat.
  unfold _generate_chunk_embeddings. cbn [result_map chunk_content sentence_chunk].
  rewrite (rest_fluids_embedding hash 384 ltac:(lia) Hne). cbn [result_bind].
  reflexivity.
Qed.

Lemma ingest_fluids :
  ingest "fluids"
  = Some (Ok (document_id "fluids"),
          stored_index "fluids" (one_hot 384 (bucket hash 384 "fluids") 1)).
Proof.
  unfold ingest, add_document. cbv zeta.
  change (_chunk_document 1 _ _)
    with (Some (Ok [sentence_chunk "fluids" "Flu care" "medical_paragraph" 1])).
  cbv iota beta.
  change (embedding_dimension (with_document init _)) with 384%nat.
  unfold _generate_chunk_embeddings. cbn [result_map chunk_content sentence_chunk].
  rewrite (fluids_embedding hash 384 ltac:(lia)). cbn [result_bind].
  reflexivity.
Qed.

(** a search on that index scores its one chunk; [hash'] is the hash
    of the process that searches *)
Lemma search_stored_index (hash' : string -> Z) (content query : string)
    (v qv : list float) (limit : Z) (category_filter : option string) :
  _simple_embedding hash' 384 query = Ok qv ->
  fst (search_knowledge hash' query limit category_filter
         (stored_index content v))
  = Ok (format_result
          <$> slice_to
                (filter (λ r, (0.6 <=? similarity_score r) = true)
                   [score_chunk default_weights query qv category_filter
                      (stored_chunk content) v])
                limit).
Proof.
  intros Hqv. unfold search_knowledge.
  cbn [fst embedding_dimension stored_index chunks]. rewrite Hqv.
  cbn [result_bind score_chunks chunk_id stored_chunk store_chunk].
  change (PyStr.of_nat 0) with "0"%string.
  change (embeddings (stored_index content v))
    with ({[ (document_id content ++ "_chunk_0")%string := v ]}
          : gmap string (list float)).
  rewrite lookup_singleton_eq. reflexivity.
Qed.

End Ingest.

(** C4. The claim bounds the cosine of the fallback vectors by 1.  The
    document "rest rest fluids" is ingested and then searched with its
    own text.  When the two words fall into different buckets the vector
    holds 2/sqrt(5) and 1/sqrt(5); its dot product with itself is
    0.9999999999999999, the square of the rounded norm is
    0.9999999999999998, and [_cosine_similarity] returns their quotient
    1.0000000000000002 as the semantic score of the result, above 1.
    [_category_similarity] caps its quotient with [min(1.0, ...)];
    [_cosine_similarity] returns the quotient as it is. *)
Theorem self_match_exceeds_one (hash : string -> Z)
    (md5_hexdigest : string -> string) (t1 t2 : Z) :
  (hash "rest" mod 384 <> hash "fluids" mod 384)%Z ->
  exists kb r,
    add_document hash md5_hexdigest 1 "Flu care" "rest rest fluids" "treatment"
      "manual" None t1 t2 init
    = Some (Ok (_generate_document_id md5_hexdigest "Flu care"
                  "rest rest fluids"), kb)
    /\ fst (search_knowledge hash "rest rest fluids" 5 None kb) = Ok [r]
    /\ res_content r = "rest rest fluids"%string
    /\ semantic_score r = 1.0000000000000002
    /\ (1 <? semantic_score r) = true
    /\ keyword_score r = 1
    /\ category_score r = 0
    /\ relevance_score r = 0.9000000000000001.
Proof.
  intros Hne%bucket_neq.
  pose proof (ingest_rest_fluids hash md5_hexdigest t1 t2 Hne) as Hingest.
  pose proof (rest_fluids_embedding hash 384 ltac:(lia) Hne) as Hqv.
  pose proof (rest_fluids_cosine hash 384 Hne) as Hcos. cbv zeta in Hcos.
  eexists. eexists. split; [exact Hingest |].
  rewrite (search_stored_index md5_hexdigest t1 t2 hash _ _ _ _ 5 None Hqv).
  unfold score_chunk. cbv zeta. rewrite Hcos.
  split; [vm_compute; reflexivity |]. now vm_compute.
Qed.

(** The same index searched with a category filter: the score
    0.9000000000000001 is halved to 0.45000000000000007, below the
    threshold, and nothing is returned, although the document has the
    category of the filter. *)
Remark filtered_self_match_finds_nothing (hash : string -> Z)
    (md5_hexdigest : string -> string) (t1 t2 : Z) :
  (hash "rest" mod 384 <> hash "fluids" mod 384)%Z ->
  exists kb,
    add_document hash md5_hexdigest 1 "Flu care" "rest rest fluids" "treatment"
      "manual" None t1 t2 init
    = Some (Ok (_generate_document_id md5_hexdigest "Flu care"
                  "rest rest fluids"), kb)
    /\ fst (search_knowledge hash "rest rest fluids" 5 (Some "treatment"%string) kb)
       = Ok [].
Proof.
  intros Hne%bucket_neq.
  pose proof (rest_fluids_embedding hash 384 ltac:(lia) Hne) as Hqv.
  pose proof (rest_fluids_cosine hash 384 Hne) as Hcos. cbv zeta in Hcos.
  eexists. split; [exact (ingest_rest_fluids hash md5_hexdigest t1 t2 Hne) |].
  rewrite (search_stored_index md5_hexdigest t1 t2 hash _ _ _ _ 5
             (Some "treatment"%string) Hqv).
  unfold score_chunk. cbv zeta. rewrite Hcos. vm_compute. reflexivity.
Qed.

(** the words "rest" and "fluids" have 4 and 6 characters *)
Definition length_hash (word : string) : Z := Z.of_nat (String.length word).

Definition constant_md5 (text : string) : string :=
  "9e107d9d372bb6826bd81d3542a419d6".

Lemma self_match_exceeds_one_witness :
  (length_hash "rest" mod 384 <> length_hash "fluids" mod 384)%Z
  /\ exists kb r,
      fst (search_knowledge length_hash "rest rest fluids" 5 None kb) = Ok [r]
      /\ (1 <? semantic_score r) = true.
Proof.
  assert (length_hash "rest" mod 384 <> length_hash "fluids" mod 384)%Z as Hne
    by (vm_compute; discriminate).
  split; [exact Hne |].
  destruct (self_match_exceeds_one length_hash constant_md5 0 0 Hne)
    as (kb & r & _ & Hsearch & _ & _ & Habove & _).
  now exists kb, r.
Defined.

(** the cosine of two unit vectors of one component each *)
Lemma one_hot_cosine (d i j : nat) :
  (i < d)%nat -> (j < d)%nat ->
  _cosine_similarity (one_hot d i 1) (one_hot d j 1) = if decide (i = j) then 1 else 0.
Proof.
  intros Hi Hj. unfold _cosine_similarity.
  rewrite bool_decide_eq_true_2 by now rewrite !one_hot_length.
  cbv zeta. unfold norm. rewrite !dot_one_hot by closed_float.
  destruct (decide (i = j)) as [-> | Hne].
  - rewrite dot_one_hot by closed_float. vm_compute. reflexivity.
  - rewrite (one_hot_as_two_hot d i 1 j Hi Hj Hne).
    rewrite (one_hot_as_two_hot d j 1 i Hj Hi (not_eq_sym Hne)).
    assert (two_hot d j 1 i 0 = two_hot d i 0 j 1) as ->.
    { unfold two_hot.
      destruct (Nat.ltb_spec j i), (Nat.ltb_spec i j); try lia; reflexivity. }
    rewrite dot_two_hot by closed_float.
    destruct (i <? j)%nat; vm_compute; reflexivity.
Qed.

(** C8. The claim says that two evaluations of the fallback embedding
    give the same vector and two searches of an unmutated index the same
    results.  The bucket of a word is [hash(word) % 384], and the
    interpreter's string hash has another salt in every process, while
    the stored vectors are written to disk and read back.  [h1] is the
    hash of the process that ingests the one-word document "fluids",
    [h2] the hash of a later process that loads the same index: when the
    word falls into another bucket the two embeddings of "fluids"
    differ, and the query "fluids" that found the chunk with score
    0.8999999999999999 finds nothing, on an index that no call changed.
    [_generate_document_id] hashes with md5, which has no salt. *)
Theorem restart_changes_results (h1 h2 : string -> Z)
    (md5_hexdigest : string -> string) (t1 t2 : Z) :
  (h1 "fluids" mod 384 <> h2 "fluids" mod 384)%Z ->
  exists kb v1 v2 r,
    add_document h1 md5_hexdigest 1 "Flu care" "fluids" "treatment" "manual"
      None t1 t2 init
    = Some (Ok (_generate_document_id md5_hexdigest "Flu care" "fluids"), kb)
    /\ _simple_embedding h1 (embedding_dimension kb) "fluids" = Ok v1
    /\ _simple_embedding h2 (embedding_dimension kb) "fluids" = Ok v2
    /\ v1 <> v2
    /\ search_knowledge h1 "fluids" 5 None kb = (Ok [r], kb)
    /\ res_content r = "fluids"%string
    /\ relevance_score r = 0.8999999999999999
    /\ search_knowledge h2 "fluids" 5 None kb = (Ok [], kb).
Proof.
  intros Hne%bucket_neq.
  pose proof (bucket_lt h1 384 "fluids" ltac:(lia)) as Hi.
  pose proof (bucket_lt h2 384 "fluids" ltac:(lia)) as Hj.
  pose proof (fluids_embedding h1 384 ltac:(lia)) as Hv1.
  pose proof (fluids_embedding h2 384 ltac:(lia)) as Hv2.
  pose proof (one_hot_cosine 384 _ _ Hi Hi) as Hsame.
  pose proof (one_hot_cosine 384 _ _ Hj Hi) as Hother.
  rewrite decide_True in Hsame by reflexivity.
  rewrite decide_False in Hother by (intros Heq; now apply Hne).
  eexists. exists (one_hot 384 (bucket h1 384 "fluids") 1),
    (one_hot 384 (bucket h2 384 "fluids") 1). eexists.
  split; [exact (ingest_fluids h1 md5_hexdigest t1 t2) |].
  split; [exact Hv1 |]. split; [exact Hv2 |]. split.
  { intros Heq. rewrite <- Heq in Hother. rewrite Hsame in Hother.
    apply (f_equal (λ x, x =? 0)) in Hother. vm_compute in Hother.
    discriminate Hother. }
  assert (forall h qv,
             _simple_embedding h 384 "fluids" = Ok qv ->
             search_knowledge h "fluids" 5 None
               (stored_index md5_hexdigest t1 t2 "fluids"
                  (one_hot 384 (bucket h1 384 "fluids") 1))
             = (fst (search_knowledge h "fluids" 5 None
                       (stored_index md5_hexdigest t1 t2 "fluids"
                          (one_hot 384 (bucket h1 384 "fluids") 1))),
                stored_index md5_hexdigest t1 t2 "fluids"
                  (one_hot 384 (bucket h1 384 "fluids") 1))) as Hpair
    by reflexivity.
  rewrite (Hpair h1 _ Hv1), (Hpair h2 _ Hv2).
  rewrite (search_stored_index md5_hexdigest t1 t2 h1 _ _ _ _ 5 None Hv1).
  rewrite (search_stored_index md5_hexdigest t1 t2 h2 _ _ _ _ 5 None Hv2).
  unfold score_chunk. cbv zeta. rewrite Hsame, Hother.
  split; [vm_compute; reflexivity |]. now vm_compute.
Qed.

Lemma restart_changes_results_witness :
  (length_hash "fluids" mod 384 <> Z.succ (length_hash "fluids") mod 384)%Z
  /\ exists kb r,
      search_knowledge length_hash "fluids" 5 None kb = (Ok [r], kb)
      /\ search_knowledge (λ w, Z.succ (length_hash w)) "fluids" 5 None kb
         = (Ok [], kb).
Proof.
  assert (length_hash "fluids" mod 384 <> Z.succ (length_hash "fluids") mod 384)%Z
    as Hne by (vm_compute; discriminate).
  split; [exact Hne |].
  destruct (restart_changes_results length_hash (λ w, Z.succ (length_hash w))
              constant_md5 0 0 Hne)
    as (kb & v1 & v2 & r & _ & _ & _ & _ & H1 & _ & _ & H2).
  now exists kb, r.
Defined.

End Binary64Facts.
